(** * The terminal, program loader and launcher of kernel/terminal.cpp

    A shallow embedding of [src/kernel/terminal.cpp]: the argument-vector
    builder, the ELF loader, the per-task page-map set-up, the launch cache,
    the launcher [Terminal::ExecuteFile], the line editor with its command
    history, the built-in commands and the terminal file descriptor.

    Conventions.
    - Integers are [Z]; a 64-bit address computation writes its wrap-around
      out ([wrap64]).
    - A [string] is the content of a C string: the bytes before the
      terminating NUL.  A nullable [char*] is an [option string].
    - Code that lives outside terminal.cpp (paging.cpp, fat.cpp, asmfunc,
      the task manager, header constants) is a field of the class [Kernel]:
      the functions of this file are written against every such kernel.
    - Every call of a collaborator is recorded in the [trace] of the world,
      a ghost log that the theorems read. *)

From Stdlib Require Import ZArith List String Ascii Bool Lia.
From stdpp Require Import gmap.
Import ListNotations.
Open Scope string_scope.
Open Scope list_scope.
Open Scope Z_scope.

Infix "+++" := String.append (at level 60, right associativity).

(* ================================================================= *)
(** ** Errors (error.hpp) *)

(** The codes terminal.cpp names, and [kOther] for any further code that a
    collaborator hands back. *)
Inductive Error : Type :=
| kSuccess
| kFull
| kInvalidFormat
| kInvalidFile
| kOther (code : Z).

(** [Error::operator bool]: true when the code is not [kSuccess]. *)
Definition is_err (e : Error) : bool :=
  match e with kSuccess => false | _ => true end.

(** [WithError<T>]: a value together with an error. *)
Definition WithError (T : Type) : Type := (T * Error)%type.

(** A read through a pointer that may be null, or a [sprintf] into a buffer
    that may be too short, made total. *)
Inductive Fault : Type :=
| NullDereference
| BufferOverflow.

Inductive Result (A : Type) : Type :=
| Ok (a : A)
| Crash (f : Fault).
Arguments Ok {A} a.
Arguments Crash {A} f.

(* ================================================================= *)
(** ** Characters and C strings *)

Definition NUL : ascii := Ascii.zero.

Definition code (c : ascii) : Z := Z.of_N (N_of_ascii c).

(** [isspace] of the C locale: space, and the controls 9 to 13. *)
Definition isspace (c : ascii) : bool :=
  (code c =? 32) || ((9 <=? code c) && (code c <=? 13)).

(** [toupper] of the C locale. *)
Definition toupper (c : ascii) : ascii :=
  if (97 <=? code c) && (code c <=? 122)
  then ascii_of_N (Z.to_N (code c - 32))
  else c.

Definition strlen (s : string) : Z := Z.of_nat (String.length s).

Fixpoint replicate_char (n : nat) (c : ascii) : string :=
  match n with
  | O => EmptyString
  | S k => String c (replicate_char k c)
  end.

(* ================================================================= *)
(** ** MakeArgVector (terminal.cpp:17-67) *)

Module ArgVector.

(** The locals of [MakeArgVector] and the two arrays it fills.  [argv] maps
    an index to the offset in [argbuf] its pointer designates; [argbuf] maps
    an offset to the byte stored there.  Both are unbounded here, so a store
    past [argbuf_len] is seen rather than lost. *)
Record State : Type := mkState {
  argc : Z;
  argbuf_index : Z;
  argv : gmap Z Z;
  argbuf : gmap Z ascii
}.

Definition init : State := mkState 0 0 ∅ ∅.

(** [strcpy(&argbuf[at], s)]: the bytes of [s], then the NUL. *)
Fixpoint strcpy (buf : gmap Z ascii) (at_ : Z) (s : string) : gmap Z ascii :=
  match s with
  | EmptyString => <[at_ := NUL]> buf
  | String c s' => strcpy (<[at_ := c]> buf) (at_ + 1) s'
  end.

(** The lambda [push_to_argv]. *)
Definition push_to_argv (argv_len argbuf_len : Z) (st : State) (s : string)
  : State * Error :=
  if (argv_len <=? argc st) || (argbuf_len <=? argbuf_index st)
  then (st, kFull)
  else (mkState (argc st + 1)
                (argbuf_index st + (strlen s + 1))
                (<[argc st := argbuf_index st]> (argv st))
                (strcpy (argbuf st) (argbuf_index st) s),
        kSuccess).

(** [while (isspace(p[0])) p++;] *)
Fixpoint skip_spaces (p : string) : string :=
  match p with
  | String c p' => if isspace c then skip_spaces p' else p
  | EmptyString => p
  end.

(** [while (p[0] != 0 && !isspace(p[0])) p++;]: the argument scanned and
    what is left at [p]. *)
Fixpoint scan_arg (p : string) : string * string :=
  match p with
  | String c p' =>
      if isspace c then (EmptyString, p)
      else let (a, r) := scan_arg p' in (String c a, r)
  | EmptyString => (EmptyString, EmptyString)
  end.

(** The [while (true)] loop over [first_arg].  One round consumes at least
    one byte of [p]; [fuel] bounds the rounds, and [None] is only returned
    when it runs out. *)
Fixpoint arg_loop (fuel : nat) (argv_len argbuf_len : Z) (p : string)
  (st : State) : option (State * Error) :=
  match fuel with
  | O => None
  | S fuel' =>
      let p1 := skip_spaces p in
      match p1 with
      | EmptyString => Some (st, kSuccess)
      | String _ _ =>
          let (arg, p2) := scan_arg p1 in
          let (st', err) := push_to_argv argv_len argbuf_len st arg in
          if is_err err then Some (st', err)
          else match p2 with
               | EmptyString => Some (st', kSuccess)        (* is_end *)
               | String _ p3 => arg_loop fuel' argv_len argbuf_len p3 st'
               end
      end
  end.

(** [MakeArgVector(command, first_arg, argv, argv_len, argbuf, argbuf_len)].
    The C function returns [{argc, err}]; the whole state is returned here,
    [argc] being one of its fields.  The loop is given one round more than
    [first_arg] has bytes, which it never uses up ([arg_loop_fuel]). *)
Definition MakeArgVector (command : string) (first_arg : option string)
  (argv_len argbuf_len : Z) : State * Error :=
  let (st, err) := push_to_argv argv_len argbuf_len init command in
  if is_err err then (st, err)
  else match first_arg with
       | None => (st, kSuccess)
       | Some p =>
           match arg_loop (S (String.length p)) argv_len argbuf_len p st with
           | Some r => r
           | None => (st, kSuccess)
           end
       end.

(** The tokens of an argument list, as the loop cuts them. *)
Fixpoint tokens (fuel : nat) (p : string) : list string :=
  match fuel with
  | O => []
  | S fuel' =>
      match skip_spaces p with
      | EmptyString => []
      | String c q =>
          let (arg, p2) := scan_arg (String c q) in
          arg :: match p2 with
                 | EmptyString => []
                 | String _ p3 => tokens fuel' p3
                 end
      end
  end.

Definition argument_list (command : string) (first_arg : option string)
  : list string :=
  command :: match first_arg with
             | None => []
             | Some p => tokens (S (String.length p)) p
             end.

(** The bytes the argument list takes when packed: each string and its NUL. *)
Definition packed_size (l : list string) : Z :=
  fold_right (fun s n => strlen s + 1 + n) 0 l.

End ArgVector.

(* ================================================================= *)
(** ** The machine, the task and the terminal *)

Definition wrap64 (z : Z) : Z := z mod 2 ^ 64.

(** What terminal.cpp sees of the hardware and of the paging collaborator:
    the bytes of memory, the entries of each page map (entry [i] of the map
    at address [p] is [pagemap p i]), the register CR3, and [aux], the
    collaborators' own state, which terminal.cpp never reads. *)
Record Machine : Type := mkMachine {
  mem : Z -> Z;
  pagemap : Z -> Z -> Z;
  cr3 : Z;
  aux : Z -> Z
}.

Definition set_mem (f : Z -> Z) (m : Machine) : Machine :=
  mkMachine f (pagemap m) (cr3 m) (aux m).
Definition set_pagemap (f : Z -> Z -> Z) (m : Machine) : Machine :=
  mkMachine (mem m) f (cr3 m) (aux m).
(** [SetCR3(value)] *)
Definition SetCR3 (v : Z) (m : Machine) : Machine :=
  mkMachine (mem m) (pagemap m) v (aux m).
(** [GetCR3()] *)
Definition GetCR3 (m : Machine) : Z := cr3 m.

(** [memcpy(dst, src, n)] on bytes, copying upwards from the first byte. *)
Fixpoint memcpy_bytes (n : nat) (dst src : Z) (f : Z -> Z) : Z -> Z :=
  match n with
  | O => f
  | S k =>
      memcpy_bytes k (wrap64 (dst + 1)) (wrap64 (src + 1))
        (fun a => if a =? dst then f src else f a)
  end.

Definition memcpy (dst src n : Z) (m : Machine) : Machine :=
  set_mem (memcpy_bytes (Z.to_nat n) dst src (mem m)) m.

(** [memcpy(dst, src, n * sizeof(uint64_t))] between two page maps: the
    entries [0 .. n-1] of [dst] become those of [src]. *)
Definition memcpy_entries (dst src n : Z) (m : Machine) : Machine :=
  set_pagemap
    (fun p i =>
       if (p =? dst) && (0 <=? i) && (i <? n)
       then pagemap m src i else pagemap m p i)
    m.

(** ELF structures (elf.h), as the loader reads them through its casts:
    [ehdr_addr] is the value of the pointer [ehdr], [phdrs] the array that
    [GetProgramHeader] points to. *)
Record Elf64_Phdr : Type := mkPhdr {
  p_type : Z;
  p_offset : Z;
  p_vaddr : Z;
  p_paddr : Z;
  p_filesz : Z;
  p_memsz : Z
}.

Record Elf64_Ehdr : Type := mkEhdr {
  ehdr_addr : Z;
  e_ident : string;
  e_type : Z;
  e_entry : Z;
  e_phnum : Z;
  phdrs : list Elf64_Phdr
}.

(** [fat::DirectoryEntry], with the address that identifies it. *)
Record DirectoryEntry : Type := mkEntry {
  entry_addr : Z;
  name0 : Z;
  attr : Z;
  first_cluster : Z;
  file_size : Z;
  formatted_name : string
}.

(** [AppLoadInfo] *)
Record AppLoadInfo : Type := mkAppLoad {
  vaddr_end : Z;
  entry : Z;
  pml4 : Z
}.

Definition AppLoadInfo_zero : AppLoadInfo := mkAppLoad 0 0 0.

Inductive FileDescriptor : Type :=
| TerminalFileDescriptor (task_id : Z)
| OtherFileDescriptor (id : Z).

(** The fields of [Task] that terminal.cpp reads or writes. *)
Record Task : Type := mkTask {
  context_cr3 : Z;
  Files : list FileDescriptor;
  FileMaps : list Z;
  DPagingBegin : Z;
  DPagingEnd : Z;
  FileMapEnd : Z
}.

(** [class Terminal].  [linebuf_] holds the bytes of the array that have
    been stored since [linebuf_index_] was last reset; the bytes behind them
    are stale and never read.  [printed_] is a ghost field: every byte handed
    to [Print(char)], in order.  Drawing on the window is not modelled. *)
Record Terminal : Type := mkTerminal {
  task_id_ : Z;
  show_window_ : bool;
  cursor_x : Z;
  cursor_y : Z;
  linebuf_ : string;
  linebuf_index_ : Z;
  cmd_history_ : list string;
  cmd_history_index_ : Z;
  printed_ : string
}.

(** The calls of collaborators, with what they returned. *)
Inductive Event : Type :=
| ENewPageMap (r : WithError Z)
| EFreePageMap (p : Z) (err : Error)
| ESetupPageMaps (addr num_4kpages : Z) (writable : bool) (err : Error)
| ECopyPageMaps (dest src part start : Z) (err : Error)
| ECleanPageMaps (addr : Z) (err : Error)
| ELoadFile (file : Z)
| EFindFile (path : option string)
| ECallApp (argc rip : Z) (ret : Z)
| ENewTask (data : option string).

Record World : Type := mkWorld {
  machine : Machine;
  task : Task;
  term : Terminal;
  g_app_loads : gmap Z AppLoadInfo;
  trace : list Event
}.

Definition set_machine (m : Machine) (w : World) : World :=
  mkWorld m (task w) (term w) (g_app_loads w) (trace w).
Definition set_task (t : Task) (w : World) : World :=
  mkWorld (machine w) t (term w) (g_app_loads w) (trace w).
Definition set_term (t : Terminal) (w : World) : World :=
  mkWorld (machine w) (task w) t (g_app_loads w) (trace w).
Definition set_app_loads (c : gmap Z AppLoadInfo) (w : World) : World :=
  mkWorld (machine w) (task w) (term w) c (trace w).
Definition log (e : Event) (w : World) : World :=
  mkWorld (machine w) (task w) (term w) (g_app_loads w) (trace w ++ [e]).

(** What a run of the application leaves behind when [CallApp] returns. *)
Record AppRun : Type := mkAppRun {
  run_machine : Machine;
  run_task : Task;
  run_output : string;
  run_ret : Z
}.

Record PciDevice : Type := mkPciDevice {
  bus : Z;
  device : Z;
  function : Z;
  header_type : Z;
  class_base : Z;
  class_sub : Z;
  class_interface : Z
}.

(** The constants of headers that are not part of terminal.cpp, and the
    functions it calls in other files. *)
Class Kernel : Type := {
  (* error.hpp: the names of the codes terminal.cpp does not mention *)
  Name_other : Z -> string;
  (* elf.h *)
  ET_EXEC : Z;
  PT_LOAD : Z;
  (* terminal.hpp *)
  kRows : Z;
  kColumns : Z;
  kLineMax : Z;
  (* keyboard.hpp *)
  kLControlBitMask : Z;
  kRControlBitMask : Z;
  (* memory_manager.hpp *)
  kBytesPerFrame : Z;
  Stat : Machine -> Z * Z;
  (* fat.hpp *)
  kDirectory : Z;
  kLongName : Z;
  root_cluster : Machine -> Z;
  FindFile : Machine -> option string -> option DirectoryEntry * bool;
  (* the cluster chain of a directory, cluster by cluster, and of a file *)
  directory_clusters : Machine -> Z -> list (list DirectoryEntry);
  file_clusters : Machine -> Z -> list string;
  (* std::vector file_buf, fat::LoadFile and the cast to Elf64_Ehdr *)
  LoadFile : Machine -> DirectoryEntry -> Machine * Elf64_Ehdr;
  (* paging.hpp *)
  NewPageMap : Machine -> Machine * WithError Z;
  FreePageMap : Machine -> Z -> Machine * Error;
  SetupPageMaps : Machine -> Z -> Z -> bool -> Machine * Error;
  CopyPageMaps : Machine -> Z -> Z -> Z -> Z -> Machine * Error;
  CleanPageMaps : Machine -> Z -> Machine * Error;
  ResetCR3 : Machine -> Machine;
  (* pci.hpp *)
  g_devices : Machine -> list PciDevice;
  ReadVendorId : Machine -> PciDevice -> Z;
  (* asmfunc.h *)
  CallApp : Machine -> Task -> Z -> Z -> Z -> Z -> Z -> AppRun
}.

(* ================================================================= *)
(** ** The loader (terminal.cpp:69-232) *)

Section Loader.
Context `{K : Kernel}.

(** Calls of the paging collaborator, each recorded in the trace. *)
Definition call_NewPageMap (w : World) : World * WithError Z :=
  let (m, r) := NewPageMap (machine w) in
  (log (ENewPageMap r) (set_machine m w), r).

Definition call_FreePageMap (p : Z) (w : World) : World * Error :=
  let (m, err) := FreePageMap (machine w) p in
  (log (EFreePageMap p err) (set_machine m w), err).

Definition call_SetupPageMaps (addr num_4kpages : Z) (writable : bool)
  (w : World) : World * Error :=
  let (m, err) := SetupPageMaps (machine w) addr num_4kpages writable in
  (log (ESetupPageMaps addr num_4kpages writable err) (set_machine m w), err).

Definition call_CopyPageMaps (dest src part start : Z) (w : World)
  : World * Error :=
  let (m, err) := CopyPageMaps (machine w) dest src part start in
  (log (ECopyPageMaps dest src part start err) (set_machine m w), err).

Definition call_CleanPageMaps (addr : Z) (w : World) : World * Error :=
  let (m, err) := CleanPageMaps (machine w) addr in
  (log (ECleanPageMaps addr err) (set_machine m w), err).

Definition call_LoadFile (file_entry : DirectoryEntry) (w : World)
  : World * Elf64_Ehdr :=
  let (m, ehdr) := LoadFile (machine w) file_entry in
  (log (ELoadFile (entry_addr file_entry)) (set_machine m w), ehdr).

(** [GetProgramHeader]: the [e_phnum] entries the loops run over. *)
Definition GetProgramHeader (ehdr : Elf64_Ehdr) : list Elf64_Phdr :=
  firstn (Z.to_nat (e_phnum ehdr)) (phdrs ehdr).

Fixpoint first_load (phdr : list Elf64_Phdr) : Z :=
  match phdr with
  | [] => 0
  | ph :: rest => if p_type ph =? PT_LOAD then p_vaddr ph else first_load rest
  end.

Definition GetFirstLoadAddress (ehdr : Elf64_Ehdr) : Z :=
  first_load (GetProgramHeader ehdr).

(** The body of the [for] loop of [CopyLoadSegments], from entry [i] on. *)
Fixpoint CopyLoadSegments_from (ehdr : Elf64_Ehdr) (phdr : list Elf64_Phdr)
  (last_addr : Z) (w : World) : World * WithError Z :=
  match phdr with
  | [] => (w, (last_addr, kSuccess))
  | ph :: rest =>
      if negb (p_type ph =? PT_LOAD)
      then CopyLoadSegments_from ehdr rest last_addr w
      else
        let dest_addr := p_vaddr ph in
        let last_addr := Z.max last_addr (wrap64 (p_paddr ph + p_memsz ph)) in
        let num_4kpages := wrap64 (p_memsz ph + 4095) / 4096 in
        let (w1, err) := call_SetupPageMaps dest_addr num_4kpages false w in
        if is_err err then (w1, (last_addr, err))
        else
          let src := wrap64 (ehdr_addr ehdr + p_offset ph) in
          let dst := p_vaddr ph in
          let m2 := memcpy dst src (p_filesz ph) (machine w1) in
          let m3 := memcpy (wrap64 (dst + p_filesz ph)) 0
                      (wrap64 (p_memsz ph - p_filesz ph)) m2 in
          CopyLoadSegments_from ehdr rest last_addr (set_machine m3 w1)
  end.

Definition CopyLoadSegments (ehdr : Elf64_Ehdr) (w : World)
  : World * WithError Z :=
  CopyLoadSegments_from ehdr (GetProgramHeader ehdr) 0 w.

Definition LoadElf (ehdr : Elf64_Ehdr) (w : World) : World * WithError Z :=
  if negb (e_type ehdr =? ET_EXEC) then (w, (0, kInvalidFormat))
  else
    let addr_first := GetFirstLoadAddress ehdr in
    if addr_first <? 0xffff800000000000 then (w, (0, kInvalidFormat))
    else CopyLoadSegments ehdr w.

Definition set_context_cr3 (v : Z) (t : Task) : Task :=
  mkTask v (Files t) (FileMaps t) (DPagingBegin t) (DPagingEnd t) (FileMapEnd t).

Definition SetupPML4 (w : World) : World * WithError Z :=
  let (w1, pml4) := call_NewPageMap w in
  if is_err (snd pml4) then (w1, pml4)
  else
    let current_pml4 := GetCR3 (machine w1) in
    let m2 := memcpy_entries (fst pml4) current_pml4 256 (machine w1) in
    let cr3 := fst pml4 in
    let m3 := SetCR3 cr3 m2 in
    (set_task (set_context_cr3 cr3 (task w1)) (set_machine m3 w1), pml4).

Definition FreePML4 (w : World) : World * Error :=
  let cr3 := context_cr3 (task w) in
  let w1 := set_task (set_context_cr3 0 (task w)) w in
  let w2 := set_machine (ResetCR3 (machine w1)) w1 in
  call_FreePageMap cr3 w2.

(** [std::map::insert]: an existing key keeps its value. *)
Definition map_insert (k : Z) (v : AppLoadInfo) (c : gmap Z AppLoadInfo)
  : gmap Z AppLoadInfo :=
  match c !! k with
  | Some _ => c
  | None => <[k := v]> c
  end.

Definition ELF_magic : string :=
  String (ascii_of_nat 127) "ELF".

Definition LoadApp (file_entry : DirectoryEntry) (w : World)
  : World * WithError AppLoadInfo :=
  let (w1, r) := SetupPML4 w in
  if is_err (snd r) then (w1, (AppLoadInfo_zero, snd r))
  else
    let temp_pml4 := fst r in
    match g_app_loads w1 !! entry_addr file_entry with
    | Some it =>
        let app_load := it in
        let (w2, err) := call_CopyPageMaps temp_pml4 (pml4 app_load) 4 256 w1 in
        (w2, (mkAppLoad (vaddr_end app_load) (entry app_load) temp_pml4, err))
    | None =>
        let (w2, elf_header) := call_LoadFile file_entry w1 in
        if negb (String.eqb (substring 0 4 (e_ident elf_header)) ELF_magic)
        then (w2, (AppLoadInfo_zero, kInvalidFile))
        else
          let (w3, r_load) := LoadElf elf_header w2 in
          let (last_addr, err_load) := r_load in
          if is_err err_load then (w3, (AppLoadInfo_zero, err_load))
          else
            let app_load := mkAppLoad last_addr (e_entry elf_header) temp_pml4 in
            let w4 := set_app_loads
                        (map_insert (entry_addr file_entry) app_load
                           (g_app_loads w3)) w3 in
            let (w5, r2) := SetupPML4 w4 in
            if is_err (snd r2) then (w5, (app_load, snd r2))
            else
              let app_load := mkAppLoad last_addr (e_entry elf_header) (fst r2) in
              let (w6, err) := call_CopyPageMaps (pml4 app_load) temp_pml4 4 256 w5 in
              (w6, (app_load, err))
    end.

End Loader.

(* ================================================================= *)
(** ** Formatting ([sprintf]) *)

Definition digit_char (d : Z) : ascii :=
  if d <? 10 then ascii_of_N (Z.to_N (48 + d)) else ascii_of_N (Z.to_N (87 + d)).

(** The digits of [n >= 0] in [base], most significant first. *)
Fixpoint digits (fuel : nat) (base n : Z) (acc : string) : string :=
  match fuel with
  | O => acc
  | S fuel' =>
      let acc' := String (digit_char (n mod base)) acc in
      if n / base =? 0 then acc' else digits fuel' base (n / base) acc'
  end.

(** [%d], [%lu], [%llu] *)
Definition fmt_d (n : Z) : string :=
  if n <? 0 then String "-" (digits 64 10 (- n) "") else digits 64 10 n "".

(** [%0<width>x] *)
Definition fmt_0x (width : nat) (n : Z) : string :=
  let d := digits 64 16 n "" in
  replicate_char (width - String.length d) "0" +++ d.

(** [sprintf] into [char s[64]]. *)
Definition sprintf64 (s : string) : Result string :=
  if strlen s + 1 <=? 64 then Ok s else Crash BufferOverflow.

Definition LF : ascii := ascii_of_nat 10.
Definition BS : ascii := ascii_of_nat 8.
Definition endl : string := String LF "".

(** [Error::Name()] *)
Definition Name `{K : Kernel} (e : Error) : string :=
  match e with
  | kSuccess => "kSuccess"
  | kFull => "kFull"
  | kInvalidFormat => "kInvalidFormat"
  | kInvalidFile => "kInvalidFile"
  | kOther c => Name_other c
  end.

(* ================================================================= *)
(** ** The terminal (terminal.cpp:237-617) *)

Definition set_cursor_x (x : Z) (t : Terminal) : Terminal :=
  mkTerminal (task_id_ t) (show_window_ t) x (cursor_y t) (linebuf_ t)
    (linebuf_index_ t) (cmd_history_ t) (cmd_history_index_ t) (printed_ t).
Definition set_cursor_y (y : Z) (t : Terminal) : Terminal :=
  mkTerminal (task_id_ t) (show_window_ t) (cursor_x t) y (linebuf_ t)
    (linebuf_index_ t) (cmd_history_ t) (cmd_history_index_ t) (printed_ t).
Definition set_linebuf (l : string) (t : Terminal) : Terminal :=
  mkTerminal (task_id_ t) (show_window_ t) (cursor_x t) (cursor_y t) l
    (linebuf_index_ t) (cmd_history_ t) (cmd_history_index_ t) (printed_ t).
Definition set_linebuf_index (i : Z) (t : Terminal) : Terminal :=
  mkTerminal (task_id_ t) (show_window_ t) (cursor_x t) (cursor_y t) (linebuf_ t)
    i (cmd_history_ t) (cmd_history_index_ t) (printed_ t).
Definition set_cmd_history (h : list string) (t : Terminal) : Terminal :=
  mkTerminal (task_id_ t) (show_window_ t) (cursor_x t) (cursor_y t) (linebuf_ t)
    (linebuf_index_ t) h (cmd_history_index_ t) (printed_ t).
Definition set_cmd_history_index (i : Z) (t : Terminal) : Terminal :=
  mkTerminal (task_id_ t) (show_window_ t) (cursor_x t) (cursor_y t) (linebuf_ t)
    (linebuf_index_ t) (cmd_history_ t) i (printed_ t).
Definition add_printed (c : ascii) (t : Terminal) : Terminal :=
  mkTerminal (task_id_ t) (show_window_ t) (cursor_x t) (cursor_y t) (linebuf_ t)
    (linebuf_index_ t) (cmd_history_ t) (cmd_history_index_ t)
    (printed_ t +++ String c "").

Definition set_Files (f : list FileDescriptor) (t : Task) : Task :=
  mkTask (context_cr3 t) f (FileMaps t) (DPagingBegin t) (DPagingEnd t) (FileMapEnd t).
Definition set_FileMaps (f : list Z) (t : Task) : Task :=
  mkTask (context_cr3 t) (Files t) f (DPagingBegin t) (DPagingEnd t) (FileMapEnd t).
Definition SetDPagingBegin (v : Z) (t : Task) : Task :=
  mkTask (context_cr3 t) (Files t) (FileMaps t) v (DPagingEnd t) (FileMapEnd t).
Definition SetDPagingEnd (v : Z) (t : Task) : Task :=
  mkTask (context_cr3 t) (Files t) (FileMaps t) (DPagingBegin t) v (FileMapEnd t).
Definition SetFileMapEnd (v : Z) (t : Task) : Task :=
  mkTask (context_cr3 t) (Files t) (FileMaps t) (DPagingBegin t) (DPagingEnd t) v.

Section TerminalCode.
Context `{K : Kernel}.

(** The lambda [newline] of [Print(char)]; [Scroll1] only draws. *)
Definition newline (t : Terminal) : Terminal :=
  let t1 := set_cursor_x 0 t in
  if cursor_y t1 <? kRows - 1 then set_cursor_y (cursor_y t1 + 1) t1 else t1.

(** [Terminal::Print(char c)] *)
Definition Print_char (c : ascii) (t : Terminal) : Terminal :=
  let t0 := add_printed c t in
  if Ascii.eqb c LF then newline t0
  else if cursor_x t0 =? kColumns - 1 then newline t0
       else set_cursor_x (cursor_x t0 + 1) t0.

(** [Terminal::Print(const char* s, std::optional<size_t> len)]: the bytes
    of [s], or with [len] the [len] bytes [s] stands for. *)
Fixpoint Print (s : string) (t : Terminal) : Terminal :=
  match s with
  | EmptyString => t
  | String c s' => Print s' (Print_char c t)
  end.

Definition term_Print (s : string) (w : World) : World :=
  set_term (Print s (term w)) w.

(** The bytes [MakeArgVector] stored, put where [argbuf] points. *)
Definition store_argbuf (argbuf_addr : Z) (st : ArgVector.State) (m : Machine)
  : Machine :=
  set_mem (fun a => match ArgVector.argbuf st !! wrap64 (a - argbuf_addr) with
                    | Some c => code c
                    | None => mem m a
                    end) m.

(** [Terminal::ExecuteFile] (terminal.cpp:462-536).  [SetupPageMaps] is
    called with two arguments there; its third, [writable], defaults to
    true. *)
Definition ExecuteFile (file_entry : DirectoryEntry) (command : string)
  (first_arg : option string) (w : World) : World * Error :=
  let (w1, r) := LoadApp file_entry w in
  let (app_load, err) := r in
  if is_err err then (w1, err)
  else
    let args_frame_addr := 0xfffffffffffff000 in
    let (w2, err) := call_SetupPageMaps args_frame_addr 1 true w1 in
    if is_err err then (w2, err)
    else
      let argv := args_frame_addr in
      let argv_len := 32 in
      let argbuf := wrap64 (args_frame_addr + 8 * argv_len) in
      let argbuf_len := 4096 - 8 * argv_len in
      let (args, err_argc) :=
        ArgVector.MakeArgVector command first_arg argv_len argbuf_len in
      let w3 := set_machine (store_argbuf argbuf args (machine w2)) w2 in
      if is_err err_argc then (w3, err_argc)
      else
        let stack_frame_addr := 0xffffffffffffe000 in
        let (w4, err) := call_SetupPageMaps stack_frame_addr 1 true w3 in
        if is_err err then (w4, err)
        else
          let fd := TerminalFileDescriptor (task_id_ (term w4)) in
          let t5 := set_Files (Files (task w4) ++ [fd; fd; fd]) (task w4) in
          let elf_next_page :=
            Z.land (wrap64 (vaddr_end app_load + 4096)) 0xfffffffffffff000 in
          let t6 := SetFileMapEnd 0xffffffffffffe000
                      (SetDPagingEnd elf_next_page
                         (SetDPagingBegin elf_next_page t5)) in
          let run := CallApp (machine w4) t6 (ArgVector.argc args) argv
                       (Z.lor (Z.shiftl 3 3) 3) (entry app_load)
                       (wrap64 (stack_frame_addr + 4096 - 8)) in
          let w7 := log (ECallApp (ArgVector.argc args) (entry app_load)
                           (run_ret run))
                      (term_Print (run_output run)
                         (set_task (run_task run)
                            (set_machine (run_machine run) w4))) in
          let w8 := set_task (set_FileMaps [] (set_Files [] (task w7))) w7 in
          let w9 := term_Print
                      ("app exited. ret = " +++ fmt_d (run_ret run) +++ endl)
                      w8 in
          let (w10, err) := call_CleanPageMaps 0xffff800000000000 w9 in
          if is_err err then (w10, err)
          else FreePML4 w10.

(** [strchr(&linebuf_[0], ' ')] and the store of a NUL over the space: the
    command, and [first_arg] (null when the line has no space). *)
Fixpoint split_command (line : string) : string * option string :=
  match line with
  | EmptyString => (EmptyString, None)
  | String c rest =>
      if Ascii.eqb c " " then (EmptyString, Some rest)
      else let (cmd, arg) := split_command rest in (String c cmd, arg)
  end.

(** The [for] loop of [ListAllEntries] over one cluster: the terminal, and
    whether the function returned from inside the loop. *)
Fixpoint ListAllEntries_cluster (dir : list DirectoryEntry) (t : Terminal)
  : Terminal * bool :=
  match dir with
  | [] => (t, false)
  | e :: rest =>
      if name0 e =? 0 then (t, true)
      else if name0 e =? 0xe5 then ListAllEntries_cluster rest t
      else if attr e =? kLongName then ListAllEntries_cluster rest t
      else ListAllEntries_cluster rest (Print endl (Print (formatted_name e) t))
  end.

Fixpoint ListAllEntries_chain (chain : list (list DirectoryEntry))
  (t : Terminal) : Terminal :=
  match chain with
  | [] => t
  | dir :: rest =>
      let (t1, returned) := ListAllEntries_cluster dir t in
      if returned then t1 else ListAllEntries_chain rest t1
  end.

(** [ListAllEntries(term, dir_cluster)] (terminal.cpp:160-183) *)
Definition ListAllEntries (dir_cluster : Z) (w : World) : World :=
  set_term
    (ListAllEntries_chain (directory_clusters (machine w) dir_cluster) (term w))
    w.

(** The [while] loop of the [cat] branch: each cluster of the file, as far
    as [remain_bytes] reaches. *)
Fixpoint cat_clusters (chain : list string) (remain_bytes : Z) (t : Terminal)
  : Terminal :=
  match chain with
  | [] => t
  | p :: rest =>
      let i := Z.min (strlen p) (Z.max 0 remain_bytes) in
      cat_clusters rest (remain_bytes - i)
        (Print (substring 0 (Z.to_nat i) p) t)
  end.

Definition call_FindFile (path : option string) (w : World)
  : World * (option DirectoryEntry * bool) :=
  (log (EFindFile path) w, FindFile (machine w) path).

(** The [for] loop of the [lspci] branch. *)
Fixpoint lspci_lines (m : Machine) (devs : list PciDevice) (w : World)
  : Result World :=
  match devs with
  | [] => Ok w
  | d :: rest =>
      let vendor_id := ReadVendorId m d in
      match sprintf64
              (fmt_0x 2 (bus d) +++ ":" +++ fmt_0x 2 (device d) +++ "."
               +++ fmt_d (function d) +++ " vend=" +++ fmt_0x 4 vendor_id
               +++ " head=" +++ fmt_0x 2 (header_type d)
               +++ " class=" +++ fmt_0x 2 (class_base d) +++ "."
               +++ fmt_0x 2 (class_sub d) +++ "."
               +++ fmt_0x 2 (class_interface d) +++ endl) with
      | Crash f => Crash f
      | Ok s => lspci_lines m rest (term_Print s w)
      end
  end.

(** [Terminal::ExecuteLine] (terminal.cpp:342-460).  A [Crash] is a read
    through the null [first_arg], or a [sprintf] past its buffer. *)
Definition ExecuteLine (w : World) : Result World :=
  let (command, first_arg) := split_command (linebuf_ (term w)) in
  let w := set_term (set_linebuf command (term w)) w in
  if String.eqb command "echo" then
    let w1 := match first_arg with
              | Some a => term_Print a w
              | None => w
              end in
    Ok (term_Print endl w1)
  else if String.eqb command "clear" then
    Ok (set_term (set_cursor_y 0 (term w)) w)
  else if String.eqb command "lspci" then
    lspci_lines (machine w) (g_devices (machine w)) w
  else if String.eqb command "ls" then
    match first_arg with
    | None => Crash NullDereference                      (* first_arg[0] *)
    | Some EmptyString => Ok (ListAllEntries (root_cluster (machine w)) w)
    | Some a =>
        let (w1, r) := call_FindFile first_arg w in
        let (dir, post_slash) := r in
        match dir with
        | None =>
            Ok (term_Print endl
                  (term_Print a (term_Print "No such file or directory: " w1)))
        | Some d =>
            if attr d =? kDirectory then Ok (ListAllEntries (first_cluster d) w1)
            else if post_slash
                 then Ok (term_Print (" is not a directory" +++ endl)
                            (term_Print (formatted_name d) w1))
                 else Ok (term_Print endl (term_Print (formatted_name d) w1))
        end
    end
  else if String.eqb command "cat" then
    let (w1, r) := call_FindFile first_arg w in
    let (file_entry, post_slash) := r in
    match file_entry with
    | None =>
        match first_arg with
        | None => Crash NullDereference                  (* "%s" of a null *)
        | Some a =>
            match sprintf64 ("no such file: " +++ a +++ endl) with
            | Crash f => Crash f
            | Ok s => Ok (term_Print s w1)
            end
        end
    | Some e =>
        if negb (attr e =? kDirectory) && post_slash
        then Ok (term_Print (" is not a directory" +++ endl)
                   (term_Print (formatted_name e) w1))
        else Ok (set_term
                   (cat_clusters (file_clusters (machine w1) (first_cluster e))
                      (file_size e) (term w1)) w1)
    end
  else if String.eqb command "noterm" then
    Ok (log (ENewTask first_arg) w)
  else if String.eqb command "memstat" then
    let (allocated_frames, total_frames) := Stat (machine w) in
    match sprintf64 ("Phys used : " +++ fmt_d allocated_frames +++ " frames ("
                     +++ fmt_d (wrap64 (allocated_frames * kBytesPerFrame)
                                / 1024 / 1024) +++ " MiB)" +++ endl) with
    | Crash f => Crash f
    | Ok s1 =>
        match sprintf64 ("Phys total : " +++ fmt_d total_frames +++ " frames ("
                         +++ fmt_d (wrap64 (total_frames * kBytesPerFrame)
                                    / 1024 / 1024) +++ " MiB)" +++ endl) with
        | Crash f => Crash f
        | Ok s2 => Ok (term_Print s2 (term_Print s1 w))
        end
    end
  else
    match command with
    | EmptyString => Ok w
    | String _ _ =>
        let (w1, r) := call_FindFile (Some command) w in
        let (file_entry, post_slash) := r in
        match file_entry with
        | None =>
            Ok (term_Print endl
                  (term_Print command (term_Print "no such command: " w1)))
        | Some e =>
            if negb (attr e =? kDirectory) && post_slash
            then Ok (term_Print (" is not a directory" +++ endl)
                       (term_Print (formatted_name e) w1))
            else
              let (w2, err) := ExecuteFile e command first_arg w1 in
              if is_err err
              then Ok (term_Print endl
                         (term_Print (Name err)
                            (term_Print "failed to exec file: " w2)))
              else Ok w2
        end
    end.

(** [Terminal::HistoryUpDown] (terminal.cpp:593-617).  The comparison with
    [cmd_history_.size()] is unsigned. *)
Definition HistoryUpDown (direction : Z) (t : Terminal) : Terminal :=
  let t1 :=
    if (direction =? -1) && (0 <=? cmd_history_index_ t)
    then set_cmd_history_index (cmd_history_index_ t - 1) t
    else if (direction =? 1)
            && (wrap64 (cmd_history_index_ t + 1)
                <? Z.of_nat (length (cmd_history_ t)))
         then set_cmd_history_index (cmd_history_index_ t + 1) t
         else t in
  let t2 := set_cursor_x 1 t1 in
  let history :=
    if 0 <=? cmd_history_index_ t2
    then nth (Z.to_nat (cmd_history_index_ t2)) (cmd_history_ t2) EmptyString
    else EmptyString in
  let t3 := set_linebuf_index (strlen history) (set_linebuf history t2) in
  set_cursor_x (linebuf_index_ t3 + 1) t3.

(** [Terminal::InputKey] (terminal.cpp:272-327) *)
Definition InputKey (modifier keycode : Z) (ascii : ascii) (w : World)
  : Result World :=
  let t := term w in
  if Ascii.eqb ascii LF then
    (* linebuf_[linebuf_index_] = 0 *)
    let t1 := set_linebuf
                (substring 0 (Z.to_nat (linebuf_index_ t)) (linebuf_ t)) t in
    let t2 := if 0 <? linebuf_index_ t1
              then set_cmd_history
                     (linebuf_ t1 :: removelast (cmd_history_ t1)) t1
              else t1 in
    let t3 := set_cursor_x 0
                (set_cmd_history_index (-1) (set_linebuf_index 0 t2)) in
    let t4 := if cursor_y t3 <? kRows - 1
              then set_cursor_y (cursor_y t3 + 1) t3
              else t3 in
    match ExecuteLine (set_term t4 w) with
    | Crash f => Crash f
    | Ok w1 => Ok (term_Print ">" w1)
    end
  else if Ascii.eqb ascii BS then
    if 0 <? cursor_x t then
      let t1 := set_cursor_x (cursor_x t - 1) t in
      Ok (set_term (if 0 <? linebuf_index_ t1
                    then set_linebuf_index (linebuf_index_ t1 - 1) t1
                    else t1) w)
    else Ok w
  else if negb (Ascii.eqb ascii NUL) then
    if (cursor_x t <? kColumns - 1) && (linebuf_index_ t <? kLineMax - 1) then
      (* linebuf_[linebuf_index_] = ascii *)
      let t1 := set_linebuf
                  (substring 0 (Z.to_nat (linebuf_index_ t)) (linebuf_ t)
                   +++ String ascii "") t in
      Ok (set_term (set_cursor_x (cursor_x t1 + 1)
                      (set_linebuf_index (linebuf_index_ t1 + 1) t1)) w)
    else Ok w
  else if keycode =? 0x51 then Ok (set_term (HistoryUpDown (-1) t) w)
  else if keycode =? 0x52 then Ok (set_term (HistoryUpDown 1 t) w)
  else Ok w.

(** The keys [TaskTerminal] feeds a terminal for a command line
    (terminal.cpp:635-641): each byte, then the newline. *)
Fixpoint type_keys (keys : string) (w : World) : Result World :=
  match keys with
  | EmptyString => Ok w
  | String c rest =>
      match InputKey 0 0 c w with
      | Crash f => Crash f
      | Ok w1 => type_keys rest w1
      end
  end.

Definition feed_command_line (command_line : string) (w : World)
  : Result World :=
  match type_keys command_line w with
  | Crash f => Crash f
  | Ok w1 => InputKey 0 0 LF w1
  end.

(** [Terminal::Terminal(task_id, show_window)] (terminal.cpp:237-254), the
    members starting from their initialisers: cursor at the origin, an empty
    line, [cmd_history_index_] at -1. *)
Definition Terminal_new (task_id : Z) (show_window : bool) : Terminal :=
  let t := mkTerminal task_id show_window 0 0 "" 0 [] (-1) "" in
  let t1 := if show_window then Print ">" t else t in
  set_cmd_history (repeat EmptyString 8) t1.

End TerminalCode.

(* ================================================================= *)
(** ** TerminalFileDescriptor (terminal.cpp:697-744) *)

Inductive Message : Type :=
| kKeyPush (modifier keycode : Z) (ascii : ascii) (press : bool)
| kOtherMessage (type : Z).

(** How a call of [Read] ends: it returns a count, with the byte it stored
    in [bufc[0]] if any, or it sleeps on an empty queue for good. *)
Inductive ReadOutcome : Type :=
| Returned (n : Z) (bufc0 : option ascii) (rest : list Message) (t : Terminal)
| Asleep (t : Terminal).

Section FileDescriptor.
Context `{K : Kernel}.

(** The two bytes of [char s[3] = "^ "] after [s[1] = toupper(ascii)], read
    as a C string. *)
Definition caret (c : ascii) : string :=
  if Ascii.eqb (toupper c) NUL then "^" else String "^" (String (toupper c) "").

(** [TerminalFileDescriptor::Read(buf, len)].  [msgs] are the messages the
    task receives from now on, in order; [ReceiveMessage] takes the first. *)
Fixpoint Read (len : Z) (msgs : list Message) (t : Terminal) : ReadOutcome :=
  match msgs with
  | [] => Asleep t
  | kOtherMessage _ :: rest => Read len rest t
  | kKeyPush modifier keycode ascii press :: rest =>
      if negb press then Read len rest t
      else if negb (Z.land modifier (Z.lor kLControlBitMask kRControlBitMask) =? 0)
      then
        let t1 := Print (caret ascii) t in
        if keycode =? 7 then Returned 0 None rest t1
        else Read len rest t1
      else Returned 1 (Some ascii) rest (Print (String ascii "") t)
  end.

(** [TerminalFileDescriptor::Write(buf, len)]: [buf] holds [len] bytes. *)
Definition Write (buf : string) (len : Z) (t : Terminal) : Terminal * Z :=
  (Print (substring 0 (Z.to_nat len) buf) t, len).

(** [TerminalFileDescriptor::Load(buf, len, offset)] *)
Definition Load (len offset : Z) : Z := 0.

End FileDescriptor.

(* ================================================================= *)
(** ** The vocabulary of the statements *)

(** *** Events *)

Definition is_LoadFile (e : Event) : bool :=
  match e with ELoadFile _ => true | _ => false end.

Definition is_CallApp (e : Event) : bool :=
  match e with ECallApp _ _ _ => true | _ => false end.

Definition is_FreePageMap (e : Event) : bool :=
  match e with EFreePageMap _ _ => true | _ => false end.

(** [CleanPageMaps] and [FreePageMap]: the teardown after a normal exit. *)
Definition is_teardown (e : Event) : bool :=
  match e with
  | ECleanPageMaps _ _ | EFreePageMap _ _ => true
  | _ => false
  end.

(** A call made on the way to [CallApp]: neither [CallApp] nor teardown. *)
Definition before_transfer (e : Event) : bool :=
  negb (is_CallApp e) && negb (is_teardown e).

(** *** Worlds *)

(** The cache only grows: no entry is dropped or changed. *)
Definition cache_kept (w w' : World) : Prop :=
  forall k v, g_app_loads w !! k = Some v -> g_app_loads w' !! k = Some v.

(** What the loading steps leave alone: the terminal and the cache; and
    what they add to the trace. *)
Definition loads_only (w w' : World) : Prop :=
  term w' = term w
  /\ g_app_loads w' = g_app_loads w
  /\ exists evs, trace w' = trace w ++ evs
       /\ forallb before_transfer evs = true.

(** What a whole [LoadApp] leaves alone: it may add to the cache. *)
Definition launch_frame (w w' : World) : Prop :=
  term w' = term w
  /\ cache_kept w w'
  /\ exists evs, trace w' = trace w ++ evs
       /\ forallb before_transfer evs = true.

(** The part of the terminal that the line editor owns. *)
Definition same_editor (t t' : Terminal) : Prop :=
  cmd_history_ t' = cmd_history_ t
  /\ cmd_history_index_ t' = cmd_history_index_ t
  /\ linebuf_ t' = linebuf_ t
  /\ linebuf_index_ t' = linebuf_index_ t.

(** The history and the cache as a command leaves them. *)
Definition same_history (w w' : World) : Prop :=
  cmd_history_ (term w') = cmd_history_ (term w)
  /\ cmd_history_index_ (term w') = cmd_history_index_ (term w)
  /\ cache_kept w w'.

(** The line [c] has been typed in full and is not empty. *)
Definition line_typed (c : string) (w : World) : Prop :=
  linebuf_ (term w) = c /\ linebuf_index_ (term w) = strlen c /\ 0 < strlen c.

(** The world with [line] in the line buffer. *)
Definition with_line (line : string) (w : World) : World :=
  set_term (set_linebuf_index (strlen line) (set_linebuf line (term w))) w.

(** [n] presses of the up arrow. *)
Definition presses_up (n : nat) (t : Terminal) : Terminal :=
  Nat.iter n (HistoryUpDown 1) t.

(** The line [ExecuteFile] prints when the application has returned. *)
Definition exit_message (ret : Z) : string :=
  "app exited. ret = " +++ fmt_d ret +++ endl.

(** *** Page maps *)

(** A step of the paging collaborator that leaves CR3 and the entries
    0 to 255 of every page map as they are. *)
Definition lower_half_kept (m m' : Machine) : Prop :=
  cr3 m' = cr3 m
  /\ forall q i, 0 <= i < 256 -> pagemap m' q i = pagemap m q i.

(** An address of the upper half of the 64-bit address space, where
    [LoadElf] wants the first loadable segment. *)
Definition upper_half (addr : Z) : Prop :=
  0xffff800000000000 <= addr < 2 ^ 64.

(** A kernel whose paging calls write the entries of the addresses they are
    given and no others: [SetupPageMaps] on an address of the upper half,
    [CopyPageMaps] from entry 256 on and [fat::LoadFile] keep the lower half
    of every page map, and [NewPageMap] keeps CR3 and the lower half of the
    active page map.  Nothing is asked of [SetupPageMaps] on an address of
    the lower half. *)
Definition paging_keeps_lower_half `{K : Kernel} : Prop :=
  (forall m a n b, upper_half a ->
                   lower_half_kept m (fst (SetupPageMaps m a n b)))
  /\ (forall m d s, lower_half_kept m (fst (CopyPageMaps m d s 4 256)))
  /\ (forall m f, lower_half_kept m (fst (LoadFile m f)))
  /\ (forall m, cr3 (fst (NewPageMap m)) = cr3 m
                /\ forall i, 0 <= i < 256 ->
                     pagemap (fst (NewPageMap m)) (cr3 m) i
                     = pagemap m (cr3 m) i).

(** *** Messages *)

(** A message that [Read] passes over: not a key push, or a key release. *)
Definition passed_over (m : Message) : bool :=
  match m with
  | kKeyPush _ _ _ press => negb press
  | kOtherMessage _ => true
  end.

(** A control key is held: the test of [Read] on the modifier. *)
Definition control_held `{K : Kernel} (modifier : Z) : bool :=
  negb (Z.land modifier (Z.lor kLControlBitMask kRControlBitMask) =? 0).

(** *** The argument vector *)

Module ArgSpec.
Import ArgVector.

(** The strings of [l] handed to [push_to_argv] one after another, up to the
    first one that is refused. *)
Fixpoint push_all (argv_len argbuf_len : Z) (st : State) (l : list string)
  : State * Error :=
  match l with
  | [] => (st, kSuccess)
  | s :: l' =>
      let (st', err) := push_to_argv argv_len argbuf_len st s in
      if is_err err then (st', err) else push_all argv_len argbuf_len st' l'
  end.

(** Where string [i] of [l] starts when the strings are packed one after
    another, each followed by its NUL. *)
Definition offset_of (l : list string) (i : nat) : Z :=
  packed_size (firstn i l).

(** The C string [s] can be read in [buf] from [at_] on: its bytes, then the
    NUL. *)
Fixpoint cstring_at (buf : gmap Z ascii) (at_ : Z) (s : string) : bool :=
  match s with
  | EmptyString =>
      match buf !! at_ with Some c => Ascii.eqb c NUL | None => false end
  | String c s' =>
      match buf !! at_ with Some c' => Ascii.eqb c' c | None => false end
      && cstring_at buf (at_ + 1) s'
  end.

(** No byte of [s] is a space for [isspace]. *)
Fixpoint no_space (s : string) : bool :=
  match s with
  | EmptyString => true
  | String c s' => negb (isspace c) && no_space s'
  end.

(** [s] without the bytes that are spaces for [isspace]. *)
Fixpoint remove_spaces (s : string) : string :=
  match s with
  | EmptyString => EmptyString
  | String c s' => if isspace c then remove_spaces s' else String c (remove_spaces s')
  end.

(** The strings of [l] one after another. *)
Definition join (l : list string) : string :=
  fold_right String.append EmptyString l.

(** The words of [p]: its longest runs of bytes that are no spaces, from
    left to right.  A byte that is no space starts a word of its own when
    the line ends behind it or a space follows, and otherwise goes in front
    of the first word of what follows. *)
Fixpoint words (p : string) : list string :=
  match p with
  | EmptyString => []
  | String c q =>
      if isspace c then words q
      else match q with
           | EmptyString => [String c EmptyString]
           | String d _ =>
               if isspace d then String c EmptyString :: words q
               else match words q with
                    | first :: others => String c first :: others
                    | [] => [String c EmptyString]
                    end
           end
  end.

(** The state after the strings [done] have been pushed: the counters, the
    pointers, the strings, and nothing else stored. *)
Definition laid_out (st : State) (done : list string) : Prop :=
  argc st = Z.of_nat (length done)
  /\ argbuf_index st = packed_size done
  /\ (forall i s, nth_error done i = Some s ->
        argv st !! Z.of_nat i = Some (offset_of done i)
        /\ cstring_at (argbuf st) (offset_of done i) s = true)
  /\ (forall i, is_Some (argv st !! i) <-> 0 <= i < Z.of_nat (length done))
  /\ (forall k, is_Some (argbuf st !! k) <-> 0 <= k < packed_size done).

End ArgSpec.

(** *** The loadable segments *)

(** The segments of [phdr] that the loader copies. *)
Definition load_segments `{K : Kernel} (phdr : list Elf64_Phdr)
  : list Elf64_Phdr :=
  List.filter (fun ph => p_type ph =? PT_LOAD) phdr.

(** The call of [SetupPageMaps] that [CopyLoadSegments] makes for the
    segment [ph], with the error it returned. *)
Definition mapping_call (ph : Elf64_Phdr) (err : Error) : Event :=
  ESetupPageMaps (p_vaddr ph) (wrap64 (p_memsz ph + 4095) / 4096) false err.

(** The end of the segment [ph] as [CopyLoadSegments] computes it. *)
Definition segment_end (ph : Elf64_Phdr) : Z :=
  wrap64 (p_paddr ph + p_memsz ph).

(** Every loadable segment of the image is placed in the upper half.
    [LoadElf] tests this of the first one only. *)
Definition segments_in_upper_half `{K : Kernel} (ehdr : Elf64_Ehdr) : Prop :=
  Forall (fun ph => upper_half (p_vaddr ph))
    (load_segments (GetProgramHeader ehdr)).

(** *** The launch *)

(** The task as [ExecuteFile] hands it to the application: three terminal
    descriptors pushed behind the descriptors it has, and the ranges of
    demand paging and of mapped files set from the end of the image. *)
Definition launch_task (vaddr_end task_id : Z) (t : Task) : Task :=
  let fd := TerminalFileDescriptor task_id in
  let elf_next_page := Z.land (wrap64 (vaddr_end + 4096)) 0xfffffffffffff000 in
  SetFileMapEnd 0xffffffffffffe000
    (SetDPagingEnd elf_next_page
       (SetDPagingBegin elf_next_page
          (set_Files (Files t ++ [fd; fd; fd]) t))).

(** The page map that the task's context names after the calls [evs], [d]
    being the one it named before: the page map that the last successful
    [NewPageMap] returned. *)
Fixpoint last_page_map (evs : list Event) (d : Z) : Z :=
  match evs with
  | [] => d
  | ENewPageMap (p, e) :: rest =>
      last_page_map rest (if is_err e then d else p)
  | _ :: rest => last_page_map rest d
  end.

(** The step at which a launch stopped before the application was called,
    read off the last call it made.  A paging call that failed: its error is
    the one returned.  The file just read: it is refused with [kInvalidFile]
    or [kInvalidFormat].  The argument page just mapped: [MakeArgVector] has
    answered [kFull]. *)
Definition failing_step (command : string) (first_arg : option string)
  (evs : list Event) (err : Error) : Prop :=
  match last evs with
  | Some (ENewPageMap (_, e)) => is_err e = true /\ err = e
  | Some (ECopyPageMaps _ _ _ _ e) => is_err e = true /\ err = e
  | Some (ESetupPageMaps addr _ _ e) =>
      if is_err e then err = e
      else addr = 0xfffffffffffff000 /\ err = kFull
           /\ snd (ArgVector.MakeArgVector command first_arg 32 (4096 - 8 * 32))
              = kFull
  | Some (ELoadFile _) => err = kInvalidFile \/ err = kInvalidFormat
  | _ => False
  end.

(** The kernel's [CallApp] returns with the page map of the task's context
    as it was when the application was called. *)
Definition app_keeps_context `{K : Kernel} : Prop :=
  forall m t argc argv ss rip rsp,
    context_cr3 (run_task (CallApp m t argc argv ss rip rsp)) = context_cr3 t.

(** *** The screen and the line editor *)

(** The cursor is on a cell of the [kColumns] by [kRows] grid. *)
Definition cursor_in_grid `{K : Kernel} (t : Terminal) : Prop :=
  0 <= cursor_x t < kColumns /\ 0 <= cursor_y t < kRows.

(** No byte of [s] is the newline. *)
Fixpoint no_newline (s : string) : bool :=
  match s with
  | EmptyString => true
  | String c s' => negb (Ascii.eqb c LF) && no_newline s'
  end.

(** A key that [InputKey] takes as a character of the line: not the
    newline, not the backspace, not 0. *)
Definition plain_key (c : ascii) : bool :=
  negb (Ascii.eqb c LF) && negb (Ascii.eqb c BS) && negb (Ascii.eqb c NUL).

Fixpoint plain (s : string) : bool :=
  match s with
  | EmptyString => true
  | String c s' => plain_key c && plain s'
  end.

(** The line typed so far: the bytes of [linebuf_] below [linebuf_index_],
    which Enter takes. *)
Definition typed_line (t : Terminal) : string :=
  substring 0 (Z.to_nat (linebuf_index_ t)) (linebuf_ t).

(** The number of further characters the line can take: the cursor stops
    before the last column, the index before the last byte of [linebuf_]. *)
Definition room `{K : Kernel} (t : Terminal) : Z :=
  Z.max 0 (Z.min (kColumns - 1 - cursor_x t) (kLineMax - 1 - linebuf_index_ t)).

(** The stores of the line editor stay inside their arrays: the index is a
    position of [linebuf_] that leaves room for the NUL, every entry of the
    history fits [linebuf_] with its NUL, and the history has its 8 slots.
    The index is also within the bytes that [linebuf_] holds here. *)
Definition editor_in_bounds `{K : Kernel} (t : Terminal) : Prop :=
  0 <= linebuf_index_ t <= kLineMax - 1
  /\ linebuf_index_ t <= strlen (linebuf_ t)
  /\ Forall (fun h => strlen h <= kLineMax - 1) (cmd_history_ t)
  /\ length (cmd_history_ t) = 8%nat.

(** *** Files and directories *)

(** The bytes of a cluster chain, one cluster after another. *)
Definition file_bytes (chain : list string) : string :=
  fold_right String.append EmptyString chain.

(** The entries of a directory that [ListAllEntries] shows: those before
    the first entry whose name begins with 0, without the deleted ones
    (0xe5) and the long-name ones. *)
Fixpoint live_entries `{K : Kernel} (dir : list DirectoryEntry)
  : list DirectoryEntry :=
  match dir with
  | [] => []
  | e :: rest =>
      if name0 e =? 0 then []
      else if (name0 e =? 0xe5) || (attr e =? kLongName)
           then live_entries rest
           else e :: live_entries rest
  end.

(** One line for each entry: its formatted name and a newline. *)
Definition listing (l : list DirectoryEntry) : string :=
  fold_right (fun e s => formatted_name e +++ endl +++ s) EmptyString l.

(** A line of [memstat]: the label, the count of frames, and the same in
    MiB as the code computes it. *)
Definition memstat_line `{K : Kernel} (label : string) (frames : Z) : string :=
  label +++ fmt_d frames +++ " frames ("
  +++ fmt_d (wrap64 (frames * kBytesPerFrame) / 1024 / 1024)
  +++ " MiB)" +++ endl.

(** *** The commands *)

(** The commands that [ExecuteLine] runs itself. *)
Definition builtin (command : string) : bool :=
  existsb (String.eqb command)
    ["echo"; "clear"; "lspci"; "ls"; "cat"; "noterm"; "memstat"].

(** A step of a launch: a call of the paging functions, of [fat::LoadFile]
    or of [CallApp]. *)
Definition is_launch_step (e : Event) : bool :=
  match e with
  | ENewPageMap _ | EFreePageMap _ _ | ESetupPageMaps _ _ _ _
  | ECopyPageMaps _ _ _ _ _ | ECleanPageMaps _ _ | ELoadFile _
  | ECallApp _ _ _ => true
  | EFindFile _ | ENewTask _ => false
  end.

(** *** Simplification of the record projections *)

Ltac world_simpl :=
  cbn [machine task term g_app_loads trace set_machine set_task set_term
       set_app_loads log term_Print
       context_cr3 Files FileMaps DPagingBegin DPagingEnd FileMapEnd
       set_context_cr3 set_Files set_FileMaps SetDPagingBegin SetDPagingEnd
       SetFileMapEnd] in *.

Ltac term_simpl :=
  cbn [cmd_history_ cmd_history_index_ linebuf_ linebuf_index_ cursor_x
       cursor_y printed_ task_id_ show_window_ set_cursor_x set_cursor_y
       set_linebuf set_linebuf_index set_cmd_history set_cmd_history_index
       add_printed] in *.

(* ================================================================= *)
(** ** A small kernel to run the code on *)

Module Demo.

Definition pml4_index (addr : Z) : Z := (addr / 2 ^ 39) mod 512.

(** One loadable segment of four bytes in memory, two of them in the file. *)
Definition app_phdr : Elf64_Phdr :=
  mkPhdr 1 0x1000 0xffff800000000000 0xffff800000000000 2 4.

Definition app_ehdr : Elf64_Ehdr :=
  mkEhdr 0x200000 (String (ascii_of_nat 127) "ELF") 2 0xffff800000000120 1 [app_phdr].

Definition app_entry : DirectoryEntry := mkEntry 0x7000 65 0x20 3 0x1004 "APP".

(** The next page map the allocator hands out; never the active one. *)
Definition fresh_page_map (m : Machine) : Z :=
  let p := 0x10000 + 0x1000 * aux m 0 in
  if p =? cr3 m then p + 0x1000 else p.

(** Page maps are handed out at 0x10000, 0x11000, ...; [aux 0] counts them.
    [SetupPageMaps] marks the top-level entry of the address it is given in
    the active page map.  [setup_err], [clean_err] and [ret] say what
    [SetupPageMaps] answers for an address, what [CleanPageMaps] answers,
    and what the application returns. *)
Definition kernel (setup_err : Z -> Error) (clean_err : Error) (ret : Z)
  : Kernel := {|
  Name_other := fun _ => "kUnknown";
  ET_EXEC := 2;
  PT_LOAD := 1;
  kRows := 15;
  kColumns := 60;
  kLineMax := 128;
  kLControlBitMask := 1;
  kRControlBitMask := 16;
  kBytesPerFrame := 4096;
  Stat := fun m => (aux m 0, 1024);
  kDirectory := 0x10;
  kLongName := 0x0f;
  root_cluster := fun _ => 2;
  FindFile := fun _ path =>
    match path with
    | Some "app" => (Some app_entry, false)
    | _ => (None, false)
    end;
  directory_clusters := fun _ _ => [[app_entry]];
  file_clusters := fun _ _ => [];
  LoadFile := fun m _ => (m, app_ehdr);
  NewPageMap := fun m =>
    let p := fresh_page_map m in
    (mkMachine (mem m)
       (fun q i => if q =? p then 0 else pagemap m q i)
       (cr3 m)
       (fun k => if k =? 0 then aux m 0 + 1 else aux m k),
     (p, kSuccess));
  FreePageMap := fun m _ => (m, kSuccess);
  SetupPageMaps := fun m addr _ _ =>
    match setup_err addr with
    | kSuccess =>
        (set_pagemap
           (fun q i => if (q =? cr3 m) && (i =? pml4_index addr)
                       then addr + 3 else pagemap m q i) m,
         kSuccess)
    | e => (m, e)
    end;
  CopyPageMaps := fun m dest src _ start =>
    (set_pagemap
       (fun q i => if (q =? dest) && (start <=? i) && (i <? 512)
                   then pagemap m src i else pagemap m q i) m,
     kSuccess);
  CleanPageMaps := fun m addr =>
    match clean_err with
    | kSuccess =>
        (set_pagemap
           (fun q i => if (q =? cr3 m) && (pml4_index addr <=? i) && (i <? 512)
                       then 0 else pagemap m q i) m,
         kSuccess)
    | e => (m, e)
    end;
  ResetCR3 := fun m => SetCR3 0x1000 m;
  g_devices := fun _ => [mkPciDevice 0 1 0 0 12 3 48];
  ReadVendorId := fun _ _ => 0x8086;
  CallApp := fun m t _ _ _ _ _ => mkAppRun m t "hi" ret
|}.

Definition all_ok : Z -> Error := fun _ => kSuccess.

(** Memory holds 0xAA, 0xBB at addresses 0 and 1 and the two file bytes of
    the segment at [ehdr + p_offset]; the kernel's page map lies at 0x1000,
    with its lower half mapped and its upper half empty. *)
Definition machine0 : Machine :=
  mkMachine
    (fun a => if a =? 0 then 0xAA else if a =? 1 then 0xBB
              else if a =? 0x201000 then 0x11
              else if a =? 0x201001 then 0x22 else 0)
    (fun q i => if (q =? 0x1000) && (i <? 256) then 0x2003 + 0x1000 * i else 0)
    0x1000
    (fun _ => 0).

Definition task0 : Task := mkTask 0 [] [] 0 0 0.

Definition world0 `{K : Kernel} : World :=
  mkWorld machine0 task0 (Terminal_new 1 true) ∅ [].

(** The kernel in which every collaborator succeeds and the application
    returns 5. *)
Definition K0 : Kernel := kernel all_ok kSuccess 5.

(** The kernel in which mapping the stack page fails. *)
Definition K_stack : Kernel :=
  kernel (fun addr => if addr =? 0xffffffffffffe000 then kOther 7 else kSuccess)
    kSuccess 5.

(** The kernel in which [CleanPageMaps] fails. *)
Definition K_clean : Kernel := kernel all_ok (kOther 9) 5.

Definition run_or (d : World) (r : Result World) : World :=
  match r with
  | Ok w => w
  | Crash _ => d
  end.

Definition is_Ok (r : Result World) : bool :=
  match r with Ok _ => true | Crash _ => false end.

(** An image that is a shared object, and one linked for the lower half. *)
Definition shared_object_ehdr : Elf64_Ehdr :=
  mkEhdr 0x200000 (String (ascii_of_nat 127) "ELF") 3 0xffff800000000120 1 [app_phdr].

Definition low_ehdr : Elf64_Ehdr :=
  mkEhdr 0x200000 (String (ascii_of_nat 127) "ELF") 2 0x400120 1
    [mkPhdr 1 0x1000 0x400000 0x400000 2 4].

(** The world after a whole first launch of the application. *)
Definition after_first_launch : World :=
  fst (@ExecuteFile K0 app_entry "app" None (@world0 K0)).

(** Three commands typed and entered on a fresh terminal, as [TaskTerminal]
    feeds a command line. *)
Definition typed1 : World :=
  run_or (@world0 K0) (@type_keys K0 "echo a" (@world0 K0)).
Definition entered1 : World := run_or typed1 (@InputKey K0 0 0 LF typed1).
Definition typed2 : World := run_or entered1 (@type_keys K0 "echo b" entered1).
Definition entered2 : World := run_or typed2 (@InputKey K0 0 0 LF typed2).
Definition typed3 : World := run_or entered2 (@type_keys K0 "echo c" entered2).
Definition entered3 : World := run_or typed3 (@InputKey K0 0 0 LF typed3).

(** One press of the up arrow at the keyboard. *)
Definition press_up (w : World) : World :=
  run_or w (@InputKey K0 0 0x52 NUL w).

(** A kernel like [K], with another file system. *)
Definition with_files (K : Kernel)
  (find : Machine -> option string -> option DirectoryEntry * bool)
  (dirs : Machine -> Z -> list (list DirectoryEntry))
  (files : Machine -> Z -> list string)
  (load : Machine -> DirectoryEntry -> Machine * Elf64_Ehdr) : Kernel := {|
  Name_other := @Name_other K;
  ET_EXEC := @ET_EXEC K;
  PT_LOAD := @PT_LOAD K;
  kRows := @kRows K;
  kColumns := @kColumns K;
  kLineMax := @kLineMax K;
  kLControlBitMask := @kLControlBitMask K;
  kRControlBitMask := @kRControlBitMask K;
  kBytesPerFrame := @kBytesPerFrame K;
  Stat := @Stat K;
  kDirectory := @kDirectory K;
  kLongName := @kLongName K;
  root_cluster := @root_cluster K;
  FindFile := find;
  directory_clusters := dirs;
  file_clusters := files;
  LoadFile := load;
  NewPageMap := @NewPageMap K;
  FreePageMap := @FreePageMap K;
  SetupPageMaps := @SetupPageMaps K;
  CopyPageMaps := @CopyPageMaps K;
  CleanPageMaps := @CleanPageMaps K;
  ResetCR3 := @ResetCR3 K;
  g_devices := @g_devices K;
  ReadVendorId := @ReadVendorId K;
  CallApp := @CallApp K
|}.

(** A kernel like [K], with another allocator of page maps and another
    size of the terminal. *)
Definition with_allocator_and_screen (K : Kernel)
  (new : Machine -> Machine * WithError Z) (columns line_max : Z) : Kernel := {|
  Name_other := @Name_other K;
  ET_EXEC := @ET_EXEC K;
  PT_LOAD := @PT_LOAD K;
  kRows := @kRows K;
  kColumns := columns;
  kLineMax := line_max;
  kLControlBitMask := @kLControlBitMask K;
  kRControlBitMask := @kRControlBitMask K;
  kBytesPerFrame := @kBytesPerFrame K;
  Stat := @Stat K;
  kDirectory := @kDirectory K;
  kLongName := @kLongName K;
  root_cluster := @root_cluster K;
  FindFile := @FindFile K;
  directory_clusters := @directory_clusters K;
  file_clusters := @file_clusters K;
  LoadFile := @LoadFile K;
  NewPageMap := new;
  FreePageMap := @FreePageMap K;
  SetupPageMaps := @SetupPageMaps K;
  CopyPageMaps := @CopyPageMaps K;
  CleanPageMaps := @CleanPageMaps K;
  ResetCR3 := @ResetCR3 K;
  g_devices := @g_devices K;
  ReadVendorId := @ReadVendorId K;
  CallApp := @CallApp K
|}.

(** The kernel that has no page map left to hand out. *)
Definition K_no_page_map : Kernel :=
  with_allocator_and_screen K0 (fun m => (m, (0, kOther 1))) 60 128.


(** A text file of 7 bytes on three clusters of 4 bytes, a directory, a
    deleted entry and the entry that ends a directory. *)
Definition text_ehdr : Elf64_Ehdr := mkEhdr 0x200000 "text" 0 0 0 [].
Definition note_entry : DirectoryEntry := mkEntry 0x7020 78 0x20 5 7 "NOTE".
Definition docs_entry : DirectoryEntry := mkEntry 0x7040 68 0x10 9 0 "DOCS".
Definition deleted_entry : DirectoryEntry := mkEntry 0x7060 0xe5 0x20 0 0 "GONE".
Definition end_entry : DirectoryEntry := mkEntry 0x7080 0 0 0 0 "".

Definition K_disk : Kernel :=
  with_files K0
    (fun _ path =>
       match path with
       | Some "app" => (Some app_entry, false)
       | Some "note" => (Some note_entry, false)
       | Some "docs" => (Some docs_entry, false)
       | _ => (None, false)
       end)
    (fun _ c =>
       if c =? 9 then [[note_entry; deleted_entry]; [app_entry; end_entry];
                       [docs_entry]]
       else [[app_entry; note_entry; docs_entry; end_entry]])
    (fun _ c => if c =? 5 then ["hell"; "o wo"; "rld!"] else [])
    (fun m f => if entry_addr f =? 0x7020 then (m, text_ehdr) else (m, app_ehdr)).

(** The same disk, on which the application can also be found under the
    name of a built-in command. *)
Definition K_cat_file : Kernel :=
  with_files K_disk
    (fun m path =>
       match path with
       | Some "cat" => (Some app_entry, false)
       | _ => @FindFile K_disk m path
       end)
    (@directory_clusters K_disk) (@file_clusters K_disk) (@LoadFile K_disk).

(** The kernel on which mapping the first segment of the application
    fails. *)
Definition K_segment : Kernel :=
  kernel (fun addr => if addr =? 0xffff800000000000 then kOther 3 else kSuccess)
    kSuccess 5.

(** An image with a second loadable segment at 0x400000, in the lower half,
    and the kernel on which the application's file holds this image. *)
Definition low_segment_ehdr : Elf64_Ehdr :=
  mkEhdr 0x200000 (String (ascii_of_nat 127) "ELF") 2 0xffff800000000120 2
    [app_phdr; mkPhdr 1 0x1004 0x400000 0x400000 2 4].

Definition K_low_segment : Kernel :=
  with_files K0 (@FindFile K0) (@directory_clusters K0) (@file_clusters K0)
    (fun m _ => (m, low_segment_ehdr)).

(** An image with an empty program header. *)
Definition empty_ehdr : Elf64_Ehdr :=
  mkEhdr 0x200000 (String (ascii_of_nat 127) "ELF") 2 0xffff800000000120 0 [].

(** [n] arguments of one letter. *)
Fixpoint letters (n : nat) : string :=
  match n with
  | O => EmptyString
  | S k => String "a" (String " " (letters k))
  end.


End Demo.

(* ================================================================= *)
(** * Properties *)

(** ** The argument vector *)

Module ArgVectorFacts.
Import ArgVector.

Lemma skip_spaces_length (p : string) :
  (String.length (skip_spaces p) <= String.length p)%nat.
Proof.
  induction p as [|c p IH]; simpl; [lia|].
  destruct (isspace c); simpl; lia.
Qed.

Lemma skip_spaces_head (p : string) (c : ascii) (q : string) :
  skip_spaces p = String c q -> isspace c = false.
Proof.
  induction p as [|d p IH]; simpl; [discriminate|].
  destruct (isspace d) eqn:E; [exact IH|].
  intros H; injection H as -> _; exact E.
Qed.

Lemma scan_arg_length (p a r : string) :
  scan_arg p = (a, r) -> (String.length r <= String.length p)%nat.
Proof.
  revert a r; induction p as [|c p IH]; simpl; intros a r H.
  - injection H as _ <-; simpl; lia.
  - destruct (isspace c).
    + injection H as _ <-; simpl; lia.
    + destruct (scan_arg p) as [a' r'] eqn:E.
      injection H as _ <-. specialize (IH _ _ eq_refl). lia.
Qed.

(** One round of the loop leaves strictly less of the line. *)
Lemma round_shrinks (p : string) (c d : ascii) (q a p3 : string) :
  skip_spaces p = String c q ->
  scan_arg (String c q) = (a, String d p3) ->
  (String.length p3 < String.length p)%nat.
Proof.
  intros Hs Ha.
  pose proof (skip_spaces_length p) as Hl. rewrite Hs in Hl.
  pose proof (skip_spaces_head _ _ _ Hs) as Hc.
  simpl in Ha. rewrite Hc in Ha.
  destruct (scan_arg q) as [a' r'] eqn:E.
  injection Ha as _ ->.
  apply scan_arg_length in E. simpl in *. lia.
Qed.

(** The fuel [MakeArgVector] gives the loop is enough. *)
Lemma arg_loop_fuel (fuel : nat) (al bl : Z) (p : string) (st : State) :
  (String.length p < fuel)%nat ->
  exists r, arg_loop fuel al bl p st = Some r.
Proof.
  revert p st; induction fuel as [|fuel IH]; intros p st Hlt; [lia|].
  cbn [arg_loop]. destruct (skip_spaces p) as [|c q] eqn:Hs; [eauto|].
  destruct (scan_arg (String c q)) as [a p2] eqn:Ha.
  destruct (push_to_argv al bl st a) as [st' err].
  destruct (is_err err); [eauto|].
  destruct p2 as [|d p3]; [eauto|].
  apply IH. pose proof (round_shrinks _ _ _ _ _ _ Hs Ha). lia.
Qed.

Lemma push_to_argv_cases (al bl : Z) (st st' : State) (s : string) (err : Error) :
  push_to_argv al bl st s = (st', err) ->
  (err = kFull /\ st' = st)
  \/ (err = kSuccess /\ argc st < al /\ argc st' = argc st + 1).
Proof.
  unfold push_to_argv.
  destruct (al <=? argc st) eqn:E1; simpl.
  - intros H; injection H as <- <-; auto.
  - destruct (bl <=? argbuf_index st); intros H; injection H as <- <-; auto.
    right; simpl; repeat split. apply Z.leb_gt in E1; lia.
Qed.

(** The loop either stops on [kFull], or has stored one pointer per token. *)
Lemma arg_loop_counts (fuel : nat) (al bl : Z) :
  forall (p : string) (st st' : State) (err : Error),
  arg_loop fuel al bl p st = Some (st', err) ->
  argc st <= al ->
  argc st' <= al
  /\ (err = kFull
      \/ (err = kSuccess
          /\ argc st' = argc st + Z.of_nat (length (tokens fuel p)))).
Proof.
  induction fuel as [|fuel IH]; intros p st st' err H Hle; [discriminate|].
  cbn [arg_loop tokens] in H |- *.
  destruct (skip_spaces p) as [|c q] eqn:Hs.
  - injection H as <- <-. split; [lia|right; split; [reflexivity|cbn; lia]].
  - destruct (scan_arg (String c q)) as [a p2] eqn:Ha.
    destruct (push_to_argv al bl st a) as [st1 e1] eqn:Hp.
    destruct (push_to_argv_cases _ _ _ _ _ _ Hp) as [[-> ->]|(-> & Hlt & Hc)];
      cbn [is_err] in H.
    + injection H as <- <-. auto.
    + destruct p2 as [|d p3].
      * injection H as <- <-. split; [lia|right; split; [reflexivity|]].
        cbn [length]. lia.
      * apply IH in H; [|lia]. destruct H as [H1 [->|[-> H2]]]; [auto|].
        split; [exact H1|right; split; [reflexivity|]].
        rewrite H2, Hc. cbn [length]. lia.
Qed.

(** A list of more than [argv_len] tokens is refused with [kFull]. *)
Lemma MakeArgVector_too_many_tokens (command : string)
  (first_arg : option string) (al bl : Z) :
  0 <= al ->
  al < Z.of_nat (length (argument_list command first_arg)) ->
  snd (MakeArgVector command first_arg al bl) = kFull.
Proof.
  intros H0 Hmany. unfold MakeArgVector, argument_list in *.
  destruct (push_to_argv al bl init command) as [st1 e1] eqn:Hp.
  destruct (push_to_argv_cases _ _ _ _ _ _ Hp) as [[-> ->]|(-> & Hlt & Hc)];
    cbn [is_err]; [reflexivity|].
  cbn [argc init] in Hlt, Hc.
  destruct first_arg as [p|]; [|cbn [length] in Hmany; lia].
  destruct (arg_loop_fuel (S (String.length p)) al bl p st1) as [[st' err] Hr];
    [lia|].
  rewrite Hr. cbn [snd].
  destruct (arg_loop_counts _ _ _ _ _ _ _ Hr) as [Hle [->|[-> Hn]]];
    [lia|reflexivity|].
  cbn [length] in Hmany. lia.
Qed.

End ArgVectorFacts.

(** ** The loader *)

Lemma wrap64_small (z : Z) : 0 <= z < 2 ^ 64 -> wrap64 z = z.
Proof. intros H. unfold wrap64. apply Z.mod_small. exact H. Qed.

(** [memcpy] between two ranges that do not overlap and do not wrap. *)
Lemma memcpy_bytes_spec (n : nat) :
  forall (dst src : Z) (f : Z -> Z) (a : Z),
  0 <= dst -> 0 <= src ->
  dst + Z.of_nat n <= 2 ^ 64 -> src + Z.of_nat n <= 2 ^ 64 ->
  src + Z.of_nat n <= dst \/ dst + Z.of_nat n <= src ->
  memcpy_bytes n dst src f a
  = if (dst <=? a) && (a <? dst + Z.of_nat n) then f (src + (a - dst)) else f a.
Proof.
  induction n as [|k IH]; intros dst src f a Hd Hs Hdn Hsn Hdis.
  - cbn [memcpy_bytes].
    destruct (dst <=? a) eqn:E1, (a <? dst + Z.of_nat 0) eqn:E2;
      cbn [andb]; try reflexivity.
    apply Z.leb_le in E1. apply Z.ltb_lt in E2. lia.
  - cbn [memcpy_bytes].
    destruct k as [|k'].
    + cbn [memcpy_bytes].
      destruct (a =? dst) eqn:Ea.
      * apply Z.eqb_eq in Ea. subst a.
        replace (dst <=? dst) with true by (symmetry; apply Z.leb_le; lia).
        replace (dst <? dst + Z.of_nat 1) with true
          by (symmetry; apply Z.ltb_lt; lia).
        cbn [andb]. f_equal. lia.
      * apply Z.eqb_neq in Ea.
        destruct (dst <=? a) eqn:E1, (a <? dst + Z.of_nat 1) eqn:E2;
          cbn [andb]; try reflexivity.
        apply Z.leb_le in E1. apply Z.ltb_lt in E2. lia.
    + rewrite !wrap64_small by lia.
      rewrite IH by lia.
      destruct (dst + 1 <=? a) eqn:E1, (a <? dst + 1 + Z.of_nat (S k')) eqn:E2;
        cbn [andb].
      * apply Z.leb_le in E1. apply Z.ltb_lt in E2.
        replace (dst <=? a) with true by (symmetry; apply Z.leb_le; lia).
        replace (a <? dst + Z.of_nat (S (S k'))) with true
          by (symmetry; apply Z.ltb_lt; lia).
        cbn [andb].
        replace (src + 1 + (a - (dst + 1)) =? dst) with false
          by (symmetry; apply Z.eqb_neq; lia).
        f_equal. lia.
      * apply Z.leb_le in E1. apply Z.ltb_ge in E2.
        replace (a =? dst) with false by (symmetry; apply Z.eqb_neq; lia).
        replace (a <? dst + Z.of_nat (S (S k'))) with false
          by (symmetry; apply Z.ltb_ge; lia).
        rewrite andb_false_r. reflexivity.
      * apply Z.leb_gt in E1. apply Z.ltb_lt in E2.
        destruct (a =? dst) eqn:Ea.
        -- apply Z.eqb_eq in Ea. subst a.
           replace (dst <=? dst) with true by (symmetry; apply Z.leb_le; lia).
           replace (dst <? dst + Z.of_nat (S (S k'))) with true
             by (symmetry; apply Z.ltb_lt; lia).
           cbn [andb]. f_equal. lia.
        -- apply Z.eqb_neq in Ea.
           replace (dst <=? a) with false by (symmetry; apply Z.leb_gt; lia).
           reflexivity.
      * apply Z.leb_gt in E1. apply Z.ltb_ge in E2. lia.
Qed.

Section LoaderFacts.
Context `{K : Kernel}.

(** C1.  An image with one loadable segment, whose file bytes lie below the
    segment and whose length [p_memsz] does not reach past the top of memory
    nor exceed [p_vaddr], is loaded with [SetupPageMaps] succeeding.  The
    first [p_filesz] bytes of the segment are then the bytes of the image,
    but each of the remaining [p_memsz - p_filesz] bytes is the byte that the
    memory held at the addresses 0, 1, 2, ...: the second [memcpy] reads from
    the null address where a fill with zero was meant. *)
Theorem CopyLoadSegments_tail_copied_from_address_zero
  (ehdr : Elf64_Ehdr) (ph : Elf64_Phdr) (w : World) :
  let setup := SetupPageMaps (machine w) (p_vaddr ph)
                 (wrap64 (p_memsz ph + 4095) / 4096) false in
  let src := ehdr_addr ehdr + p_offset ph in
  let after := mem (machine (fst (CopyLoadSegments ehdr w))) in
  GetProgramHeader ehdr = [ph] ->
  p_type ph = PT_LOAD ->
  snd setup = kSuccess ->
  0 <= p_filesz ph <= p_memsz ph ->
  p_memsz ph <= p_vaddr ph ->
  p_vaddr ph + p_memsz ph < 2 ^ 64 ->
  0 <= src /\ src + p_filesz ph <= p_vaddr ph ->
  (forall i, 0 <= i < p_filesz ph ->
     after (p_vaddr ph + i) = mem (fst setup) (src + i))
  /\ (forall i, 0 <= i < p_memsz ph - p_filesz ph ->
        after (p_vaddr ph + p_filesz ph + i) = mem (fst setup) i).
Proof.
  intros setup src after Hph Hty Hok Hsz Hlow Htop [Hs0 Hs1].
  assert (Hafter : forall a,
    after a =
    memcpy_bytes (Z.to_nat (wrap64 (p_memsz ph - p_filesz ph)))
      (wrap64 (p_vaddr ph + p_filesz ph)) 0
      (memcpy_bytes (Z.to_nat (p_filesz ph)) (p_vaddr ph) (wrap64 src)
         (mem (fst setup))) a).
  { intros a. unfold after, CopyLoadSegments. rewrite Hph.
    cbn [CopyLoadSegments_from]. rewrite Hty, Z.eqb_refl. cbn [negb].
    unfold call_SetupPageMaps. fold setup.
    destruct setup as [m1 e1] eqn:Hsetup. cbn [snd] in Hok. subst e1.
    cbn [is_err fst snd]. reflexivity. }
  clearbody after src.
  assert (Hw : wrap64 src = src) by (apply wrap64_small; lia).
  assert (Hn : wrap64 (p_memsz ph - p_filesz ph) = p_memsz ph - p_filesz ph)
    by (apply wrap64_small; lia).
  split; intros i Hi; rewrite Hafter, Hw, Hn.
  - assert (Hd : wrap64 (p_vaddr ph + p_filesz ph) = p_vaddr ph + p_filesz ph)
      by (apply wrap64_small; lia).
    rewrite Hd.
    rewrite memcpy_bytes_spec by (rewrite ?Z2Nat.id; lia).
    rewrite Z2Nat.id by lia.
    replace (p_vaddr ph + p_filesz ph <=? p_vaddr ph + i) with false
      by (symmetry; apply Z.leb_gt; lia).
    cbn [andb].
    rewrite memcpy_bytes_spec by (rewrite ?Z2Nat.id; lia).
    rewrite Z2Nat.id by lia.
    replace (p_vaddr ph <=? p_vaddr ph + i) with true
      by (symmetry; apply Z.leb_le; lia).
    replace (p_vaddr ph + i <? p_vaddr ph + p_filesz ph) with true
      by (symmetry; apply Z.ltb_lt; lia).
    cbn [andb]. f_equal. lia.
  - assert (Hd : wrap64 (p_vaddr ph + p_filesz ph) = p_vaddr ph + p_filesz ph)
      by (apply wrap64_small; lia).
    rewrite Hd.
    rewrite memcpy_bytes_spec by (rewrite ?Z2Nat.id; lia).
    rewrite Z2Nat.id by lia.
    replace (p_vaddr ph + p_filesz ph <=? p_vaddr ph + p_filesz ph + i) with true
      by (symmetry; apply Z.leb_le; lia).
    replace (p_vaddr ph + p_filesz ph + i
             <? p_vaddr ph + p_filesz ph + (p_memsz ph - p_filesz ph)) with true
      by (symmetry; apply Z.ltb_lt; lia).
    cbn [andb].
    rewrite memcpy_bytes_spec by (rewrite ?Z2Nat.id; lia).
    rewrite Z2Nat.id by lia.
    replace (p_vaddr ph <=? 0 + (p_vaddr ph + p_filesz ph + i
                                  - (p_vaddr ph + p_filesz ph))) with false
      by (symmetry; apply Z.leb_gt; lia).
    cbn [andb]. f_equal. lia.
Qed.

(** C4.  An image whose type is not [ET_EXEC], or whose first loadable
    segment lies below 0xffff800000000000, is refused with [kInvalidFormat],
    and the world is left as it was: no byte copied, no page mapped, no
    collaborator called. *)
Theorem LoadElf_invalid_format (ehdr : Elf64_Ehdr) (w : World) :
  e_type ehdr <> ET_EXEC \/ GetFirstLoadAddress ehdr < 0xffff800000000000 ->
  LoadElf ehdr w = (w, (0, kInvalidFormat)).
Proof.
  intros [Hty|Haddr]; unfold LoadElf.
  - apply Z.eqb_neq in Hty. rewrite Hty. reflexivity.
  - destruct (e_type ehdr =? ET_EXEC); cbn [negb]; [|reflexivity].
    apply Z.ltb_lt in Haddr. rewrite Haddr. reflexivity.
Qed.

End LoaderFacts.

(** ** The launch cache and the page maps *)

Section CacheFacts.
Context `{K : Kernel}.

Lemma loads_only_refl (w : World) : loads_only w w.
Proof.
  repeat split. exists []. rewrite app_nil_r. auto.
Qed.

Lemma loads_only_trans (w1 w2 w3 : World) :
  loads_only w1 w2 -> loads_only w2 w3 -> loads_only w1 w3.
Proof.
  intros (Ht1 & Hc1 & e1 & Hx1 & Hf1) (Ht2 & Hc2 & e2 & Hx2 & Hf2).
  repeat split; try congruence.
  exists (e1 ++ e2). rewrite Hx2, Hx1, app_assoc. split; [reflexivity|].
  rewrite forallb_app, Hf1, Hf2. reflexivity.
Qed.

Lemma loads_only_step (e : Event) (m : Machine) (t : Task) (w : World) :
  is_CallApp e = false -> is_teardown e = false ->
  loads_only w (set_task t (log e (set_machine m w))).
Proof.
  intros H1 H2. repeat split. exists [e]. split; [reflexivity|].
  cbn [forallb]. unfold before_transfer. rewrite H1, H2. reflexivity.
Qed.

Lemma loads_only_machine (m : Machine) (w : World) :
  loads_only w (set_machine m w).
Proof. repeat split. exists []. rewrite app_nil_r. auto. Qed.

Lemma call_SetupPageMaps_loads (a n : Z) (b : bool) (w : World) :
  loads_only w (fst (call_SetupPageMaps a n b w)).
Proof.
  unfold call_SetupPageMaps. destruct (SetupPageMaps _ _ _ _) as [m e].
  apply (loads_only_step _ m (task w) w); reflexivity.
Qed.

Lemma call_CopyPageMaps_loads (d s p st : Z) (w : World) :
  loads_only w (fst (call_CopyPageMaps d s p st w)).
Proof.
  unfold call_CopyPageMaps. destruct (CopyPageMaps _ _ _ _ _) as [m e].
  apply (loads_only_step _ m (task w) w); reflexivity.
Qed.

Lemma call_LoadFile_loads (f : DirectoryEntry) (w : World) :
  loads_only w (fst (call_LoadFile f w)).
Proof.
  unfold call_LoadFile. destruct (LoadFile _ _) as [m e].
  apply (loads_only_step _ m (task w) w); reflexivity.
Qed.

Lemma SetupPML4_loads (w : World) : loads_only w (fst (SetupPML4 w)).
Proof.
  unfold SetupPML4, call_NewPageMap.
  destruct (NewPageMap (machine w)) as [m r].
  destruct (is_err (snd r)); cbn [fst].
  - apply (loads_only_step _ m (task w) w); reflexivity.
  - repeat split. exists [ENewPageMap r]. split; reflexivity.
Qed.

Lemma CopyLoadSegments_from_loads (ehdr : Elf64_Ehdr) (phdr : list Elf64_Phdr) :
  forall (last_addr : Z) (w : World),
  loads_only w (fst (CopyLoadSegments_from ehdr phdr last_addr w)).
Proof.
  induction phdr as [|ph rest IH]; intros last_addr w;
    cbn [CopyLoadSegments_from]; [apply loads_only_refl|].
  destruct (negb (p_type ph =? PT_LOAD)); [apply IH|].
  pose proof (call_SetupPageMaps_loads (p_vaddr ph)
                (wrap64 (p_memsz ph + 4095) / 4096) false w) as H1.
  destruct (call_SetupPageMaps _ _ _ w) as [w1 err]. cbn [fst] in H1.
  destruct (is_err err); [exact H1|].
  eapply loads_only_trans; [exact H1|].
  eapply loads_only_trans; [|apply IH].
  apply loads_only_machine.
Qed.

Lemma LoadElf_loads (ehdr : Elf64_Ehdr) (w : World) :
  loads_only w (fst (LoadElf ehdr w)).
Proof.
  unfold LoadElf.
  destruct (negb (e_type ehdr =? ET_EXEC)); [apply loads_only_refl|].
  destruct (GetFirstLoadAddress ehdr <? _); [apply loads_only_refl|].
  apply CopyLoadSegments_from_loads.
Qed.

Lemma launch_frame_of_loads (w w' : World) :
  loads_only w w' -> launch_frame w w'.
Proof.
  intros (Ht & Hc & He). unfold launch_frame, cache_kept.
  rewrite Ht, Hc. auto.
Qed.

Lemma launch_frame_insert (w w3 wf : World) (k : Z) (v : AppLoadInfo) :
  loads_only w w3 ->
  loads_only (set_app_loads (map_insert k v (g_app_loads w3)) w3) wf ->
  launch_frame w wf.
Proof.
  intros (Ht & Hc & evs1 & Hx1 & Hf1) (Ht' & Hc' & evs2 & Hx2 & Hf2).
  cbn [term g_app_loads trace set_app_loads] in *.
  split; [congruence|]. split.
  - intros j u Hj. rewrite Hc', Hc. unfold map_insert.
    destruct (g_app_loads w !! k) eqn:E; [exact Hj|].
    destruct (decide (j = k)) as [->|Hne]; [congruence|].
    rewrite lookup_insert_ne by congruence. exact Hj.
  - exists (evs1 ++ evs2). rewrite Hx2, Hx1, app_assoc. split; [reflexivity|].
    rewrite forallb_app, Hf1, Hf2. reflexivity.
Qed.

(** [LoadApp] leaves the terminal alone, calls neither the application nor
    the teardown, and never drops or changes an entry of the cache. *)
Lemma LoadApp_frame (f : DirectoryEntry) (w : World) :
  launch_frame w (fst (LoadApp f w)).
Proof.
  unfold LoadApp.
  pose proof (SetupPML4_loads w) as H1.
  destruct (SetupPML4 w) as [w1 r]. cbn [fst] in H1.
  destruct (is_err (snd r)); [apply launch_frame_of_loads, H1|].
  destruct (g_app_loads w1 !! entry_addr f) as [it|] eqn:Hlook.
  - pose proof (call_CopyPageMaps_loads (fst r) (pml4 it) 4 256 w1) as H2.
    destruct (call_CopyPageMaps _ _ _ _ w1) as [w2 err]. cbn [fst] in *.
    apply launch_frame_of_loads. eapply loads_only_trans; eassumption.
  - pose proof (call_LoadFile_loads f w1) as H2.
    destruct (call_LoadFile f w1) as [w2 hdr]. cbn [fst] in H2.
    pose proof (loads_only_trans _ _ _ H1 H2) as H12.
    destruct (negb _); [apply launch_frame_of_loads, H12|].
    pose proof (LoadElf_loads hdr w2) as H3.
    destruct (LoadElf hdr w2) as [w3 [last_addr err_load]]. cbn [fst] in H3.
    pose proof (loads_only_trans _ _ _ H12 H3) as H13.
    destruct (is_err err_load); [apply launch_frame_of_loads, H13|].
    eapply launch_frame_insert; [exact H13|].
    match goal with |- context [SetupPML4 ?x] =>
      pose proof (SetupPML4_loads x) as H5; destruct (SetupPML4 x) as [w5 r2]
    end.
    cbn [fst] in H5.
    destruct (is_err (snd r2)); [exact H5|].
    match goal with |- context [call_CopyPageMaps ?a ?b ?c ?d ?x] =>
      pose proof (call_CopyPageMaps_loads a b c d x) as H7;
      destruct (call_CopyPageMaps a b c d x) as [w6 err]
    end.
    cbn [fst] in *. eapply loads_only_trans; eassumption.
Qed.

End CacheFacts.

Section LaunchCache.
Context `{K : Kernel}.

(** A launch that succeeded has its file in the cache, under the entry point
    and the end address it returned. *)
Lemma LoadApp_success_is_cached (f : DirectoryEntry) (w w1 : World)
  (info1 : AppLoadInfo) :
  LoadApp f w = (w1, (info1, kSuccess)) ->
  exists p, g_app_loads w1 !! entry_addr f
            = Some (mkAppLoad (vaddr_end info1) (entry info1) p).
Proof.
  unfold LoadApp.
  pose proof (SetupPML4_loads w) as H1.
  destruct (SetupPML4 w) as [wa r]. cbn [fst] in H1.
  destruct (is_err (snd r)) eqn:Er.
  { intros H. injection H as _ _ He. rewrite He in Er. discriminate. }
  destruct (g_app_loads wa !! entry_addr f) as [it|] eqn:Hlook.
  - pose proof (call_CopyPageMaps_loads (fst r) (pml4 it) 4 256 wa) as H2.
    destruct (call_CopyPageMaps _ _ _ _ wa) as [w2 err]. cbn [fst] in H2.
    intros H. injection H as <- <- _.
    destruct H2 as (_ & Hc & _). rewrite Hc, Hlook.
    exists (pml4 it). destruct it; reflexivity.
  - pose proof (call_LoadFile_loads f wa) as H2.
    destruct (call_LoadFile f wa) as [w2 hdr]. cbn [fst] in H2.
    destruct (negb _); [discriminate|].
    pose proof (LoadElf_loads hdr w2) as H3.
    destruct (LoadElf hdr w2) as [w3 [last_addr err_load]]. cbn [fst] in H3.
    destruct (is_err err_load) eqn:El.
    { intros H. injection H as _ _ He. rewrite He in El. discriminate. }
    assert (Hnone : g_app_loads w3 !! entry_addr f = None).
    { destruct H3 as (_ & Hc3 & _). destruct H2 as (_ & Hc2 & _).
      rewrite Hc3, Hc2. exact Hlook. }
    match goal with |- context [SetupPML4 ?x] =>
      pose proof (SetupPML4_loads x) as H5; destruct (SetupPML4 x) as [w5 r2]
    end.
    cbn [fst] in H5.
    assert (Hin : g_app_loads w5 !! entry_addr f
                  = Some (mkAppLoad last_addr (e_entry hdr) (fst r))).
    { destruct H5 as (_ & Hc5 & _). rewrite Hc5.
      cbn [g_app_loads set_app_loads]. unfold map_insert. rewrite Hnone.
      apply lookup_insert_eq. }
    destruct (is_err (snd r2)) eqn:Er2.
    { intros H. injection H as _ _ He. rewrite He in Er2. discriminate. }
    match goal with |- context [call_CopyPageMaps ?a ?b ?c ?d ?x] =>
      pose proof (call_CopyPageMaps_loads a b c d x) as H7;
      destruct (call_CopyPageMaps a b c d x) as [w6 err]
    end.
    cbn [fst] in H7. intros H. injection H as <- <- _.
    destruct H7 as (_ & Hc7 & _). rewrite Hc7, Hin.
    exists (fst r). reflexivity.
Qed.

(** The cache-hit path: the file is not read, and the entry point and the
    end address are those of the cache. *)
Lemma LoadApp_hit (f : DirectoryEntry) (w w' : World) (it info : AppLoadInfo)
  (err : Error) :
  g_app_loads w !! entry_addr f = Some it ->
  LoadApp f w = (w', (info, err)) ->
  (exists evs, trace w' = trace w ++ evs /\ existsb is_LoadFile evs = false)
  /\ (err = kSuccess ->
      entry info = entry it /\ vaddr_end info = vaddr_end it).
Proof.
  intros Hit. unfold LoadApp, SetupPML4, call_NewPageMap.
  destruct (NewPageMap (machine w)) as [m r].
  destruct (is_err (snd r)) eqn:Er; cbn [fst snd].
  - rewrite ?Er. intros H. injection H as <- <- <-. split.
    + exists [ENewPageMap r]. split; reflexivity.
    + intros He. rewrite He in Er. discriminate.
  - rewrite ?Er. cbn [g_app_loads set_task set_machine log]. rewrite Hit.
    unfold call_CopyPageMaps. destruct (CopyPageMaps _ _ _ _ _) as [m2 e2].
    intros H. injection H as <- <- <-. split.
    + eexists. split; [cbn [trace log set_machine set_task];
                       rewrite <- app_assoc; reflexivity|reflexivity].
    + intros _. split; reflexivity.
Qed.

(** C5.  A file is launched, and later launched again, nothing having
    dropped its entry from the cache in between.  The second [LoadApp] does
    not call [fat::LoadFile], and if it succeeds it returns the entry point
    and the end address of the first launch. *)
Theorem LoadApp_second_launch_hits_cache (f : DirectoryEntry)
  (w w1 w2 w3 : World) (info1 info2 : AppLoadInfo) (err2 : Error) :
  LoadApp f w = (w1, (info1, kSuccess)) ->
  (forall v, g_app_loads w1 !! entry_addr f = Some v ->
             g_app_loads w2 !! entry_addr f = Some v) ->
  LoadApp f w2 = (w3, (info2, err2)) ->
  (exists evs, trace w3 = trace w2 ++ evs /\ existsb is_LoadFile evs = false)
  /\ (err2 = kSuccess ->
      entry info2 = entry info1 /\ vaddr_end info2 = vaddr_end info1).
Proof.
  intros H1 Hkeep H2.
  destruct (LoadApp_success_is_cached _ _ _ _ H1) as [p Hc].
  apply Hkeep in Hc.
  exact (LoadApp_hit _ _ _ _ _ _ Hc H2).
Qed.

(** [SetupPML4] creates a page map whose entries 0 to 255 are those of the
    page map active at creation.  Entries 256 to 511 are not copied: they
    stay as [NewPageMap] made them.  No other page map is written, and the
    new map becomes the active one and the one of the task's context. *)
Lemma SetupPML4_copies_lower_half (w w' : World) (p : Z) :
  SetupPML4 w = (w', (p, kSuccess)) ->
  let m1 := fst (NewPageMap (machine w)) in
  (forall i, 0 <= i < 256 ->
     pagemap (machine w') p i = pagemap m1 (cr3 m1) i)
  /\ (forall i, 256 <= i ->
        pagemap (machine w') p i = pagemap m1 p i)
  /\ (forall q i, q <> p -> pagemap (machine w') q i = pagemap m1 q i)
  /\ cr3 (machine w') = p
  /\ context_cr3 (task w') = p.
Proof.
  unfold SetupPML4, call_NewPageMap.
  destruct (NewPageMap (machine w)) as [m [q e]]. cbn [fst snd].
  destruct (is_err e) eqn:Ee.
  { intros H. injection H as _ _ He. rewrite He in Ee. discriminate. }
  intros H. injection H as <- <- _.
  cbn [machine set_task set_machine task context_cr3 set_context_cr3 cr3 SetCR3
       pagemap memcpy_entries set_pagemap log GetCR3].
  repeat split.
  - intros i Hi. rewrite Z.eqb_refl.
    replace (0 <=? i) with true by (symmetry; apply Z.leb_le; lia).
    replace (i <? 256) with true by (symmetry; apply Z.ltb_lt; lia).
    reflexivity.
  - intros i Hi. replace (i <? 256) with false by (symmetry; apply Z.ltb_ge; lia).
    rewrite andb_false_r. reflexivity.
  - intros q' i Hq. replace (q' =? q) with false
      by (symmetry; apply Z.eqb_neq; exact Hq).
    reflexivity.
Qed.

Lemma lower_half_kept_refl (m : Machine) : lower_half_kept m m.
Proof. split; auto. Qed.

Lemma lower_half_kept_trans (a b c : Machine) :
  lower_half_kept a b -> lower_half_kept b c -> lower_half_kept a c.
Proof.
  intros [H1 H2] [G1 G2]. split; [congruence|].
  intros q i Hi. rewrite G2, H2 by exact Hi. reflexivity.
Qed.

Lemma call_SetupPageMaps_lower (a n : Z) (b : bool) (w : World) :
  paging_keeps_lower_half ->
  upper_half a ->
  lower_half_kept (machine w) (machine (fst (call_SetupPageMaps a n b w))).
Proof.
  intros (H & _) Ha. unfold call_SetupPageMaps.
  specialize (H (machine w) a n b Ha).
  destruct (SetupPageMaps _ _ _ _) as [m e]. exact H.
Qed.

Lemma call_CopyPageMaps_lower (d s : Z) (w : World) :
  paging_keeps_lower_half ->
  lower_half_kept (machine w) (machine (fst (call_CopyPageMaps d s 4 256 w))).
Proof.
  intros (_ & H & _). unfold call_CopyPageMaps. specialize (H (machine w) d s).
  destruct (CopyPageMaps _ _ _ _ _) as [m e]. exact H.
Qed.

Lemma call_LoadFile_lower (f : DirectoryEntry) (w : World) :
  paging_keeps_lower_half ->
  lower_half_kept (machine w) (machine (fst (call_LoadFile f w))).
Proof.
  intros (_ & _ & H & _). unfold call_LoadFile. specialize (H (machine w) f).
  destruct (LoadFile _ _) as [m e]. exact H.
Qed.

Lemma CopyLoadSegments_from_lower (ehdr : Elf64_Ehdr) (phdr : list Elf64_Phdr) :
  paging_keeps_lower_half ->
  Forall (fun ph => upper_half (p_vaddr ph)) (load_segments phdr) ->
  forall (last_addr : Z) (w : World),
  lower_half_kept (machine w)
    (machine (fst (CopyLoadSegments_from ehdr phdr last_addr w))).
Proof.
  intros HK. induction phdr as [|ph rest IH]; intros Hup last_addr w;
    cbn [CopyLoadSegments_from]; [apply lower_half_kept_refl|].
  unfold load_segments in Hup, IH. cbn [List.filter] in Hup.
  destruct (p_type ph =? PT_LOAD); cbn [negb]; [|apply IH, Hup].
  pose proof (call_SetupPageMaps_lower (p_vaddr ph)
                (wrap64 (p_memsz ph + 4095) / 4096) false w HK
                (Forall_inv Hup)) as H1.
  destruct (call_SetupPageMaps _ _ _ w) as [w1 err]. cbn [fst] in H1.
  destruct (is_err err); [exact H1|].
  eapply lower_half_kept_trans; [exact H1|].
  eapply lower_half_kept_trans; [|apply IH, (Forall_inv_tail Hup)].
  split; reflexivity.
Qed.

Lemma LoadElf_lower (ehdr : Elf64_Ehdr) (w : World) :
  paging_keeps_lower_half ->
  segments_in_upper_half ehdr ->
  lower_half_kept (machine w) (machine (fst (LoadElf ehdr w))).
Proof.
  intros HK Hup. unfold LoadElf.
  destruct (negb (e_type ehdr =? ET_EXEC)); [apply lower_half_kept_refl|].
  destruct (GetFirstLoadAddress ehdr <? _); [apply lower_half_kept_refl|].
  apply CopyLoadSegments_from_lower; assumption.
Qed.

(** With such a kernel the new page map has the lower half that the active
    one had when [SetupPML4] was called, and no lower half changes. *)
Lemma SetupPML4_lower (w w' : World) (p : Z) :
  paging_keeps_lower_half ->
  SetupPML4 w = (w', (p, kSuccess)) ->
  cr3 (machine w') = p
  /\ (forall i, 0 <= i < 256 ->
        pagemap (machine w') p i = pagemap (machine w) (cr3 (machine w)) i)
  /\ (forall i, 0 <= i < 256 ->
        pagemap (machine w') (cr3 (machine w)) i
        = pagemap (machine w) (cr3 (machine w)) i).
Proof.
  intros (_ & _ & _ & HN) H. specialize (HN (machine w)). destruct HN as [Hc Hk].
  revert H. unfold SetupPML4, call_NewPageMap.
  destruct (NewPageMap (machine w)) as [m [q e]]. cbn [fst snd] in *.
  destruct (is_err e) eqn:Ee.
  { intros H. injection H as _ _ He. rewrite He in Ee. discriminate. }
  intros H. injection H as <- <- _.
  cbn [machine set_task set_machine cr3 SetCR3 pagemap memcpy_entries
       set_pagemap log]. unfold GetCR3.
  split; [reflexivity|]. split; intros i Hi.
  - rewrite Z.eqb_refl.
    replace (0 <=? i) with true by (symmetry; apply Z.leb_le; lia).
    replace (i <? 256) with true by (symmetry; apply Z.ltb_lt; lia).
    cbn [andb]. rewrite Hc. apply Hk, Hi.
  - destruct ((cr3 (machine w) =? q) && (0 <=? i) && (i <? 256));
      rewrite ?Hc; apply Hk, Hi.
Qed.

(** With such a kernel a launch that succeeds on a file whose loadable
    segments all lie in the upper half returns a page map whose lower half is
    the one the active page map had when the launch began. *)
Lemma LoadApp_lower (f : DirectoryEntry) (w w' : World) (info : AppLoadInfo) :
  paging_keeps_lower_half ->
  (forall m, segments_in_upper_half (snd (LoadFile m f))) ->
  LoadApp f w = (w', (info, kSuccess)) ->
  forall i, 0 <= i < 256 ->
    pagemap (machine w') (pml4 info) i
    = pagemap (machine w) (cr3 (machine w)) i.
Proof.
  intros HK Hup. unfold LoadApp.
  destruct (SetupPML4 w) as [w1 [p1 e1]] eqn:S1. cbn [fst snd].
  destruct (is_err e1) eqn:E1.
  { intros H. injection H as _ _ He. rewrite He in E1. discriminate. }
  destruct e1; try discriminate E1.
  destruct (SetupPML4_lower _ _ _ HK S1) as (Hc1 & Hp1 & _).
  destruct (g_app_loads w1 !! entry_addr f) as [it|].
  - pose proof (call_CopyPageMaps_lower p1 (pml4 it) w1 HK) as [_ H2].
    destruct (call_CopyPageMaps _ _ _ _ w1) as [w2 err]. cbn [fst] in H2.
    intros H. injection H as <- <- _. cbn [pml4].
    intros i Hi. rewrite H2, Hp1 by exact Hi. reflexivity.
  - pose proof (call_LoadFile_lower f w1 HK) as H2.
    assert (Hhdr : segments_in_upper_half (snd (call_LoadFile f w1))).
    { unfold call_LoadFile. specialize (Hup (machine w1)).
      destruct (LoadFile (machine w1) f) as [m hdr]. exact Hup. }
    destruct (call_LoadFile f w1) as [w2 hdr]. cbn [fst snd] in H2, Hhdr.
    destruct (negb _); [discriminate|].
    pose proof (LoadElf_lower hdr w2 HK Hhdr) as H3.
    destruct (LoadElf hdr w2) as [w3 [last_addr err_load]]. cbn [fst] in H3.
    destruct (is_err err_load) eqn:El.
    { intros H. injection H as _ _ He. rewrite He in El. discriminate. }
    pose proof (lower_half_kept_trans _ _ _ H2 H3) as [Hc3 H13].
    match goal with |- context [SetupPML4 ?x] =>
      destruct (SetupPML4 x) as [w5 [p2 e2]] eqn:S2
    end.
    cbn [fst snd].
    destruct (is_err e2) eqn:E2.
    { intros H. injection H as _ _ He. rewrite He in E2. discriminate. }
    destruct e2; try discriminate E2.
    destruct (SetupPML4_lower _ _ _ HK S2) as (Hc5 & Hp5 & _).
    cbn [machine set_app_loads] in Hp5.
    pose proof (call_CopyPageMaps_lower p2 p1 w5 HK) as [_ H6].
    cbn [pml4].
    destruct (call_CopyPageMaps _ _ _ _ w5) as [w6 err]. cbn [fst] in H6.
    intros H. injection H as <- <- _. cbn [pml4].
    intros i Hi. rewrite H6, Hp5, Hc3, Hc1, H13, Hp1 by exact Hi. reflexivity.
Qed.

(** On a cache hit the upper half of the new page map is filled by
    [CopyPageMaps] from the page map of the cached launch. *)
Lemma LoadApp_hit_copies_from_cache (f : DirectoryEntry) (w w' : World)
  (it info : AppLoadInfo) (err : Error) (p : Z) :
  g_app_loads w !! entry_addr f = Some it ->
  LoadApp f w = (w', (info, err)) ->
  snd (SetupPML4 w) = (p, kSuccess) ->
  pml4 info = p
  /\ trace w' = trace w ++ [ENewPageMap (p, kSuccess);
                            ECopyPageMaps p (pml4 it) 4 256 err].
Proof.
  intros Hit. unfold LoadApp, SetupPML4, call_NewPageMap.
  destruct (NewPageMap (machine w)) as [m r].
  destruct (is_err (snd r)) eqn:Er; cbn [fst snd].
  - rewrite ?Er. intros _ H. rewrite H in Er. discriminate.
  - rewrite ?Er. cbn [g_app_loads set_task set_machine log]. rewrite Hit.
    unfold call_CopyPageMaps. destruct (CopyPageMaps _ _ _ _ _) as [m2 e2].
    intros H Hr. injection H as <- <- <-. subst r.
    split; [reflexivity|].
    cbn [trace log set_machine set_task fst]. rewrite <- app_assoc. reflexivity.
Qed.

End LaunchCache.

(** ** The launcher *)

Lemma append_cons (x : ascii) (a b : string) :
  String x a +++ b = String x (a +++ b).
Proof. reflexivity. Qed.

Lemma append_assoc (a b c : string) : (a +++ b) +++ c = a +++ (b +++ c).
Proof.
  induction a as [|x a IH]; [reflexivity|].
  rewrite !append_cons, IH. reflexivity.
Qed.

Lemma append_empty_r (a : string) : a +++ "" = a.
Proof.
  induction a as [|x a IH]; [reflexivity|].
  rewrite append_cons, IH. reflexivity.
Qed.

Lemma same_editor_refl (t : Terminal) : same_editor t t.
Proof. repeat split. Qed.

Lemma same_editor_trans (a b c : Terminal) :
  same_editor a b -> same_editor b c -> same_editor a c.
Proof.
  intros (H1 & H2 & H3 & H4) (G1 & G2 & G3 & G4).
  repeat split; congruence.
Qed.

Section PrintFacts.
Context `{K : Kernel}.

Lemma Print_char_editor (c : ascii) (t : Terminal) :
  same_editor t (Print_char c t) /\ printed_ (Print_char c t) = printed_ t +++ String c "".
Proof.
  unfold Print_char, newline.
  destruct (Ascii.eqb c LF); [|destruct (_ =? _)];
    cbn [cursor_y set_cursor_x add_printed];
    try destruct (_ <? _); repeat split.
Qed.

Lemma Print_editor (s : string) :
  forall t, same_editor t (Print s t) /\ printed_ (Print s t) = printed_ t +++ s.
Proof.
  induction s as [|c s IH]; intros t; cbn [Print].
  - split; [apply same_editor_refl|]. rewrite append_empty_r. reflexivity.
  - destruct (Print_char_editor c t) as [H1 H2].
    destruct (IH (Print_char c t)) as [H3 H4]. split.
    + eapply same_editor_trans; eassumption.
    + rewrite H4, H2, append_assoc. reflexivity.
Qed.

End PrintFacts.

Section LauncherFacts.
Context `{K : Kernel}.

(** The two ways [ExecuteFile] ends: before [CallApp], with an error and
    nothing but loading and mapping calls behind it; or after [CallApp]
    returned, with the descriptors and file maps cleared, the exit message
    printed, [CleanPageMaps] called, and [FreePageMap] called when
    [CleanPageMaps] succeeded. *)
Lemma ExecuteFile_cases (f : DirectoryEntry) (command : string)
  (first_arg : option string) (w w' : World) (err : Error) :
  ExecuteFile f command first_arg w = (w', err) ->
  cache_kept w w'
  /\ ((is_err err = true
       /\ term w' = term w
       /\ exists evs, trace w' = trace w ++ evs
            /\ forallb before_transfer evs = true)
      \/ (exists pre argc rip ret out tail,
            trace w' = trace w ++ pre ++ ECallApp argc rip ret :: tail
            /\ forallb before_transfer pre = true
            /\ Files (task w') = []
            /\ FileMaps (task w') = []
            /\ same_editor (term w) (term w')
            /\ printed_ (term w')
               = printed_ (term w) +++ out +++ exit_message ret
            /\ ((exists e, tail = [ECleanPageMaps 0xffff800000000000 e]
                           /\ is_err e = true /\ err = e)
                \/ (exists p, tail = [ECleanPageMaps 0xffff800000000000 kSuccess;
                                      EFreePageMap p err])))).
Proof.
  unfold ExecuteFile.
  pose proof (LoadApp_frame f w) as HL.
  destruct (LoadApp f w) as [w1 [app_load e1]]. cbn [fst] in HL.
  destruct HL as (Ht1 & Hc1 & evs1 & Hx1 & Hf1).
    destruct (is_err e1) eqn:E1.
  { intros H. injection H as <- <-. split; [exact Hc1|]. left. eauto 6. }
  unfold call_SetupPageMaps at 1.
  destruct (SetupPageMaps (machine w1) _ _ _) as [m2 e2].
  destruct (is_err e2) eqn:E2.
  { intros H. injection H as <- <-. split; [exact Hc1|]. left.
    repeat split; [exact E2|exact Ht1|].
    eexists. world_simpl. rewrite Hx1, <- app_assoc.
    split; [reflexivity|]. rewrite forallb_app, Hf1. reflexivity. }
  destruct (ArgVector.MakeArgVector _ _ _ _) as [args e3].
  destruct (is_err e3) eqn:E3.
  { intros H. injection H as <- <-. split; [exact Hc1|]. left.
    repeat split; [exact E3|exact Ht1|].
    eexists. world_simpl. rewrite Hx1, <- app_assoc.
    split; [reflexivity|]. rewrite forallb_app, Hf1. reflexivity. }
  unfold call_SetupPageMaps.
  destruct (SetupPageMaps _ _ _ _) as [m4 e4].
  destruct (is_err e4) eqn:E4.
  { intros H. injection H as <- <-. split; [exact Hc1|]. left.
    repeat split; [exact E4|exact Ht1|].
    eexists. world_simpl. rewrite Hx1, <- !app_assoc.
    split; [reflexivity|]. rewrite forallb_app, Hf1. reflexivity. }
  match goal with |- context [CallApp ?a ?b ?c ?d ?e ?g ?h] =>
    set (run := CallApp a b c d e g h)
  end.
  unfold call_CleanPageMaps.
  destruct (CleanPageMaps _ _) as [m10 e10].
  world_simpl.
  destruct (Print_editor (run_output run) (term w1)) as [Hed1 Hpr1].
  destruct (Print_editor (exit_message (run_ret run))
              (Print (run_output run) (term w1))) as [Hed2 Hpr2].
  assert (Hed : same_editor (term w)
                  (Print (exit_message (run_ret run))
                     (Print (run_output run) (term w1)))).
  { rewrite <- Ht1. eapply same_editor_trans; eassumption. }
  assert (Hpr : printed_ (Print (exit_message (run_ret run))
                            (Print (run_output run) (term w1)))
                = printed_ (term w) +++ run_output run
                  +++ exit_message (run_ret run)).
  { rewrite Hpr2, Hpr1, Ht1, append_assoc. reflexivity. }
  destruct (is_err e10) eqn:E10.
  - intros H. injection H as <- <-. split; [exact Hc1|]. right.
    exists (evs1 ++ [ESetupPageMaps 0xfffffffffffff000 1 true e2;
                     ESetupPageMaps 0xffffffffffffe000 1 true e4]).
    exists (ArgVector.argc args), (entry app_load), (run_ret run),
           (run_output run).
    eexists. world_simpl.
    split; [rewrite Hx1, <- !app_assoc; reflexivity|].
    split; [rewrite forallb_app, Hf1; reflexivity|].
    split; [reflexivity|]. split; [reflexivity|].
    split; [exact Hed|]. split; [exact Hpr|].
    left. eexists. split; [reflexivity|]. split; [exact E10|reflexivity].
  - unfold FreePML4, call_FreePageMap. world_simpl.
    destruct (FreePageMap _ _) as [m11 e11].
    intros H. injection H as <- <-. split; [exact Hc1|]. right.
    exists (evs1 ++ [ESetupPageMaps 0xfffffffffffff000 1 true e2;
                     ESetupPageMaps 0xffffffffffffe000 1 true e4]).
    exists (ArgVector.argc args), (entry app_load), (run_ret run),
           (run_output run).
    eexists. world_simpl.
    split; [rewrite Hx1, <- !app_assoc; reflexivity|].
    split; [rewrite forallb_app, Hf1; reflexivity|].
    split; [reflexivity|]. split; [reflexivity|].
    split; [exact Hed|]. split; [exact Hpr|].
    right. destruct e10; try discriminate. eexists. reflexivity.
Qed.

End LauncherFacts.

Lemma before_transfer_all (l : list Event) :
  forallb before_transfer l = true ->
  existsb is_CallApp l = false /\ existsb is_teardown l = false.
Proof.
  induction l as [|e l IH]; cbn [forallb existsb]; [auto|].
  intros H. apply andb_prop in H. destruct H as [He Hl].
  destruct (IH Hl) as [H1 H2]. rewrite H1, H2.
  unfold before_transfer in He. apply andb_prop in He. destruct He as [Ha Hb].
  apply negb_true_iff in Ha, Hb. rewrite Ha, Hb. auto.
Qed.

Lemma existsb_CallApp_mid (pre tail : list Event) (a r t : Z) :
  existsb is_CallApp (pre ++ ECallApp a r t :: tail) = true.
Proof.
  rewrite existsb_app. cbn [existsb is_CallApp]. rewrite orb_true_r. reflexivity.
Qed.

Section LauncherClaims.
Context `{K : Kernel}.

(** C8 as amended.  When [CallApp] has returned [ret], whatever its value,
    [ExecuteFile] clears the task's file descriptors and file maps, prints
    "app exited. ret = <ret>" and calls [CleanPageMaps].  [FreePageMap] is
    called next if [CleanPageMaps] succeeded; if it failed, its error is
    returned at once and the page map is not freed. *)
Theorem ExecuteFile_after_child_returns
  (f : DirectoryEntry) (command : string) (first_arg : option string)
  (w w' : World) (err : Error) (evs : list Event) (argc rip ret : Z) :
  ExecuteFile f command first_arg w = (w', err) ->
  trace w' = trace w ++ evs ->
  In (ECallApp argc rip ret) evs ->
  Files (task w') = []
  /\ FileMaps (task w') = []
  /\ (exists before, printed_ (term w') = before +++ exit_message ret)
  /\ exists pre,
       (exists e, evs = pre ++ [ECallApp argc rip ret;
                                ECleanPageMaps 0xffff800000000000 e]
                  /\ is_err e = true /\ err = e)
       \/ (exists p, evs = pre ++ [ECallApp argc rip ret;
                                   ECleanPageMaps 0xffff800000000000 kSuccess;
                                   EFreePageMap p err]).
Proof.
  intros Hrun Hevs Hin.
  destruct (ExecuteFile_cases _ _ _ _ _ _ Hrun) as [_ [Hfail|Hexit]].
  - destruct Hfail as (_ & _ & evs' & Hx & Hf).
    rewrite Hx in Hevs. apply app_inv_head in Hevs. subst evs'.
    apply before_transfer_all in Hf. destruct Hf as [Hf _].
    assert (existsb is_CallApp evs = true) as Hc
      by (apply existsb_exists; eexists; split; [exact Hin|reflexivity]).
    congruence.
  - destruct Hexit as (pre & a & r & t & out & tail & Hx & Hpre & HF & HM & _
                       & Hpr & Htail).
    rewrite Hx in Hevs. apply app_inv_head in Hevs. subst evs.
    assert (Hsame : ECallApp argc rip ret = ECallApp a r t).
    { apply before_transfer_all in Hpre. destruct Hpre as [Hpre _].
      apply in_app_or in Hin. destruct Hin as [Hin|[Hin|Hin]].
      - assert (existsb is_CallApp pre = true) as Hc
          by (apply existsb_exists; eexists; split; [exact Hin|reflexivity]).
        congruence.
      - congruence.
      - destruct Htail as [(e & -> & _)|(p & ->)];
          cbn [In] in Hin; intuition discriminate. }
    injection Hsame as -> -> ->.
    split; [exact HF|]. split; [exact HM|].
    split; [exists (printed_ (term w) +++ out); rewrite Hpr, append_assoc;
            reflexivity|].
    exists pre. destruct Htail as [(e & -> & He & ->)|(p & ->)].
    + left. exists e. auto.
    + right. exists p. reflexivity.
Qed.

End LauncherClaims.

(** ** The line editor and the command history *)

Section HistoryFacts.
Context `{K : Kernel}.

Lemma Print_cmd_history (s : string) (t : Terminal) :
  cmd_history_ (Print s t) = cmd_history_ t.
Proof. destruct (Print_editor s t) as [(H & _) _]. exact H. Qed.

Lemma Print_cmd_history_index (s : string) (t : Terminal) :
  cmd_history_index_ (Print s t) = cmd_history_index_ t.
Proof. destruct (Print_editor s t) as [(_ & H & _) _]. exact H. Qed.

Lemma ListAllEntries_cluster_history (dir : list DirectoryEntry) :
  forall t, cmd_history_ (fst (ListAllEntries_cluster dir t)) = cmd_history_ t
            /\ cmd_history_index_ (fst (ListAllEntries_cluster dir t))
               = cmd_history_index_ t.
Proof.
  induction dir as [|e rest IH]; intros t; cbn [ListAllEntries_cluster];
    [auto|].
  destruct (name0 e =? 0); [auto|].
  destruct (name0 e =? 229); [apply IH|].
  destruct (attr e =? kLongName); [apply IH|].
  destruct (IH (Print endl (Print (formatted_name e) t))) as [H1 H2].
  rewrite H1, H2, !Print_cmd_history, !Print_cmd_history_index. auto.
Qed.

Lemma ListAllEntries_chain_history (chain : list (list DirectoryEntry)) :
  forall t, cmd_history_ (ListAllEntries_chain chain t) = cmd_history_ t
            /\ cmd_history_index_ (ListAllEntries_chain chain t)
               = cmd_history_index_ t.
Proof.
  induction chain as [|dir rest IH]; intros t; cbn [ListAllEntries_chain];
    [auto|].
  destruct (ListAllEntries_cluster_history dir t) as [H1 H2].
  destruct (ListAllEntries_cluster dir t) as [t1 ret]. cbn [fst] in *.
  destruct ret; [auto|].
  destruct (IH t1) as [H3 H4]. rewrite H3, H4. auto.
Qed.

Lemma cat_clusters_history (chain : list string) :
  forall n t, cmd_history_ (cat_clusters chain n t) = cmd_history_ t
              /\ cmd_history_index_ (cat_clusters chain n t)
                 = cmd_history_index_ t.
Proof.
  induction chain as [|p rest IH]; intros n t; cbn [cat_clusters]; [auto|].
  match goal with |- context [cat_clusters rest ?a ?b] =>
    destruct (IH a b) as [H1 H2]
  end.
  rewrite H1, H2, Print_cmd_history, Print_cmd_history_index. auto.
Qed.

Lemma same_history_intro (w w' : World) :
  cmd_history_ (term w') = cmd_history_ (term w) ->
  cmd_history_index_ (term w') = cmd_history_index_ (term w) ->
  g_app_loads w' = g_app_loads w ->
  same_history w w'.
Proof.
  intros H1 H2 H3. split; [exact H1|]. split; [exact H2|].
  intros k v. rewrite H3. auto.
Qed.

Lemma same_history_refl (w : World) : same_history w w.
Proof. apply same_history_intro; reflexivity. Qed.

Lemma same_history_trans (a b c : World) :
  same_history a b -> same_history b c -> same_history a c.
Proof.
  intros (H1 & H2 & H3) (G1 & G2 & G3).
  split; [congruence|]. split; [congruence|].
  intros k v Hk. apply G3, H3, Hk.
Qed.

Lemma same_history_Print (s : string) (w : World) :
  same_history w (term_Print s w).
Proof.
  apply same_history_intro; world_simpl;
    [apply Print_cmd_history|apply Print_cmd_history_index|reflexivity].
Qed.

Lemma same_history_ListAllEntries (c : Z) (w : World) :
  same_history w (ListAllEntries c w).
Proof.
  unfold ListAllEntries.
  apply same_history_intro; world_simpl;
    [apply ListAllEntries_chain_history..|reflexivity].
Qed.

Lemma same_history_FindFile (p : option string) (w : World) :
  same_history w (fst (call_FindFile p w)).
Proof. apply same_history_intro; reflexivity. Qed.

Lemma same_history_lspci (m : Machine) (devs : list PciDevice) :
  forall w w', lspci_lines m devs w = Ok w' -> same_history w w'.
Proof.
  induction devs as [|d rest IH]; intros w w'; cbn [lspci_lines].
  - intros H. injection H as <-. apply same_history_refl.
  - destruct (sprintf64 _) as [s|]; [|discriminate].
    intros H. apply IH in H.
    eapply same_history_trans; [apply same_history_Print|exact H].
Qed.

Lemma same_history_ExecuteFile (f : DirectoryEntry) (command : string)
  (first_arg : option string) (w w' : World) (err : Error) :
  ExecuteFile f command first_arg w = (w', err) -> same_history w w'.
Proof.
  intros H. destruct (ExecuteFile_cases _ _ _ _ _ _ H) as [Hc [Hf|He]].
  - destruct Hf as (_ & Ht & _). unfold same_history. rewrite Ht. auto.
  - destruct He as (? & ? & ? & ? & ? & ? & _ & _ & _ & _ & (H1 & H2 & _) & _).
    split; [exact H1|]. split; [exact H2|exact Hc].
Qed.

Ltac history_step :=
  first
    [ apply same_history_refl
    | eapply same_history_trans; [|apply same_history_Print]
    | eapply same_history_trans; [|apply same_history_ListAllEntries] ].

(** [ExecuteLine] never touches the command history. *)
Lemma ExecuteLine_history (w w' : World) :
  ExecuteLine w = Ok w' -> same_history w w'.
Proof.
  unfold ExecuteLine.
  destruct (split_command (linebuf_ (term w))) as [command first_arg].
  set (w0 := set_term (set_linebuf command (term w)) w).
  assert (H0 : same_history w w0) by (apply same_history_intro; reflexivity).
  intros H. eapply same_history_trans; [exact H0|]. clearbody w0. clear H0.
  revert H.
  destruct (String.eqb command "echo").
  { intros H. injection H as <-. destruct first_arg; repeat history_step. }
  destruct (String.eqb command "clear").
  { intros H. injection H as <-. apply same_history_intro; reflexivity. }
  destruct (String.eqb command "lspci"); [apply same_history_lspci|].
  destruct (String.eqb command "ls").
  { destruct first_arg as [[|c a]|]; [| |discriminate].
    - intros H. injection H as <-. repeat history_step.
    - pose proof (same_history_FindFile (Some (String c a)) w0) as HF.
      destruct (call_FindFile _ w0) as [w1 [[d|] post_slash]]; cbn [fst] in HF.
      + destruct (attr d =? kDirectory); [|destruct post_slash];
          intros H; injection H as <-;
          (eapply same_history_trans; [exact HF|]); repeat history_step.
      + intros H; injection H as <-.
        eapply same_history_trans; [exact HF|]. repeat history_step. }
  destruct (String.eqb command "cat").
  { pose proof (same_history_FindFile first_arg w0) as HF.
    destruct (call_FindFile _ w0) as [w1 [[e|] post_slash]]; cbn [fst] in HF.
    - destruct (negb (attr e =? kDirectory) && post_slash);
        intros H; injection H as <-;
        (eapply same_history_trans; [exact HF|]); [repeat history_step|].
      apply same_history_intro; world_simpl;
        [apply cat_clusters_history..|reflexivity].
    - destruct first_arg as [a|]; [|discriminate].
      destruct (sprintf64 _) as [s|]; [|discriminate].
      intros H; injection H as <-.
      eapply same_history_trans; [exact HF|]. repeat history_step. }
  destruct (String.eqb command "noterm").
  { intros H. injection H as <-. apply same_history_intro; reflexivity. }
  destruct (String.eqb command "memstat").
  { destruct (Stat (machine w0)) as [a t].
    destruct (sprintf64 _) as [s1|]; [|discriminate].
    destruct (sprintf64 _) as [s2|]; [|discriminate].
    intros H. injection H as <-. repeat history_step. }
  destruct command as [|c command].
  { intros H. injection H as <-. apply same_history_refl. }
  pose proof (same_history_FindFile (Some (String c command)) w0) as HF.
  destruct (call_FindFile _ w0) as [w1 [[e|] post_slash]]; cbn [fst] in HF.
  - destruct (negb (attr e =? kDirectory) && post_slash).
    + intros H; injection H as <-.
      eapply same_history_trans; [exact HF|]. repeat history_step.
    + destruct (ExecuteFile e _ first_arg w1) as [w2 err] eqn:HE.
      apply same_history_ExecuteFile in HE.
      destruct (is_err err); intros H; injection H as <-;
        (eapply same_history_trans; [exact HF|]);
        (eapply same_history_trans; [exact HE|]); repeat history_step.
  - intros H; injection H as <-.
    eapply same_history_trans; [exact HF|]. repeat history_step.
Qed.

End HistoryFacts.

Lemma substring_all (s : string) : substring 0 (String.length s) s = s.
Proof.
  induction s as [|c s IH]; [reflexivity|].
  cbn [String.length substring]. rewrite IH. reflexivity.
Qed.

Section EditorClaims.
Context `{K : Kernel}.

(** Enter: a line that is not empty goes to the front of the history and
    the oldest entry is dropped; the index is reset to -1. *)
Lemma InputKey_enter (modifier keycode : Z) (w w' : World) :
  InputKey modifier keycode LF w = Ok w' ->
  let line := substring 0 (Z.to_nat (linebuf_index_ (term w))) (linebuf_ (term w)) in
  cmd_history_ (term w')
  = (if 0 <? linebuf_index_ (term w)
     then line :: removelast (cmd_history_ (term w))
     else cmd_history_ (term w))
  /\ cmd_history_index_ (term w') = -1.
Proof.
  unfold InputKey. cbn [Ascii.eqb LF ascii_of_nat ascii_of_pos Bool.eqb].
  match goal with |- context [ExecuteLine ?x] =>
    destruct (ExecuteLine x) as [w1|] eqn:HE; [|discriminate]
  end.
  intros H. injection H as <-. apply ExecuteLine_history in HE.
  destruct HE as (H1 & H2 & _).
  destruct (same_history_Print ">" w1) as (H3 & H4 & _).
  cbv zeta. rewrite H3, H4, H1, H2. clear. world_simpl. term_simpl.
  destruct (0 <? linebuf_index_ (term w)); term_simpl;
    destruct (cursor_y (term w) <? kRows - 1); term_simpl; auto.
Qed.

(** A line that was typed in full and is not empty is stored as it is. *)
Lemma InputKey_enter_line (modifier keycode : Z) (w w' : World) (c : string) :
  linebuf_ (term w) = c ->
  linebuf_index_ (term w) = strlen c ->
  c <> "" ->
  InputKey modifier keycode LF w = Ok w' ->
  cmd_history_ (term w') = c :: removelast (cmd_history_ (term w))
  /\ cmd_history_index_ (term w') = -1.
Proof.
  intros Hl Hi Hne H. apply InputKey_enter in H. cbv zeta in H.
  rewrite Hl, Hi in H. unfold strlen in H. rewrite Nat2Z.id, substring_all in H.
  replace (0 <? Z.of_nat (String.length c)) with true in H; [exact H|].
  symmetry. apply Z.ltb_lt. destruct c; [congruence|cbn [String.length]; lia].
Qed.

(** The up arrow and the down arrow reach [HistoryUpDown]. *)
Lemma InputKey_arrows (modifier : Z) (w : World) :
  InputKey modifier 0x52 NUL w = Ok (set_term (HistoryUpDown 1 (term w)) w)
  /\ InputKey modifier 0x51 NUL w = Ok (set_term (HistoryUpDown (-1) (term w)) w).
Proof. split; reflexivity. Qed.

(** One press of the up arrow below the last slot: one slot further. *)
Lemma HistoryUpDown_up (t : Terminal) (i : Z) :
  cmd_history_index_ t = i ->
  -1 <= i ->
  i + 1 < Z.of_nat (length (cmd_history_ t)) ->
  Z.of_nat (length (cmd_history_ t)) <= 2 ^ 64 ->
  cmd_history_ (HistoryUpDown 1 t) = cmd_history_ t
  /\ cmd_history_index_ (HistoryUpDown 1 t) = i + 1
  /\ linebuf_ (HistoryUpDown 1 t) = nth (Z.to_nat (i + 1)) (cmd_history_ t) ""
  /\ linebuf_index_ (HistoryUpDown 1 t) = strlen (linebuf_ (HistoryUpDown 1 t)).
Proof.
  intros Hi Hlo Hhi Hsz. unfold HistoryUpDown. rewrite Hi.
  cbn [Z.eqb andb Pos.eqb].
  rewrite wrap64_small by lia.
  replace (i + 1 <? Z.of_nat (length (cmd_history_ t))) with true
    by (symmetry; apply Z.ltb_lt; lia).
  term_simpl.
  replace (0 <=? i + 1) with true by (symmetry; apply Z.leb_le; lia).
  auto.
Qed.

(** A press of the up arrow on the last slot: the index stays. *)
Lemma HistoryUpDown_up_last (t : Terminal) :
  cmd_history_index_ t + 1 = Z.of_nat (length (cmd_history_ t)) ->
  0 <= cmd_history_index_ t ->
  Z.of_nat (length (cmd_history_ t)) < 2 ^ 64 ->
  cmd_history_ (HistoryUpDown 1 t) = cmd_history_ t
  /\ cmd_history_index_ (HistoryUpDown 1 t) = cmd_history_index_ t
  /\ linebuf_ (HistoryUpDown 1 t)
     = nth (Z.to_nat (cmd_history_index_ t)) (cmd_history_ t) "".
Proof.
  intros Hi Hlo Hsz. unfold HistoryUpDown.
  cbn [Z.eqb andb Pos.eqb].
  replace (wrap64 (cmd_history_index_ t + 1)
           <? Z.of_nat (length (cmd_history_ t))) with false.
  2:{ symmetry. apply Z.ltb_ge. rewrite wrap64_small by lia. lia. }
  term_simpl.
  replace (0 <=? cmd_history_index_ t) with true
    by (symmetry; apply Z.leb_le; lia).
  auto.
Qed.

(** A press of the down arrow at index -1: the index stays, the line is
    empty. *)
Lemma HistoryUpDown_down_first (t : Terminal) :
  cmd_history_index_ t = -1 ->
  cmd_history_index_ (HistoryUpDown (-1) t) = -1
  /\ linebuf_ (HistoryUpDown (-1) t) = "".
Proof.
  intros Hi. unfold HistoryUpDown. rewrite Hi.
  cbn [Z.eqb andb Pos.eqb Z.leb Z.compare]. term_simpl. rewrite Hi.
  cbn [Z.leb Z.compare]. auto.
Qed.

End EditorClaims.

Section HistoryClaim.
Context `{K : Kernel}.

(** [n] presses of the up arrow from index -1 on a history of eight slots:
    each press goes one slot further, up to the eighth. *)
Lemma HistoryUpDown_presses (t : Terminal) (n : nat) :
  length (cmd_history_ t) = 8%nat ->
  cmd_history_index_ t = -1 ->
  cmd_history_ (Nat.iter n (HistoryUpDown 1) t) = cmd_history_ t
  /\ cmd_history_index_ (Nat.iter n (HistoryUpDown 1) t)
     = Z.of_nat (Nat.min n 8) - 1
  /\ ((1 <= n)%nat ->
      linebuf_ (Nat.iter n (HistoryUpDown 1) t)
      = nth (Nat.min n 8 - 1) (cmd_history_ t) "").
Proof.
  intros Hlen Hidx. induction n as [|n IH].
  - cbn [Nat.iter nat_rect Nat.min]. rewrite Hidx. repeat split. lia.
  - cbn [Nat.iter nat_rect]. fold (Nat.iter n (HistoryUpDown 1) t). destruct IH as (Hh & Hi & Hl).
    destruct (Nat.lt_ge_cases n 8) as [Hlt|Hge].
    + assert (A1 : -1 <= Z.of_nat (Nat.min n 8) - 1) by lia.
      assert (A2 : Z.of_nat (Nat.min n 8) - 1 + 1
                   < Z.of_nat (length (cmd_history_
                                         (Nat.iter n (HistoryUpDown 1) t))))
        by (rewrite Hh, Hlen; lia).
      assert (A3 : Z.of_nat (length (cmd_history_
                                       (Nat.iter n (HistoryUpDown 1) t)))
                   <= 2 ^ 64)
        by (rewrite Hh, Hlen; lia).
      destruct (HistoryUpDown_up _ _ Hi A1 A2 A3) as (G1 & G2 & G3 & _).
      rewrite G1, G2, G3, Hh.
      replace (Nat.min n 8) with n by lia.
      replace (Nat.min (S n) 8) with (S n) by lia.
      repeat split; [lia|]. intros _. f_equal. lia.
    + assert (A1 : cmd_history_index_ (Nat.iter n (HistoryUpDown 1) t) + 1
                   = Z.of_nat (length (cmd_history_
                                         (Nat.iter n (HistoryUpDown 1) t))))
        by (rewrite Hi, Hh, Hlen; lia).
      assert (A2 : 0 <= cmd_history_index_ (Nat.iter n (HistoryUpDown 1) t))
        by (rewrite Hi; lia).
      assert (A3 : Z.of_nat (length (cmd_history_
                                       (Nat.iter n (HistoryUpDown 1) t)))
                   < 2 ^ 64)
        by (rewrite Hh, Hlen; lia).
      destruct (HistoryUpDown_up_last _ A1 A2 A3) as (G1 & G2 & G3).
      rewrite G1, G2, G3, Hh, Hi.
      replace (Nat.min n 8) with 8%nat by lia.
      replace (Nat.min (S n) 8) with 8%nat by lia.
      repeat split.
Qed.

(** C7 as amended.  Three commands that are not empty are entered one after
    another on a terminal whose history has its eight slots.  Then the first
    three presses of the up arrow bring them back, the newest first.  The
    fourth press goes on to the fourth slot: the line becomes what was the
    newest entry before the three commands, the empty line on a fresh
    terminal.  Only from the eighth press on does a press change nothing
    more; and the down arrow from the start leaves the line empty. *)
Theorem history_navigation_walks_eight_slots
  (u1 u2 u3 w1 w2 w3 : World) (c1 c2 c3 : string) (modifier keycode : Z) :
  length (cmd_history_ (term u1)) = 8%nat ->
  line_typed c1 u1 -> InputKey modifier keycode LF u1 = Ok w1 ->
  line_typed c2 u2 -> cmd_history_ (term u2) = cmd_history_ (term w1) ->
  InputKey modifier keycode LF u2 = Ok w2 ->
  line_typed c3 u3 -> cmd_history_ (term u3) = cmd_history_ (term w2) ->
  InputKey modifier keycode LF u3 = Ok w3 ->
  let before := cmd_history_ (term u1) in
  (linebuf_ (presses_up 1 (term w3)) = c3
   /\ linebuf_ (presses_up 2 (term w3)) = c2
   /\ linebuf_ (presses_up 3 (term w3)) = c1)
  /\ (linebuf_ (presses_up 4 (term w3)) = nth 0 before ""
      /\ cmd_history_index_ (presses_up 4 (term w3)) = 3)
  /\ (forall n, (8 <= n)%nat ->
        cmd_history_index_ (presses_up n (term w3)) = 7
        /\ linebuf_ (presses_up n (term w3)) = nth 4 before "")
  /\ (cmd_history_index_ (HistoryUpDown (-1) (term w3)) = -1
      /\ linebuf_ (HistoryUpDown (-1) (term w3)) = "").
Proof.
  intros Hlen (L1 & I1 & N1) E1 (L2 & I2 & N2) H2 E2 (L3 & I3 & N3) H3 E3.
  assert (Hne : forall c, 0 < strlen c -> c <> "").
  { intros c Hc ->. unfold strlen in Hc. cbn [String.length Z.of_nat] in Hc. lia. }
  destruct (InputKey_enter_line _ _ _ _ _ L1 I1 (Hne _ N1) E1) as [G1 _].
  destruct (InputKey_enter_line _ _ _ _ _ L2 I2 (Hne _ N2) E2) as [G2 _].
  destruct (InputKey_enter_line _ _ _ _ _ L3 I3 (Hne _ N3) E3) as [G3 J3].
  rewrite H3, G2, H2, G1 in G3. clear G1 G2 H2 H3.
  cbv zeta. unfold presses_up.
  destruct (cmd_history_ (term u1))
    as [|a0 [|a1 [|a2 [|a3 [|a4 [|a5 [|a6 [|a7 [|a8 rest]]]]]]]]];
    try discriminate Hlen.
  cbn [removelast] in G3.
  assert (Hlen3 : length (cmd_history_ (term w3)) = 8%nat)
    by (rewrite G3; reflexivity).
  pose proof (fun n => HistoryUpDown_presses (term w3) n Hlen3 J3) as P.
  rewrite G3 in P.
  split; [|split; [|split]].
  - destruct (P 1%nat) as (_ & _ & A1), (P 2%nat) as (_ & _ & A2),
             (P 3%nat) as (_ & _ & A3).
    cbn [Nat.min Nat.sub nth] in A1, A2, A3.
    split; [apply A1; lia|split; [apply A2; lia|apply A3; lia]].
  - destruct (P 4%nat) as (_ & B1 & B2).
    cbn [Nat.min Nat.sub nth] in B1, B2.
    split; [apply B2; lia|rewrite B1; reflexivity].
  - intros n Hn. destruct (P n) as (_ & C1 & C2).
    replace (Nat.min n 8) with 8%nat in C1, C2 by lia.
    split; [rewrite C1; reflexivity|]. rewrite C2 by lia. reflexivity.
  - apply HistoryUpDown_down_first, J3.
Qed.

End HistoryClaim.

(** ** The terminal file descriptor *)

Section FileDescriptorClaims.
Context `{K : Kernel}.

Lemma Read_passes_over (len : Z) (skipped msgs : list Message) (t : Terminal) :
  forallb passed_over skipped = true ->
  Read len (skipped ++ msgs) t = Read len msgs t.
Proof.
  induction skipped as [|m rest IH]; cbn [forallb app]; [reflexivity|].
  intros H. apply andb_prop in H. destruct H as [Hm Hrest].
  destruct m as [modifier keycode ascii press|ty]; cbn [Read passed_over] in *.
  - rewrite Hm. apply IH, Hrest.
  - apply IH, Hrest.
Qed.

(** C9.  [Read] passes over every message that is not a key press.  On a key
    press with a control modifier it prints the two bytes of its echo, the
    caret and the upper-case form of the key's character (the caret alone
    when that character is 0); with keycode 7 (D) it then returns 0 with
    nothing stored, with any other keycode it goes on with the next
    message.  On a key press without control modifier it stores the
    character, prints it and returns 1.  What is printed is added to what
    the terminal has printed.  [Write] prints the [len] bytes and returns
    [len]; [Load] returns 0. *)
Theorem TerminalFileDescriptor_contract :
  let echo := fun c : ascii =>
                String "^" (if Ascii.eqb (toupper c) NUL then ""
                            else String (toupper c) "") in
  (forall (len modifier : Z) (ascii : ascii) (skipped rest : list Message)
          (t : Terminal),
     forallb passed_over skipped = true ->
     control_held modifier = true ->
     Read len (skipped ++ kKeyPush modifier 7 ascii true :: rest) t
     = Returned 0 None rest (Print (echo ascii) t)
     /\ printed_ (Print (echo ascii) t) = printed_ t +++ echo ascii)
  /\ (forall (len modifier keycode : Z) (ascii : ascii)
             (skipped rest : list Message) (t : Terminal),
      forallb passed_over skipped = true ->
      control_held modifier = true ->
      keycode <> 7 ->
      Read len (skipped ++ kKeyPush modifier keycode ascii true :: rest) t
      = Read len rest (Print (echo ascii) t)
      /\ printed_ (Print (echo ascii) t) = printed_ t +++ echo ascii)
  /\ (forall (len modifier keycode : Z) (ascii : ascii)
             (skipped rest : list Message) (t : Terminal),
      forallb passed_over skipped = true ->
      control_held modifier = false ->
      Read len (skipped ++ kKeyPush modifier keycode ascii true :: rest) t
      = Returned 1 (Some ascii) rest (Print (String ascii "") t)
      /\ printed_ (Print (String ascii "") t) = printed_ t +++ String ascii "")
  /\ (forall (buf : string) (len : Z) (t : Terminal),
      snd (Write buf len t) = len
      /\ printed_ (fst (Write buf len t))
         = printed_ t +++ substring 0 (Z.to_nat len) buf)
  /\ (forall len offset : Z, Load len offset = 0).
Proof.
  cbv zeta.
  assert (Hcaret : forall c,
            caret c = String "^" (if Ascii.eqb (toupper c) NUL then ""
                                  else String (toupper c) "")).
  { intros c. unfold caret. destruct (Ascii.eqb (toupper c) NUL); reflexivity. }
  split; [|split; [|split; [|split]]].
  - intros len modifier ascii skipped rest t Hskip Hc.
    rewrite (Read_passes_over _ _ _ _ Hskip). unfold control_held in Hc.
    cbn [Read negb]. rewrite Hc, Hcaret. cbn [Z.eqb Pos.eqb].
    split; [reflexivity|apply Print_editor].
  - intros len modifier keycode ascii skipped rest t Hskip Hc Hk.
    rewrite (Read_passes_over _ _ _ _ Hskip). unfold control_held in Hc.
    cbn [Read negb]. rewrite Hc, Hcaret. apply Z.eqb_neq in Hk. rewrite Hk.
    split; [reflexivity|apply Print_editor].
  - intros len modifier keycode ascii skipped rest t Hskip Hc.
    rewrite (Read_passes_over _ _ _ _ Hskip). unfold control_held in Hc.
    cbn [Read negb]. rewrite Hc.
    split; [reflexivity|apply Print_editor].
  - intros buf len t. unfold Write. cbn [fst snd].
    split; [reflexivity|apply Print_editor].
  - reflexivity.
Qed.

(** With no message left the task sleeps and [Read] does not return. *)
Lemma Read_sleeps_on_empty_queue (len : Z) (skipped : list Message)
  (t : Terminal) :
  forallb passed_over skipped = true -> Read len skipped t = Asleep t.
Proof.
  intros H. rewrite <- (app_nil_r skipped), (Read_passes_over _ _ _ _ H).
  reflexivity.
Qed.

End FileDescriptorClaims.

(** ** The dispatch of a command line *)

Section DispatchClaims.
Context `{K : Kernel}.

Lemma ExecuteLine_ls_null (w : World) :
  linebuf_ (term w) = "ls" -> ExecuteLine w = Crash NullDereference.
Proof. intros H. unfold ExecuteLine. rewrite H. reflexivity. Qed.

(** C10 as amended.  The line "ls" with no argument: [strchr] finds no
    space, [first_arg] is null, and the [ls] branch reads [first_arg[0]].
    Entered at the keyboard, the line ends [InputKey] in the same way.  Of
    the other built-in branches only [echo] tests [first_arg] before using
    it, and prints the empty line.  The [cat] branch does not: it hands the
    null [first_arg] to [fat::FindFile], and to the "%s" of [sprintf] when
    no file is found.  [noterm] hands it on, untested, as the data of the
    new task.  [clear], [lspci] and [memstat] do not use [first_arg]: they
    run as on the line that holds the command alone. *)
Theorem ExecuteLine_ls_reads_null_first_arg (w : World) (modifier keycode : Z) :
  ExecuteLine (with_line "ls" w) = Crash NullDereference
  /\ InputKey modifier keycode LF (with_line "ls" w) = Crash NullDereference
  /\ ExecuteLine (with_line "echo" w)
     = Ok (term_Print endl (with_line "echo" w))
  /\ (fst (FindFile (machine w) None) = None ->
      ExecuteLine (with_line "cat" w) = Crash NullDereference)
  /\ (forall w', ExecuteLine (with_line "cat" w) = Ok w' ->
        trace w' = trace w ++ [EFindFile None])
  /\ ExecuteLine (with_line "noterm" w)
     = Ok (log (ENewTask None) (with_line "noterm" w))
  /\ (forall (c : string) (first_arg : option string),
      In c ["clear"; "lspci"; "memstat"] ->
      split_command (linebuf_ (term w)) = (c, first_arg) ->
      ExecuteLine w = ExecuteLine (set_term (set_linebuf c (term w)) w)).
Proof.
  split; [reflexivity|]. split.
  - unfold InputKey, with_line. world_simpl. term_simpl.
    cbn [Ascii.eqb LF ascii_of_nat ascii_of_pos Bool.eqb].
    replace (0 <? strlen "ls") with true by reflexivity.
    replace (substring 0 (Z.to_nat (strlen "ls")) "ls") with "ls"
      by reflexivity.
    term_simpl.
    rewrite ExecuteLine_ls_null; [reflexivity|].
    destruct (cursor_y (term w) <? kRows - 1); reflexivity.
  - split; [reflexivity|].
    assert (Hcat : ExecuteLine (with_line "cat" w)
                   = let w0 := log (EFindFile None)
                                 (set_term (set_linebuf "cat" (term (with_line "cat" w)))
                                    (with_line "cat" w)) in
                     match FindFile (machine w) None with
                     | (None, _) => Crash NullDereference
                     | (Some e, post_slash) =>
                         if negb (attr e =? kDirectory) && post_slash
                         then Ok (term_Print (" is not a directory" +++ endl)
                                    (term_Print (formatted_name e) w0))
                         else Ok (set_term
                                    (cat_clusters
                                       (file_clusters (machine w0) (first_cluster e))
                                       (file_size e) (term w0)) w0)
                     end).
    { unfold ExecuteLine, with_line, call_FindFile. world_simpl. term_simpl.
      cbn [split_command Ascii.eqb Bool.eqb String.eqb].
      destruct (FindFile (machine w) None) as [[e|] post_slash]; reflexivity. }
    rewrite Hcat. cbv zeta. split; [|split; [|split]].
    + destruct (FindFile (machine w) None) as [[e|] post_slash];
        cbn [fst]; [discriminate|reflexivity].
    + intros w'.
      destruct (FindFile (machine w) None) as [[e|] post_slash];
        [|discriminate].
      destruct (negb (attr e =? kDirectory) && post_slash);
        intros H; injection H as <-; reflexivity.
    + reflexivity.
    + intros c first_arg Hc Hs. unfold ExecuteLine. rewrite Hs.
      cbn [In] in Hc. destruct Hc as [<-|[<-|[<-|[]]]]; reflexivity.
Qed.

End DispatchClaims.

(* ================================================================= *)
(** * Further properties of the code *)

(** ** The layout of the argument page *)

Module ArgVectorLayout.
Import ArgVector ArgSpec ArgVectorFacts.

Lemma arg_loop_push_all (fuel : nat) (al bl : Z) :
  forall (p : string) (st : State) (r : State * Error),
  arg_loop fuel al bl p st = Some r ->
  r = push_all al bl st (tokens fuel p).
Proof.
  induction fuel as [|fuel IH]; intros p st r H; [discriminate|].
  cbn [arg_loop tokens] in H |- *.
  destruct (skip_spaces p) as [|c q] eqn:Hs.
  - injection H as <-. reflexivity.
  - destruct (scan_arg (String c q)) as [a p2] eqn:Ha.
    cbn [push_all].
    destruct (push_to_argv al bl st a) as [st1 e1] eqn:Hp.
    destruct (is_err e1) eqn:He.
    + injection H as <-. reflexivity.
    + destruct p2 as [|d p3].
      * injection H as <-. cbn [push_all].
        destruct e1; try discriminate He. reflexivity.
      * apply IH, H.
Qed.

(** [MakeArgVector] pushes the strings of the argument list in order. *)
Lemma MakeArgVector_push_all (command : string) (first_arg : option string)
  (al bl : Z) :
  MakeArgVector command first_arg al bl
  = push_all al bl init (argument_list command first_arg).
Proof.
  unfold MakeArgVector, argument_list. cbn [push_all].
  destruct (push_to_argv al bl init command) as [st1 e1] eqn:Hp.
  destruct (is_err e1) eqn:He; [reflexivity|].
  destruct first_arg as [p|].
  - destruct (arg_loop_fuel (S (String.length p)) al bl p st1) as [r Hr]; [lia|].
    rewrite Hr. apply arg_loop_push_all, Hr.
  - cbn [push_all]. destruct e1; try discriminate He. reflexivity.
Qed.

Lemma packed_size_nonneg (l : list string) : 0 <= packed_size l.
Proof.
  induction l as [|s l IH]; cbn [packed_size fold_right]; [lia|].
  fold (packed_size l). unfold strlen. lia.
Qed.

Lemma packed_size_cons (s : string) (l : list string) :
  packed_size (s :: l) = strlen s + 1 + packed_size l.
Proof. reflexivity. Qed.

Lemma packed_size_app (a b : list string) :
  packed_size (a ++ b) = packed_size a + packed_size b.
Proof.
  induction a as [|s a IH]; [reflexivity|].
  cbn [app]. rewrite !packed_size_cons, IH. lia.
Qed.

Lemma push_to_argv_ok (al bl : Z) (st : State) (s : string) :
  argc st < al -> argbuf_index st < bl ->
  push_to_argv al bl st s
  = (mkState (argc st + 1) (argbuf_index st + (strlen s + 1))
       (<[argc st := argbuf_index st]> (argv st))
       (strcpy (argbuf st) (argbuf_index st) s), kSuccess).
Proof.
  intros H1 H2. unfold push_to_argv.
  replace (al <=? argc st) with false by (symmetry; apply Z.leb_gt; lia).
  replace (bl <=? argbuf_index st) with false by (symmetry; apply Z.leb_gt; lia).
  reflexivity.
Qed.

Lemma push_to_argv_full (al bl : Z) (st : State) (s : string) :
  al <= argc st \/ bl <= argbuf_index st ->
  push_to_argv al bl st s = (st, kFull).
Proof.
  intros H. unfold push_to_argv.
  destruct (al <=? argc st) eqn:E1; [reflexivity|].
  destruct (bl <=? argbuf_index st) eqn:E2; [reflexivity|].
  apply Z.leb_gt in E1, E2. lia.
Qed.

Lemma push_all_result (al bl : Z) (l : list string) :
  forall st,
  l <> [] ->
  (snd (push_all al bl st l) = kSuccess
   <-> argc st + Z.of_nat (length l) <= al
       /\ argbuf_index st + packed_size (removelast l) < bl)
  /\ (snd (push_all al bl st l) = kSuccess \/ snd (push_all al bl st l) = kFull)
  /\ (snd (push_all al bl st l) = kSuccess ->
      argc (fst (push_all al bl st l)) = argc st + Z.of_nat (length l)
      /\ argbuf_index (fst (push_all al bl st l))
         = argbuf_index st + packed_size l).
Proof.
  induction l as [|s l IH]; intros st Hne; [congruence|].
  cbn [push_all].
  destruct (Z_lt_dec (argc st) al) as [H1|H1];
    [destruct (Z_lt_dec (argbuf_index st) bl) as [H2|H2]|].
  - rewrite push_to_argv_ok by assumption. cbn [is_err].
    destruct l as [|s' l'].
    + cbn [push_all snd fst argc argbuf_index removelast length].
      rewrite packed_size_cons. cbn [packed_size fold_right].
      split; [split; [intros _; lia|reflexivity]|].
      split; [left; reflexivity|]. intros _. lia.
    + specialize (IH (mkState (argc st + 1) (argbuf_index st + (strlen s + 1))
                        (<[argc st := argbuf_index st]> (argv st))
                        (strcpy (argbuf st) (argbuf_index st) s))
                     ltac:(discriminate)).
      cbn [argc argbuf_index] in IH.
      destruct IH as (IH1 & IH2 & IH3).
      change (removelast (s :: s' :: l')) with (s :: removelast (s' :: l')).
      rewrite !packed_size_cons in *. cbn [length] in *.
      split; [rewrite IH1; lia|]. split; [exact IH2|].
      intros Hs. destruct (IH3 Hs) as [-> ->]. lia.
  - rewrite push_to_argv_full by lia. cbn [is_err snd fst].
    split; [split; [discriminate|]|split; [right; reflexivity|discriminate]].
    intros [_ Hb]. exfalso.
    pose proof (packed_size_nonneg (removelast (s :: l))). lia.
  - rewrite push_to_argv_full by lia. cbn [is_err snd fst].
    split; [split; [discriminate|]|split; [right; reflexivity|discriminate]].
    intros [Ha _]. cbn [length] in Ha. lia.
Qed.

(** X1.  [MakeArgVector] answers [kSuccess] or [kFull], and [kSuccess]
    exactly when the argument list has at most [argv_len] strings and its
    last string starts inside the buffer: the packed size of the strings
    before it is below [argbuf_len].  The length of a string is not part of
    the test.  On success [argc] is the number of strings and
    [argbuf_index] their packed size. *)
Theorem MakeArgVector_succeeds_iff (command : string)
  (first_arg : option string) (argv_len argbuf_len : Z) :
  let l := argument_list command first_arg in
  let r := MakeArgVector command first_arg argv_len argbuf_len in
  (snd r = kSuccess
   <-> Z.of_nat (length l) <= argv_len
       /\ packed_size (removelast l) < argbuf_len)
  /\ (snd r = kSuccess \/ snd r = kFull)
  /\ (snd r = kSuccess ->
      argc (fst r) = Z.of_nat (length l)
      /\ argbuf_index (fst r) = packed_size l).
Proof.
  cbv zeta. rewrite MakeArgVector_push_all.
  assert (Hne : argument_list command first_arg <> [])
    by (unfold argument_list; discriminate).
  destruct (push_all_result argv_len argbuf_len _ init Hne) as (H1 & H2 & H3).
  cbn [argc argbuf_index init] in H1, H3.
  rewrite !Z.add_0_l in *. auto.
Qed.

(** *** What [strcpy] stores *)

Lemma strcpy_lookup_lt (s : string) :
  forall (buf : gmap Z ascii) (at_ k : Z),
  k < at_ -> strcpy buf at_ s !! k = buf !! k.
Proof.
  induction s as [|c s IH]; intros buf at_ k Hk; cbn [strcpy].
  - apply lookup_insert_ne. lia.
  - rewrite IH by lia. apply lookup_insert_ne. lia.
Qed.

Lemma strcpy_lookup_gt (s : string) :
  forall (buf : gmap Z ascii) (at_ k : Z),
  at_ + strlen s < k -> strcpy buf at_ s !! k = buf !! k.
Proof.
  induction s as [|c s IH]; intros buf at_ k Hk; cbn [strcpy];
    unfold strlen in *; cbn [String.length] in Hk.
  - apply lookup_insert_ne. lia.
  - rewrite IH by lia. apply lookup_insert_ne. lia.
Qed.

Lemma strcpy_stored (s : string) :
  forall (buf : gmap Z ascii) (at_ k : Z),
  at_ <= k <= at_ + strlen s -> is_Some (strcpy buf at_ s !! k).
Proof.
  induction s as [|c s IH]; intros buf at_ k Hk; cbn [strcpy];
    unfold strlen in *; cbn [String.length] in Hk.
  - replace k with at_ by lia. rewrite lookup_insert_eq. eauto.
  - destruct (Z.eq_dec k at_) as [->|Hne].
    + rewrite strcpy_lookup_lt by lia. rewrite lookup_insert_eq. eauto.
    + apply IH. lia.
Qed.

Lemma strcpy_cstring (s : string) :
  forall (buf : gmap Z ascii) (at_ : Z),
  cstring_at (strcpy buf at_ s) at_ s = true.
Proof.
  induction s as [|c s IH]; intros buf at_; cbn [strcpy cstring_at].
  - rewrite lookup_insert_eq. apply Ascii.eqb_refl.
  - rewrite strcpy_lookup_lt by lia. rewrite lookup_insert_eq.
    rewrite Ascii.eqb_refl. cbn [andb]. apply IH.
Qed.

Lemma cstring_at_ext (s : string) :
  forall (buf buf' : gmap Z ascii) (at_ : Z),
  (forall k, at_ <= k <= at_ + strlen s -> buf' !! k = buf !! k) ->
  cstring_at buf' at_ s = cstring_at buf at_ s.
Proof.
  induction s as [|c s IH]; intros buf buf' at_ H; cbn [cstring_at];
    unfold strlen in *; cbn [String.length] in H.
  - rewrite H by lia. reflexivity.
  - rewrite H by lia. f_equal. apply IH. intros k Hk. apply H. lia.
Qed.

Lemma laid_out_init : laid_out init [].
Proof.
  unfold laid_out. cbn [init argc argbuf_index argv argbuf length packed_size
                        fold_right].
  split; [reflexivity|]. split; [reflexivity|]. split.
  - intros [|i] s H; discriminate H.
  - split; intros k; rewrite lookup_empty; split;
      try (intros [x Hx]; discriminate Hx); cbn; lia.
Qed.

Lemma offset_of_app (done : list string) (s : string) (i : nat) :
  (i <= length done)%nat -> offset_of (done ++ [s]) i = offset_of done i.
Proof.
  intros Hi. unfold offset_of. rewrite firstn_app.
  replace (i - length done)%nat with O by lia.
  cbn [firstn]. rewrite app_nil_r. reflexivity.
Qed.

Lemma offset_of_length (done : list string) :
  offset_of done (length done) = packed_size done.
Proof. unfold offset_of. rewrite firstn_all. reflexivity. Qed.

Lemma offset_of_bound (done : list string) (i : nat) (s : string) :
  nth_error done i = Some s ->
  0 <= offset_of done i /\ offset_of done i + strlen s + 1 <= packed_size done.
Proof.
  revert i; induction done as [|d done IH]; intros [|i] H; try discriminate H.
  - cbn [nth_error] in H. injection H as ->. unfold offset_of.
    cbn [firstn]. rewrite packed_size_cons.
    pose proof (packed_size_nonneg done). cbn [packed_size fold_right]. lia.
  - cbn [nth_error] in H. apply IH in H. unfold offset_of in *.
    cbn [firstn]. rewrite !packed_size_cons. unfold strlen in *. lia.
Qed.

Lemma laid_out_push (al bl : Z) (st : State) (done : list string) (s : string) :
  laid_out st done ->
  argc st < al -> argbuf_index st < bl ->
  laid_out (fst (push_to_argv al bl st s)) (done ++ [s]).
Proof.
  intros (Hc & Hi & Hs & Hv & Hb) H1 H2.
  rewrite push_to_argv_ok by assumption. cbn [fst].
  unfold laid_out. cbn [argc argbuf_index argv argbuf].
  rewrite length_app, packed_size_app, packed_size_cons. cbn [length].
  cbn [packed_size fold_right].
  pose proof (packed_size_nonneg done) as Hp.
  split; [lia|]. split; [lia|]. split; [|split].
  - intros i t Hn.
    destruct (Nat.lt_ge_cases i (length done)) as [Hlt|Hge].
    + rewrite nth_error_app1 in Hn by exact Hlt.
      rewrite offset_of_app by lia.
      destruct (Hs _ _ Hn) as [Ha Hcs].
      destruct (offset_of_bound _ _ _ Hn) as [Ho1 Ho2].
      split.
      * rewrite lookup_insert_ne by lia. exact Ha.
      * rewrite <- Hcs. apply cstring_at_ext. intros k Hk.
        apply strcpy_lookup_lt. lia.
    + rewrite nth_error_app2 in Hn by exact Hge.
      destruct (i - length done)%nat as [|j] eqn:Hj;
        [|destruct j; discriminate Hn].
      cbn [nth_error] in Hn. injection Hn as <-.
      assert (i = length done) as -> by lia.
      rewrite offset_of_app by lia. rewrite offset_of_length.
      rewrite <- Hc, <- Hi. split.
      * apply lookup_insert_eq.
      * apply strcpy_cstring.
  - intros i. destruct (Z.eq_dec i (argc st)) as [->|Hne].
    + rewrite lookup_insert_eq. split; [intros _; lia|eauto].
    + rewrite lookup_insert_ne by congruence. rewrite Hv. lia.
  - intros k. unfold strlen in *.
    destruct (Z_lt_dec k (argbuf_index st)) as [Hlt|Hge].
    + rewrite strcpy_lookup_lt by exact Hlt. rewrite Hb. lia.
    + destruct (Z_le_dec k (argbuf_index st + strlen s)) as [Hle|Hgt].
      * split; [intros _; unfold strlen in *; lia|].
        intros _. apply strcpy_stored. lia.
      * rewrite strcpy_lookup_gt by lia. rewrite Hb. unfold strlen in *. lia.
Qed.

Lemma push_all_laid_out (al bl : Z) (l : list string) :
  forall (st : State) (done : list string),
  laid_out st done ->
  snd (push_all al bl st l) = kSuccess ->
  laid_out (fst (push_all al bl st l)) (done ++ l).
Proof.
  induction l as [|s l IH]; intros st done Hinv Hok; cbn [push_all] in *.
  - rewrite app_nil_r. exact Hinv.
  - destruct (Z_lt_dec (argc st) al) as [H1|H1];
      [destruct (Z_lt_dec (argbuf_index st) bl) as [H2|H2]|].
    + pose proof (laid_out_push al bl st done s Hinv H1 H2) as Hnext.
      rewrite push_to_argv_ok in Hok, Hnext |- * by assumption.
      cbn [is_err fst] in *.
      replace (done ++ s :: l) with ((done ++ [s]) ++ l)
        by (rewrite <- app_assoc; reflexivity).
      apply IH; assumption.
    + rewrite push_to_argv_full in Hok by lia. discriminate Hok.
    + rewrite push_to_argv_full in Hok by lia. discriminate Hok.
Qed.

(** X2.  When [MakeArgVector] succeeds, [argv] and [argbuf] hold the
    argument list: pointer [i] designates the offset at which string [i]
    starts in the packed list, and from that offset on [argbuf] holds the
    bytes of string [i] followed by a NUL. *)
Theorem MakeArgVector_lays_out_the_argument_list (command : string)
  (first_arg : option string) (argv_len argbuf_len : Z) (i : nat) (s : string) :
  let l := argument_list command first_arg in
  let r := MakeArgVector command first_arg argv_len argbuf_len in
  snd r = kSuccess ->
  nth_error l i = Some s ->
  argv (fst r) !! Z.of_nat i = Some (offset_of l i)
  /\ cstring_at (argbuf (fst r)) (offset_of l i) s = true.
Proof.
  cbv zeta. rewrite MakeArgVector_push_all. intros Hok Hn.
  pose proof (push_all_laid_out argv_len argbuf_len _ init [] laid_out_init Hok)
    as (_ & _ & Hs & _).
  cbn [app] in Hs. apply Hs, Hn.
Qed.

(** X3.  When [MakeArgVector] succeeds, the pointers it has stored are
    exactly [argv[0]] to [argv[argc - 1]], and the bytes it has stored are
    exactly those at the offsets from 0 up to the packed size of the
    argument list: the stores stay inside [argbuf] if and only if the packed
    size is at most [argbuf_len]. *)
Theorem MakeArgVector_stores_exactly_the_packed_size (command : string)
  (first_arg : option string) (argv_len argbuf_len : Z) :
  let l := argument_list command first_arg in
  let r := MakeArgVector command first_arg argv_len argbuf_len in
  snd r = kSuccess ->
  (forall i, is_Some (argv (fst r) !! i) <-> 0 <= i < argc (fst r))
  /\ argc (fst r) <= argv_len
  /\ (forall k, is_Some (argbuf (fst r) !! k) <-> 0 <= k < packed_size l)
  /\ ((forall k, is_Some (argbuf (fst r) !! k) -> 0 <= k < argbuf_len)
      <-> packed_size l <= argbuf_len).
Proof.
  cbv zeta. intros Hok.
  rewrite MakeArgVector_push_all in *.
  assert (Hne : argument_list command first_arg <> [])
    by (unfold argument_list; discriminate).
  destruct (push_all_result argv_len argbuf_len _ init Hne) as (Hiff & _ & Hres).
  cbn [argc argbuf_index init] in Hiff, Hres. rewrite !Z.add_0_l in *.
  destruct (Hres Hok) as [Hc _]. apply Hiff in Hok as Hfit.
  pose proof (push_all_laid_out argv_len argbuf_len _ init [] laid_out_init Hok)
    as (_ & _ & _ & Hv & Hb).
  cbn [app] in Hv, Hb.
  split; [intros i; rewrite Hv, Hc; reflexivity|].
  split; [lia|]. split; [exact Hb|].
  pose proof (packed_size_nonneg (argument_list command first_arg)) as Hp.
  assert (Hpos : 0 < packed_size (argument_list command first_arg)).
  { unfold argument_list. rewrite packed_size_cons.
    pose proof (packed_size_nonneg
                  match first_arg with
                  | Some p => tokens (S (String.length p)) p
                  | None => []
                  end). unfold strlen. lia. }
  split.
  - intros H.
    specialize (H (packed_size (argument_list command first_arg) - 1)).
    rewrite Hb in H. lia.
  - intros H k Hk. apply Hb in Hk. lia.
Qed.

(** *** The tokens *)

Lemma remove_spaces_skip (p : string) :
  remove_spaces (skip_spaces p) = remove_spaces p.
Proof.
  induction p as [|c p IH]; [reflexivity|].
  cbn [skip_spaces remove_spaces].
  destruct (isspace c) eqn:E; [exact IH|].
  cbn [remove_spaces]. rewrite E. reflexivity.
Qed.

Lemma scan_arg_spec (p : string) :
  forall a r, scan_arg p = (a, r) ->
  no_space a = true
  /\ remove_spaces p = a +++ remove_spaces r
  /\ (forall c q, p = String c q -> isspace c = false -> a <> "")
  /\ (forall d p3, r = String d p3 -> isspace d = true).
Proof.
  induction p as [|c p IH]; intros a r H; cbn [scan_arg] in H.
  - injection H as <- <-. repeat split; try reflexivity; discriminate.
  - destruct (isspace c) eqn:E.
    + injection H as <- <-. split; [reflexivity|]. split; [reflexivity|].
      split; [intros c' q Hp; injection Hp as -> _; congruence|].
      intros d p3 Hp; injection Hp as <- _; exact E.
    + destruct (scan_arg p) as [a' r'] eqn:Hs. injection H as <- <-.
      destruct (IH _ _ eq_refl) as (H1 & H2 & _ & H4).
      cbn [no_space remove_spaces]. rewrite E, H1, H2.
      split; [reflexivity|]. split; [rewrite append_cons; reflexivity|].
      split; [discriminate|exact H4].
Qed.

Lemma tokens_spec (fuel : nat) :
  forall p, (String.length p < fuel)%nat ->
  Forall (fun t => t <> "" /\ no_space t = true) (tokens fuel p)
  /\ join (tokens fuel p) = remove_spaces p.
Proof.
  induction fuel as [|fuel IH]; intros p Hlt; [lia|].
  cbn [tokens]. rewrite <- (remove_spaces_skip p).
  destruct (skip_spaces p) as [|c q] eqn:Hs; [split; [constructor|reflexivity]|].
  pose proof (skip_spaces_head _ _ _ Hs) as Hc.
  destruct (scan_arg (String c q)) as [a p2] eqn:Ha.
  destruct (scan_arg_spec _ _ _ Ha) as (H1 & H2 & H3 & H4).
  specialize (H3 _ _ eq_refl Hc).
  destruct p2 as [|d p3].
  - split; [repeat constructor; assumption|].
    rewrite H2. reflexivity.
  - pose proof (round_shrinks _ _ _ _ _ _ Hs Ha) as Hsh.
    destruct (IH p3 ltac:(lia)) as [F J].
    split; [constructor; [split; assumption|exact F]|].
    rewrite H2. cbn [join fold_right]. fold (join (tokens fuel p3)).
    rewrite J. cbn [remove_spaces]. rewrite (H4 _ _ eq_refl). reflexivity.
Qed.

Lemma words_skip_spaces (p : string) : words (skip_spaces p) = words p.
Proof.
  induction p as [|c p IH]; [reflexivity|].
  cbn [skip_spaces]. destruct (isspace c) eqn:E; [|reflexivity].
  rewrite IH. cbn [words]. rewrite E. reflexivity.
Qed.

Lemma words_cons (c : ascii) (q : string) :
  words (String c q)
  = if isspace c then words q
    else match q with
         | EmptyString => [String c EmptyString]
         | String d _ =>
             if isspace d then String c EmptyString :: words q
             else match words q with
                  | first :: others => String c first :: others
                  | [] => [String c EmptyString]
                  end
         end.
Proof. reflexivity. Qed.

Lemma scan_arg_cons (c : ascii) (q : string) :
  scan_arg (String c q)
  = if isspace c then (EmptyString, String c q)
    else let (a, r) := scan_arg q in (String c a, r).
Proof. reflexivity. Qed.

(** One round of the loop cuts the first word, and goes on behind the space
    that ends it. *)
Lemma words_scan_arg (q : string) :
  forall c a p2,
  isspace c = false ->
  scan_arg (String c q) = (a, p2) ->
  words (String c q)
  = a :: match p2 with
         | EmptyString => []
         | String _ p3 => words p3
         end.
Proof.
  induction q as [|d q IH]; intros c a p2 Hc H;
    rewrite scan_arg_cons, Hc in H; rewrite words_cons, Hc.
  - injection H as <- <-. reflexivity.
  - destruct (isspace d) eqn:Hd.
    + rewrite scan_arg_cons, Hd in H. injection H as <- <-.
      rewrite words_cons, Hd. reflexivity.
    + destruct (scan_arg (String d q)) as [a' r'] eqn:Hq.
      injection H as <- <-.
      rewrite (IH d a' r' Hd Hq). reflexivity.
Qed.

(** The tokens that the loop cuts are the words of the line. *)
Lemma tokens_words (fuel : nat) :
  forall p, (String.length p < fuel)%nat -> tokens fuel p = words p.
Proof.
  induction fuel as [|fuel IH]; intros p Hlt; [lia|].
  cbn [tokens]. rewrite <- (words_skip_spaces p).
  destruct (skip_spaces p) as [|c q] eqn:Hs; [reflexivity|].
  pose proof (skip_spaces_head _ _ _ Hs) as Hc.
  destruct (scan_arg (String c q)) as [a p2] eqn:Ha.
  rewrite (words_scan_arg q c a p2 Hc Ha).
  destruct p2 as [|d p3]; [reflexivity|].
  pose proof (round_shrinks _ _ _ _ _ _ Hs Ha) as Hsh.
  rewrite (IH p3) by lia. reflexivity.
Qed.

(** X4.  The arguments that [MakeArgVector] stores for [first_arg] are its
    words: when it succeeds, [argc] is one more than the number of words,
    [argv[0]] designates the command and [argv[i + 1]] the word [i], each
    stored with its NUL.  No word is empty, none holds a space, and one
    after another the words are [first_arg] without its spaces.  A
    [first_arg] without a word, of spaces only, gives what a null
    [first_arg] gives. *)
Theorem MakeArgVector_arguments_are_the_words (command p : string)
  (argv_len argbuf_len : Z) :
  let r := MakeArgVector command (Some p) argv_len argbuf_len in
  (snd r = kSuccess ->
   argc (fst r) = 1 + Z.of_nat (length (words p))
   /\ (exists off, argv (fst r) !! 0 = Some off
                   /\ cstring_at (argbuf (fst r)) off command = true)
   /\ forall i t, nth_error (words p) i = Some t ->
        exists off, argv (fst r) !! (Z.of_nat i + 1) = Some off
                    /\ cstring_at (argbuf (fst r)) off t = true)
  /\ Forall (fun t => t <> "" /\ no_space t = true) (words p)
  /\ join (words p) = remove_spaces p
  /\ (words p = [] ->
      r = MakeArgVector command None argv_len argbuf_len).
Proof.
  cbv zeta.
  pose proof (tokens_words (S (String.length p)) p ltac:(lia)) as Hw.
  destruct (tokens_spec (S (String.length p)) p ltac:(lia)) as [F J].
  rewrite Hw in F, J.
  assert (Hl : argument_list command (Some p) = command :: words p)
    by (unfold argument_list; rewrite Hw; reflexivity).
  split; [|split; [exact F|split; [exact J|]]].
  - intros Hok. rewrite MakeArgVector_push_all, Hl in Hok |- *.
    pose proof (push_all_laid_out argv_len argbuf_len _ init [] laid_out_init
                  Hok) as (Hc & _ & Hs & _).
    cbn [app] in Hc, Hs. split; [rewrite Hc; cbn [length]; lia|]. split.
    + destruct (Hs O command eq_refl) as [Ha Hb]. eauto.
    + intros i t Hn. destruct (Hs (S i) t Hn) as [Ha Hb].
      replace (Z.of_nat i + 1) with (Z.of_nat (S i)) by lia. eauto.
  - intros He. rewrite !MakeArgVector_push_all, Hl, He. reflexivity.
Qed.

(** *** The size of what a line holds *)







End ArgVectorLayout.

(** ** The loader, segment by segment *)

Lemma is_err_false (e : Error) : is_err e = false -> e = kSuccess.
Proof. destruct e; try discriminate; reflexivity. Qed.

Section LoaderMore.
Context `{K : Kernel}.

Lemma load_segments_cons (ph : Elf64_Phdr) (rest : list Elf64_Phdr) :
  load_segments (ph :: rest)
  = if p_type ph =? PT_LOAD then ph :: load_segments rest
    else load_segments rest.
Proof. reflexivity. Qed.

Lemma CopyLoadSegments_from_maps (ehdr : Elf64_Ehdr) (phdr : list Elf64_Phdr) :
  forall (last0 : Z) (w w' : World) (last : Z) (err : Error),
  CopyLoadSegments_from ehdr phdr last0 w = (w', (last, err)) ->
  (err = kSuccess
   /\ trace w' = trace w ++ map (fun ph => mapping_call ph kSuccess)
                              (load_segments phdr)
   /\ last = fold_left Z.max (map segment_end (load_segments phdr)) last0)
  \/ (is_err err = true
      /\ exists pre ph post,
           load_segments phdr = pre ++ ph :: post
           /\ trace w' = trace w ++ map (fun ph => mapping_call ph kSuccess) pre
                                 ++ [mapping_call ph err]
           /\ last = fold_left Z.max (map segment_end (pre ++ [ph])) last0).
Proof.
  induction phdr as [|ph rest IH]; intros last0 w w' last err H;
    cbn [CopyLoadSegments_from] in H.
  - injection H as <- <- <-. left. cbn. rewrite app_nil_r. auto.
  - rewrite load_segments_cons.
    destruct (p_type ph =? PT_LOAD) eqn:Ety; cbn [negb] in H; [|apply IH, H].
    unfold call_SetupPageMaps in H.
    destruct (SetupPageMaps (machine w) (p_vaddr ph)
                (wrap64 (p_memsz ph + 4095) / 4096) false) as [m1 e1] eqn:Hs.
    destruct (is_err e1) eqn:He.
    + injection H as <- <- <-. right. split; [exact He|].
      exists [], ph, (load_segments rest). cbn [app map fold_left trace log
                                               set_machine].
      auto.
    + apply is_err_false in He. subst e1.
      apply IH in H. cbn [trace set_machine log machine] in H.
      destruct H as [(-> & Ht & Hl)|(He & pre & ph' & post & Hp & Ht & Hl)].
      * left. split; [reflexivity|]. cbn [map fold_left].
        rewrite Ht, <- app_assoc. auto.
      * right. split; [exact He|].
        exists (ph :: pre), ph', post. rewrite Hp. cbn [map fold_left app].
        rewrite Ht, <- !app_assoc. auto.
Qed.

Lemma CopyLoadSegments_from_frame (ehdr : Elf64_Ehdr) (phdr : list Elf64_Phdr) :
  forall (last0 : Z) (w : World),
  let w' := fst (CopyLoadSegments_from ehdr phdr last0 w) in
  term w' = term w /\ task w' = task w /\ g_app_loads w' = g_app_loads w.
Proof.
  induction phdr as [|ph rest IH]; intros last0 w; cbv zeta;
    cbn [CopyLoadSegments_from]; [auto|].
  destruct (negb (p_type ph =? PT_LOAD)); [apply IH|].
  unfold call_SetupPageMaps.
  destruct (SetupPageMaps _ _ _ _) as [m1 e1].
  destruct (is_err e1); [cbn; auto|].
  match goal with |- context [CopyLoadSegments_from ehdr rest ?l ?x] =>
    destruct (IH l x) as (H1 & H2 & H3) end.
  rewrite H1, H2, H3. cbn. auto.
Qed.

(** X5.  A successful [LoadElf] has called [SetupPageMaps] once for each
    loadable segment, in the order of the program header, each time with the
    segment's [p_vaddr], the number of 4 KiB pages that cover [p_memsz], and
    [writable] false, and nothing else of the paging code.  The address it
    returns is the largest [p_paddr + p_memsz] of these segments: it is
    computed from the physical address field.  The terminal, the task and
    the cache are as before. *)
Theorem LoadElf_maps_each_load_segment_read_only (ehdr : Elf64_Ehdr)
  (w w' : World) (last : Z) :
  LoadElf ehdr w = (w', (last, kSuccess)) ->
  let loads := load_segments (GetProgramHeader ehdr) in
  trace w' = trace w ++ map (fun ph => mapping_call ph kSuccess) loads
  /\ last = fold_left Z.max (map segment_end loads) 0
  /\ term w' = term w /\ task w' = task w /\ g_app_loads w' = g_app_loads w.
Proof.
  unfold LoadElf. intros H. cbv zeta.
  destruct (negb (e_type ehdr =? ET_EXEC)); [discriminate H|].
  destruct (GetFirstLoadAddress ehdr <? 0xffff800000000000); [discriminate H|].
  unfold CopyLoadSegments in H.
  pose proof (CopyLoadSegments_from_frame ehdr (GetProgramHeader ehdr) 0 w) as F.
  cbv zeta in F. rewrite H in F. cbn [fst] in F.
  apply CopyLoadSegments_from_maps in H.
  destruct H as [(_ & Ht & Hl)|(He & _)]; [|discriminate He].
  auto.
Qed.

(** X6.  A [LoadElf] that fails has either refused the image with
    [kInvalidFormat] before any call, the world being as before and the
    address 0, or it has stopped at the first loadable segment whose
    [SetupPageMaps] failed: the segments before it are mapped, the failed
    call is the last one, its error is the one returned, and no later
    segment is mapped or copied. *)
Theorem LoadElf_stops_at_the_first_failed_mapping (ehdr : Elf64_Ehdr)
  (w w' : World) (last : Z) (err : Error) :
  LoadElf ehdr w = (w', (last, err)) ->
  is_err err = true ->
  (w' = w /\ last = 0 /\ err = kInvalidFormat)
  \/ (exists pre ph post,
        load_segments (GetProgramHeader ehdr) = pre ++ ph :: post
        /\ trace w' = trace w ++ map (fun ph => mapping_call ph kSuccess) pre
                              ++ [mapping_call ph err]
        /\ last = fold_left Z.max (map segment_end (pre ++ [ph])) 0).
Proof.
  unfold LoadElf. intros H He.
  destruct (negb (e_type ehdr =? ET_EXEC));
    [injection H as <- <- <-; left; auto|].
  destruct (GetFirstLoadAddress ehdr <? 0xffff800000000000);
    [injection H as <- <- <-; left; auto|].
  apply CopyLoadSegments_from_maps in H.
  destruct H as [(-> & _)|(_ & Hx)]; [discriminate He|].
  right. exact Hx.
Qed.

Lemma first_load_none (phdr : list Elf64_Phdr) :
  load_segments phdr = [] -> first_load phdr = 0.
Proof.
  induction phdr as [|ph rest IH]; [reflexivity|].
  rewrite load_segments_cons. cbn [first_load].
  destruct (p_type ph =? PT_LOAD); [discriminate|exact IH].
Qed.

(** X7.  An image without a loadable segment, an empty program header
    included, is refused by [LoadElf] with [kInvalidFormat]: the address of
    its first loadable segment reads as 0, which is below the boundary.  No
    collaborator is called. *)
Theorem LoadElf_without_load_segment (ehdr : Elf64_Ehdr) (w : World) :
  load_segments (GetProgramHeader ehdr) = [] ->
  GetFirstLoadAddress ehdr = 0
  /\ LoadElf ehdr w = (w, (0, kInvalidFormat)).
Proof.
  intros H. unfold LoadElf, GetFirstLoadAddress.
  rewrite (first_load_none _ H). split; [reflexivity|].
  destruct (negb (e_type ehdr =? ET_EXEC)); reflexivity.
Qed.

End LoaderMore.

(** ** The page map of a launch and the cache, step by step *)

Section CacheMore.
Context `{K : Kernel}.

Lemma SetupPML4_step (w w1 : World) (p : Z) (e : Error) :
  SetupPML4 w = (w1, (p, e)) ->
  trace w1 = trace w ++ [ENewPageMap (p, e)]
  /\ term w1 = term w
  /\ g_app_loads w1 = g_app_loads w
  /\ NewPageMap (machine w) = (fst (NewPageMap (machine w)), (p, e))
  /\ (is_err e = true ->
      task w1 = task w /\ machine w1 = fst (NewPageMap (machine w)))
  /\ (is_err e = false ->
      context_cr3 (task w1) = p /\ cr3 (machine w1) = p
      /\ Files (task w1) = Files (task w)).
Proof.
  unfold SetupPML4, call_NewPageMap.
  destruct (NewPageMap (machine w)) as [m [q e']].
  cbn [fst snd]. destruct (is_err e') eqn:He; intros H; injection H as <- <- <-;
    cbn; rewrite He; repeat split; try discriminate; reflexivity.
Qed.

Lemma FreePML4_step (w w2 : World) (err : Error) :
  FreePML4 w = (w2, err) ->
  trace w2 = trace w ++ [EFreePageMap (context_cr3 (task w)) err]
  /\ context_cr3 (task w2) = 0
  /\ FreePageMap (ResetCR3 (machine w)) (context_cr3 (task w))
     = (machine w2, err)
  /\ term w2 = term w
  /\ g_app_loads w2 = g_app_loads w
  /\ Files (task w2) = Files (task w)
  /\ FileMaps (task w2) = FileMaps (task w).
Proof.
  unfold FreePML4, call_FreePageMap. cbn [machine set_machine set_task task].
  destruct (FreePageMap _ _) as [m e]. intros H; injection H as <- <-.
  cbn. repeat split; reflexivity.
Qed.

(** X8.  [FreePML4] after a successful [SetupPML4] frees the page map that
    [SetupPML4] created: the task's context names it, [FreePML4] sets that
    field to 0, calls [ResetCR3] and hands the page map to [FreePageMap],
    whose error it returns.  When [NewPageMap] fails, [SetupPML4] returns
    its error with the task as it was: CR3 is not written. *)
Theorem FreePML4_frees_the_map_of_SetupPML4 (w w1 : World) (p : Z) (e : Error) :
  SetupPML4 w = (w1, (p, e)) ->
  (is_err e = true -> task w1 = task w
                     /\ machine w1 = fst (NewPageMap (machine w)))
  /\ (is_err e = false ->
      forall w2 err, FreePML4 w1 = (w2, err) ->
      trace w2 = trace w ++ [ENewPageMap (p, kSuccess); EFreePageMap p err]
      /\ context_cr3 (task w2) = 0
      /\ FreePageMap (ResetCR3 (machine w1)) p = (machine w2, err)).
Proof.
  intros H. destruct (SetupPML4_step _ _ _ _ H) as (Ht & _ & _ & _ & Hf & Hs).
  split; [exact Hf|]. intros He w2 err H2.
  destruct (Hs He) as (Hc & _ & _).
  destruct (FreePML4_step _ _ _ H2) as (Ht2 & Hc2 & Hm & _).
  rewrite Hc in Ht2, Hm. apply is_err_false in He. subst e.
  rewrite Ht2, Ht, <- app_assoc. auto.
Qed.

Lemma call_CopyPageMaps_step (d s pt st : Z) (w w' : World) (err : Error) :
  call_CopyPageMaps d s pt st w = (w', err) ->
  trace w' = trace w ++ [ECopyPageMaps d s pt st err]
  /\ term w' = term w /\ task w' = task w /\ g_app_loads w' = g_app_loads w.
Proof.
  unfold call_CopyPageMaps. destruct (CopyPageMaps _ _ _ _ _) as [m e].
  intros H; injection H as <- <-. cbn. auto.
Qed.

Lemma call_LoadFile_step (f : DirectoryEntry) (w w' : World) (hdr : Elf64_Ehdr) :
  call_LoadFile f w = (w', hdr) ->
  trace w' = trace w ++ [ELoadFile (entry_addr f)]
  /\ term w' = term w /\ task w' = task w /\ g_app_loads w' = g_app_loads w
  /\ hdr = snd (LoadFile (machine w) f).
Proof.
  unfold call_LoadFile. destruct (LoadFile _ _) as [m e].
  intros H; injection H as <- <-. cbn. auto.
Qed.

Lemma LoadElf_frame (ehdr : Elf64_Ehdr) (w : World) :
  let w' := fst (LoadElf ehdr w) in
  term w' = term w /\ task w' = task w /\ g_app_loads w' = g_app_loads w.
Proof.
  unfold LoadElf. cbv zeta.
  destruct (negb (e_type ehdr =? ET_EXEC)); [cbn; auto|].
  destruct (GetFirstLoadAddress ehdr <? _); [cbn; auto|].
  apply CopyLoadSegments_from_frame.
Qed.

Lemma LoadElf_trace (ehdr : Elf64_Ehdr) (w : World) :
  exists evs, trace (fst (LoadElf ehdr w)) = trace w ++ evs.
Proof.
  destruct (LoadElf_loads ehdr w) as (_ & _ & evs & H & _). eauto.
Qed.

(** What a run of [LoadApp] on a file that is not in the cache is made of. *)
Lemma LoadApp_miss (f : DirectoryEntry) (w w' : World) (info : AppLoadInfo)
  (err : Error) :
  g_app_loads w !! entry_addr f = None ->
  LoadApp f w = (w', (info, err)) ->
  let w1 := fst (SetupPML4 w) in
  let temp := fst (snd (SetupPML4 w)) in
  let hdr := snd (LoadFile (machine w1) f) in
  (is_err (snd (snd (SetupPML4 w))) = true
   /\ w' = w1 /\ err = snd (snd (SetupPML4 w)) /\ info = AppLoadInfo_zero)
  \/ (is_err (snd (snd (SetupPML4 w))) = false
      /\ exists w2, call_LoadFile f w1 = (w2, hdr)
         /\ ((String.eqb (substring 0 4 (e_ident hdr)) ELF_magic = false
              /\ w' = w2 /\ err = kInvalidFile /\ info = AppLoadInfo_zero)
             \/ (String.eqb (substring 0 4 (e_ident hdr)) ELF_magic = true
                 /\ exists w3 last e3, LoadElf hdr w2 = (w3, (last, e3))
                    /\ ((is_err e3 = true
                         /\ w' = w3 /\ err = e3 /\ info = AppLoadInfo_zero)
                        \/ (e3 = kSuccess
                            /\ exists w5 p2 e5,
                                 SetupPML4
                                   (set_app_loads
                                      (<[entry_addr f :=
                                           mkAppLoad last (e_entry hdr) temp]>
                                         (g_app_loads w)) w3)
                                 = (w5, (p2, e5))
                                 /\ ((is_err e5 = true /\ w' = w5 /\ err = e5
                                      /\ info = mkAppLoad last (e_entry hdr) temp)
                                     \/ (e5 = kSuccess
                                         /\ call_CopyPageMaps p2 temp 4 256 w5
                                            = (w', err)
                                         /\ info = mkAppLoad last (e_entry hdr)
                                                     p2))))))).
Proof.
  intros Hmiss H. cbv zeta. unfold LoadApp in H.
  destruct (SetupPML4 w) as [w1 [temp e1]] eqn:H1. cbn [fst snd] in *.
  destruct (SetupPML4_step _ _ _ _ H1) as (_ & _ & Hc1 & _).
  destruct (is_err e1) eqn:He1.
  { injection H as <- <- <-. left. auto. }
  right. split; [reflexivity|].
  rewrite Hc1, Hmiss in H.
  destruct (call_LoadFile f w1) as [w2 hdr] eqn:H2.
  destruct (call_LoadFile_step _ _ _ _ H2) as (_ & _ & _ & Hc2 & ->).
  exists w2. split; [reflexivity|].
  destruct (String.eqb _ ELF_magic) eqn:Hmagic; cbn [negb] in H.
  2:{ injection H as <- <- <-. left. auto. }
  right. split; [reflexivity|].
  pose proof (LoadElf_frame (snd (LoadFile (machine w1) f)) w2) as F3.
  destruct (LoadElf _ w2) as [w3 [last e3]] eqn:H3. cbv zeta in F3.
  cbn [fst] in F3. destruct F3 as (_ & _ & Hc3).
  exists w3, last, e3. split; [reflexivity|].
  destruct (is_err e3) eqn:He3.
  { injection H as <- <- <-. left. auto. }
  apply is_err_false in He3. subst e3. right. split; [reflexivity|].
  unfold map_insert in H. rewrite Hc3, Hc2, Hc1, Hmiss in H.
  destruct (SetupPML4 _) as [w5 [p2 e5]] eqn:H5 in H. cbn [fst snd] in H.
  exists w5, p2, e5. split; [exact H5|].
  destruct (is_err e5) eqn:He5.
  { injection H as <- <- <-. left. auto. }
  apply is_err_false in He5. subst e5. right. split; [reflexivity|].
  cbn [pml4] in H.
  destruct (call_CopyPageMaps p2 temp 4 256 w5) as [w6 e6].
  injection H as <- <- <-. auto.
Qed.

(** What a run of [LoadApp] on a file that is in the cache is made of. *)
Lemma LoadApp_hit_steps (f : DirectoryEntry) (w w' : World)
  (it info : AppLoadInfo) (err : Error) :
  g_app_loads w !! entry_addr f = Some it ->
  LoadApp f w = (w', (info, err)) ->
  let w1 := fst (SetupPML4 w) in
  let p := fst (snd (SetupPML4 w)) in
  (is_err (snd (snd (SetupPML4 w))) = true
   /\ w' = w1 /\ err = snd (snd (SetupPML4 w)) /\ info = AppLoadInfo_zero)
  \/ (snd (snd (SetupPML4 w)) = kSuccess
      /\ call_CopyPageMaps p (pml4 it) 4 256 w1 = (w', err)
      /\ info = mkAppLoad (vaddr_end it) (entry it) p).
Proof.
  intros Hhit H. cbv zeta. unfold LoadApp in H.
  destruct (SetupPML4 w) as [w1 [p e1]] eqn:H1. cbn [fst snd] in *.
  destruct (SetupPML4_step _ _ _ _ H1) as (_ & _ & Hc1 & _).
  destruct (is_err e1) eqn:He1.
  { injection H as <- <- <-. left. auto. }
  apply is_err_false in He1. subst e1. right. split; [reflexivity|].
  rewrite Hc1, Hhit in H.
  destruct (call_CopyPageMaps p (pml4 it) 4 256 w1) as [w2 e2].
  injection H as <- <- <-. auto.
Qed.

(** X9.  [LoadApp] writes the cache at one key only, the address of the
    directory entry it is given, and only when that key is absent: a cached
    entry is never replaced.  The entry it adds records the page map that
    the first [SetupPML4] of the launch created, the entry point of the file
    and the address [LoadElf] returned; it is added only after [LoadElf] has
    succeeded on the file just read. *)
Theorem LoadApp_caches_only_a_loaded_image (f : DirectoryEntry) (w w' : World)
  (info : AppLoadInfo) (err : Error) :
  LoadApp f w = (w', (info, err)) ->
  (forall k, k <> entry_addr f -> g_app_loads w' !! k = g_app_loads w !! k)
  /\ (is_Some (g_app_loads w !! entry_addr f) ->
      g_app_loads w' = g_app_loads w)
  /\ (g_app_loads w !! entry_addr f = None ->
      forall v, g_app_loads w' !! entry_addr f = Some v ->
      let w1 := fst (SetupPML4 w) in
      let hdr := snd (LoadFile (machine w1) f) in
      pml4 v = fst (snd (SetupPML4 w))
      /\ entry v = e_entry hdr
      /\ exists w3, LoadElf hdr (fst (call_LoadFile f w1))
                    = (w3, (vaddr_end v, kSuccess))).
Proof.
  intros H. destruct (g_app_loads w !! entry_addr f) as [it|] eqn:Hc.
  - assert (Hsame : g_app_loads w' = g_app_loads w).
    { destruct (LoadApp_hit_steps _ _ _ _ _ _ Hc H)
        as [(_ & -> & _)|(He & Hcp & _)].
      - destruct (SetupPML4 w) as [w1 [p e]] eqn:H1.
        apply SetupPML4_step in H1. cbn [fst]. tauto.
      - apply call_CopyPageMaps_step in Hcp. destruct Hcp as (_ & _ & _ & ->).
        destruct (SetupPML4 w) as [w1 [p e]] eqn:H1.
        apply SetupPML4_step in H1. cbn [fst]. tauto. }
    split; [intros k _; rewrite Hsame; reflexivity|].
    split; [intros _; exact Hsame|discriminate].
  - pose proof (LoadApp_miss _ _ _ _ _ Hc H) as M. cbv zeta in M.
    destruct (SetupPML4 w) as [w1 [temp e1]] eqn:H1. cbn [fst snd] in *.
    destruct (SetupPML4_step _ _ _ _ H1) as (_ & _ & Hc1 & _).
    assert (Hno : g_app_loads w' = g_app_loads w
                  -> (forall k, k <> entry_addr f ->
                        g_app_loads w' !! k = g_app_loads w !! k)
                     /\ (is_Some (@None AppLoadInfo) ->
                         g_app_loads w' = g_app_loads w)
                     /\ (None = @None AppLoadInfo ->
                         forall v, g_app_loads w' !! entry_addr f = Some v ->
                         pml4 v = temp
                         /\ entry v = e_entry (snd (LoadFile (machine w1) f))
                         /\ exists w3,
                              LoadElf (snd (LoadFile (machine w1) f))
                                (fst (call_LoadFile f w1))
                              = (w3, (vaddr_end v, kSuccess)))).
    { intros Hs. rewrite Hs. split; [reflexivity|]. split; [reflexivity|].
      intros _ v Hv. congruence. }
    destruct M as [(_ & -> & _)|(_ & w2 & H2 & M)]; [apply Hno, Hc1|].
    destruct (call_LoadFile_step _ _ _ _ H2) as (_ & _ & _ & Hc2 & _).
    destruct M as [(_ & -> & _)|(_ & w3 & last & e3 & H3 & M)];
      [apply Hno; congruence|].
    pose proof (LoadElf_frame (snd (LoadFile (machine w1) f)) w2) as F3.
    cbv zeta in F3. rewrite H3 in F3. cbn [fst] in F3.
    destruct F3 as (_ & _ & Hc3).
    destruct M as [(_ & -> & _)|(-> & w5 & p2 & e5 & H5 & M)];
      [apply Hno; congruence|].
    destruct (SetupPML4_step _ _ _ _ H5) as (_ & _ & Hc5 & _).
    cbn [g_app_loads set_app_loads] in Hc5.
    assert (Hfin : g_app_loads w'
                   = <[entry_addr f :=
                         mkAppLoad last
                           (e_entry (snd (LoadFile (machine w1) f))) temp]>
                       (g_app_loads w)).
    { destruct M as [(_ & -> & _)|(_ & Hcp & _)]; [exact Hc5|].
      apply call_CopyPageMaps_step in Hcp. destruct Hcp as (_ & _ & _ & ->).
      exact Hc5. }
    rewrite Hfin. split; [intros k Hk; apply lookup_insert_ne; congruence|].
    split; [intros [x Hx]; discriminate Hx|].
    intros _ v Hv. rewrite lookup_insert_eq in Hv. injection Hv as <-.
    cbn [pml4 entry vaddr_end]. split; [reflexivity|]. split; [reflexivity|].
    exists w3. rewrite H2. exact H3.
Qed.

(** X10.  A successful [LoadApp] of a file that is not in the cache creates
    two page maps.  The image is read once and its segments are mapped under
    the first page map, which the cache records; the page map the launch
    runs on is the second one, and it receives its upper half by
    [CopyPageMaps] from the first, from entry 256 on. *)
Theorem LoadApp_miss_keeps_the_loaded_map_for_the_cache (f : DirectoryEntry)
  (w w' : World) (info : AppLoadInfo) :
  g_app_loads w !! entry_addr f = None ->
  LoadApp f w = (w', (info, kSuccess)) ->
  let temp := fst (snd (SetupPML4 w)) in
  let hdr := snd (LoadFile (machine (fst (SetupPML4 w))) f) in
  let loads := load_segments (GetProgramHeader hdr) in
  trace w'
  = trace w ++ [ENewPageMap (temp, kSuccess); ELoadFile (entry_addr f)]
            ++ map (fun ph => mapping_call ph kSuccess) loads
            ++ [ENewPageMap (pml4 info, kSuccess);
                ECopyPageMaps (pml4 info) temp 4 256 kSuccess]
  /\ g_app_loads w'
     = <[entry_addr f := mkAppLoad (vaddr_end info) (entry info) temp]>
         (g_app_loads w)
  /\ entry info = e_entry hdr
  /\ vaddr_end info = fold_left Z.max (map segment_end loads) 0.
Proof.
  intros Hc H. cbv zeta.
  pose proof (LoadApp_miss _ _ _ _ _ Hc H) as M. cbv zeta in M.
  destruct (SetupPML4 w) as [w1 [temp e1]] eqn:H1. cbn [fst snd] in *.
  destruct (SetupPML4_step _ _ _ _ H1) as (Ht1 & _ & Hc1 & _).
  destruct M as [(He & _ & <- & _)|(He1 & w2 & H2 & M)]; [discriminate He|].
  apply is_err_false in He1. subst e1.
  destruct (call_LoadFile_step _ _ _ _ H2) as (Ht2 & _ & _ & Hc2 & _).
  destruct M as [(_ & _ & Hk & _)|(_ & w3 & last & e3 & H3 & M)];
    [discriminate Hk|].
  destruct M as [(He & _ & <- & _)|(-> & w5 & p2 & e5 & H5 & M)];
    [discriminate He|].
  pose proof (LoadElf_frame (snd (LoadFile (machine w1) f)) w2) as F3.
  cbv zeta in F3. rewrite H3 in F3. cbn [fst] in F3.
  destruct F3 as (_ & _ & Hc3).
  unfold LoadElf in H3.
  destruct (negb _) in H3; [discriminate H3|].
  destruct (_ <? _) in H3; [discriminate H3|].
  apply CopyLoadSegments_from_maps in H3.
  destruct H3 as [(_ & Ht3 & Hl)|(He & _)]; [|discriminate He].
  destruct (SetupPML4_step _ _ _ _ H5) as (Ht5 & _ & Hc5 & _).
  cbn [g_app_loads set_app_loads trace] in Hc5, Ht5.
  destruct M as [(He & _ & <- & _)|(-> & Hcp & ->)]; [discriminate He|].
  apply call_CopyPageMaps_step in Hcp. destruct Hcp as (Ht6 & _ & _ & Hc6).
  cbn [pml4 entry vaddr_end].
  rewrite Ht6, Ht5, Ht3, Ht2, Ht1, Hc6, Hc5, <- !app_assoc.
  cbn [app]. auto.
Qed.

(** X11.  A file that is not in the cache and does not begin with the four
    bytes of the ELF magic is refused with [kInvalidFile] as soon as it has
    been read.  Nothing is added to the cache.  The page map that the launch
    had created is not freed: it stays the page map of the task's context. *)
Theorem LoadApp_refuses_a_file_without_the_ELF_magic (f : DirectoryEntry)
  (w : World) (p : Z) :
  g_app_loads w !! entry_addr f = None ->
  snd (SetupPML4 w) = (p, kSuccess) ->
  String.eqb
    (substring 0 4 (e_ident (snd (LoadFile (machine (fst (SetupPML4 w))) f))))
    ELF_magic = false ->
  let w' := fst (LoadApp f w) in
  snd (LoadApp f w) = (AppLoadInfo_zero, kInvalidFile)
  /\ g_app_loads w' = g_app_loads w
  /\ trace w' = trace w ++ [ENewPageMap (p, kSuccess); ELoadFile (entry_addr f)]
  /\ context_cr3 (task w') = p.
Proof.
  intros Hc Hs Hmagic. cbv zeta.
  destruct (LoadApp f w) as [w' [info err]] eqn:H. cbn [fst snd].
  pose proof (LoadApp_miss _ _ _ _ _ Hc H) as M. cbv zeta in M.
  destruct (SetupPML4 w) as [w1 [temp e1]] eqn:H1. cbn [fst snd] in *.
  injection Hs as -> ->.
  destruct (SetupPML4_step _ _ _ _ H1) as (Ht1 & _ & Hc1 & _ & _ & Hok).
  destruct (Hok eq_refl) as (Hcr & _ & _).
  destruct M as [(He & _)|(_ & w2 & H2 & M)]; [discriminate He|].
  destruct (call_LoadFile_step _ _ _ _ H2) as (Ht2 & _ & Hk2 & Hc2 & _).
  destruct M as [(_ & -> & -> & ->)|(Hm & _)]; [|congruence].
  rewrite Ht2, Ht1, Hc2, Hc1, Hk2, <- app_assoc. auto.
Qed.

End CacheMore.

(** ** The halves of a page map *)

Section PageMapHalves.
Context `{K : Kernel}.

(** C6 as amended.  The entries of a page map that are shared with the
    kernel are the entries 0 to 255, the lower half of the address space,
    not the upper half.  [SetupPML4] copies them at creation from the page
    map that is active then, copies no entry from 256 on, and writes no
    other page map.  They stay as they were copied through a launch of a
    file whose loadable segments all lie in the upper half, the paging
    functions writing only the entries of the addresses they are given: the
    page map a successful [LoadApp] returns then has the lower half of the
    page map that was active when the launch began.  [LoadElf] tests the
    address of the first loadable segment only: the address of every
    loadable segment of an image it accepts is handed to [SetupPageMaps] as
    it is, wherever it lies.  The upper half is not owned by one launch
    alone: on a cache hit it is filled by [CopyPageMaps] from the page map
    of the cached launch. *)
Theorem lower_half_copied_at_creation_and_kept :
  (forall (w w' : World) (p : Z),
     SetupPML4 w = (w', (p, kSuccess)) ->
     let m1 := fst (NewPageMap (machine w)) in
     (forall i, 0 <= i < 256 ->
        pagemap (machine w') p i = pagemap m1 (cr3 m1) i)
     /\ (forall i, 256 <= i -> pagemap (machine w') p i = pagemap m1 p i)
     /\ (forall q i, q <> p -> pagemap (machine w') q i = pagemap m1 q i)
     /\ cr3 (machine w') = p
     /\ context_cr3 (task w') = p)
  /\ (paging_keeps_lower_half ->
      forall (f : DirectoryEntry) (w w' : World) (info : AppLoadInfo),
      (forall m, segments_in_upper_half (snd (LoadFile m f))) ->
      LoadApp f w = (w', (info, kSuccess)) ->
      forall i, 0 <= i < 256 ->
        pagemap (machine w') (pml4 info) i
        = pagemap (machine w) (cr3 (machine w)) i)
  /\ (forall (ehdr : Elf64_Ehdr) (w w' : World) (last : Z),
      LoadElf ehdr w = (w', (last, kSuccess)) ->
      0xffff800000000000 <= GetFirstLoadAddress ehdr
      /\ trace w'
         = trace w ++ map (fun ph => ESetupPageMaps (p_vaddr ph)
                                       (wrap64 (p_memsz ph + 4095) / 4096)
                                       false kSuccess)
                        (load_segments (GetProgramHeader ehdr)))
  /\ (forall (f : DirectoryEntry) (w w' : World) (it info : AppLoadInfo)
             (err : Error) (p : Z),
      g_app_loads w !! entry_addr f = Some it ->
      LoadApp f w = (w', (info, err)) ->
      snd (SetupPML4 w) = (p, kSuccess) ->
      pml4 info = p
      /\ trace w' = trace w ++ [ENewPageMap (p, kSuccess);
                                ECopyPageMaps p (pml4 it) 4 256 err]).
Proof.
  split; [exact SetupPML4_copies_lower_half|].
  split; [intros HK f w w' info; apply LoadApp_lower, HK|].
  split; [|exact LoadApp_hit_copies_from_cache].
  intros ehdr w w' last H. unfold LoadElf in H.
  destruct (negb (e_type ehdr =? ET_EXEC)); [discriminate H|].
  destruct (GetFirstLoadAddress ehdr <? 0xffff800000000000) eqn:E;
    [discriminate H|].
  apply Z.ltb_ge in E. split; [exact E|].
  apply CopyLoadSegments_from_maps in H.
  destruct H as [(_ & Ht & _)|(He & _)]; [exact Ht|discriminate He].
Qed.

End PageMapHalves.

(** ** A launch that stops before the application is called *)

Lemma set_context_cr3_same (t : Task) : set_context_cr3 (context_cr3 t) t = t.
Proof. destruct t; reflexivity. Qed.

Lemma last_page_map_app (a b : list Event) (d : Z) :
  last_page_map (a ++ b) d = last_page_map b (last_page_map a d).
Proof.
  revert d; induction a as [|e a IH]; intros d; [reflexivity|].
  destruct e as [[p e]| | | | | | | |]; cbn [app last_page_map]; apply IH.
Qed.

Lemma last_page_map_mappings (l : list Elf64_Phdr) (f : Elf64_Phdr -> Error)
  (d : Z) :
  last_page_map (map (fun ph => mapping_call ph (f ph)) l) d = d.
Proof. induction l as [|ph l IH]; [reflexivity|exact IH]. Qed.

Section FailedLaunch.
Context `{K : Kernel}.

Lemma SetupPML4_task (w w1 : World) (p : Z) (e : Error) :
  SetupPML4 w = (w1, (p, e)) ->
  task w1 = if is_err e then task w else set_context_cr3 p (task w).
Proof.
  unfold SetupPML4, call_NewPageMap.
  destruct (NewPageMap (machine w)) as [m [q e']]. cbn [fst snd].
  destruct (is_err e') eqn:He; intros H; injection H as <- <- <-;
    rewrite He; reflexivity.
Qed.

(** What [LoadElf] adds to the trace: the mappings of loadable segments, the
    last of which has failed when [LoadElf] has; or nothing at all when it
    refuses the image. *)
Lemma LoadElf_steps (ehdr : Elf64_Ehdr) (w w' : World) (last_addr : Z)
  (err : Error) :
  LoadElf ehdr w = (w', (last_addr, err)) ->
  exists evs,
    trace w' = trace w ++ evs
    /\ (forall d, last_page_map evs d = d)
    /\ (is_err err = true ->
        (evs = [] /\ err = kInvalidFormat)
        \/ (exists pre a n, evs = pre ++ [ESetupPageMaps a n false err])).
Proof.
  unfold LoadElf. intros H.
  destruct (negb (e_type ehdr =? ET_EXEC)).
  { injection H as <- <- <-. exists []. rewrite app_nil_r. auto. }
  destruct (GetFirstLoadAddress ehdr <? 0xffff800000000000).
  { injection H as <- <- <-. exists []. rewrite app_nil_r. auto. }
  apply CopyLoadSegments_from_maps in H.
  destruct H as [(-> & Ht & _)|(He & pre & ph & post & _ & Ht & _)].
  - eexists. split; [exact Ht|]. split; [|discriminate].
    intros d. apply (last_page_map_mappings _ (fun _ => kSuccess)).
  - eexists. split; [exact Ht|]. split.
    + intros d. rewrite last_page_map_app.
      rewrite (last_page_map_mappings _ (fun _ => kSuccess)). reflexivity.
    + intros _. right. eauto.
Qed.

(** The calls of a [LoadApp], the page map it leaves in the task's context,
    and the step at which it stopped when it has failed. *)
Lemma LoadApp_steps (f : DirectoryEntry) (w w1 : World) (info : AppLoadInfo)
  (err : Error) :
  LoadApp f w = (w1, (info, err)) ->
  exists evs,
    trace w1 = trace w ++ evs
    /\ task w1 = set_context_cr3 (last_page_map evs (context_cr3 (task w)))
                   (task w)
    /\ (is_err err = true ->
        forall command first_arg, failing_step command first_arg evs err).
Proof.
  intros H.
  destruct (SetupPML4 w) as [wa [p e1]] eqn:H1.
  pose proof (SetupPML4_task _ _ _ _ H1) as Hk1.
  destruct (SetupPML4_step _ _ _ _ H1) as (Ht1 & _).
  destruct (g_app_loads w !! entry_addr f) as [it|] eqn:Hc.
  - pose proof (LoadApp_hit_steps _ _ _ _ _ _ Hc H) as M. cbv zeta in M.
    rewrite H1 in M. cbn [fst snd] in M.
    destruct M as [(He & -> & -> & _)|(-> & Hcp & _)].
    + exists [ENewPageMap (p, e1)]. rewrite He in Hk1.
      cbn [last_page_map]. rewrite He, set_context_cr3_same.
      split; [exact Ht1|]. split; [exact Hk1|].
      intros _ command first_arg. unfold failing_step. cbn. auto.
    + apply call_CopyPageMaps_step in Hcp. destruct Hcp as (Ht2 & _ & Hk2 & _).
      exists [ENewPageMap (p, kSuccess); ECopyPageMaps p (pml4 it) 4 256 err].
      split; [rewrite Ht2, Ht1, <- app_assoc; reflexivity|].
      split; [rewrite Hk2, Hk1; reflexivity|].
      intros He command first_arg. unfold failing_step. cbn. auto.
  - pose proof (LoadApp_miss _ _ _ _ _ Hc H) as M. cbv zeta in M.
    rewrite H1 in M. cbn [fst snd] in M.
    destruct M as [(He & -> & -> & _)|(He1 & w2 & H2 & M)].
    { exists [ENewPageMap (p, e1)]. rewrite He in Hk1.
      cbn [last_page_map]. rewrite He, set_context_cr3_same.
      split; [exact Ht1|]. split; [exact Hk1|].
      intros _ command first_arg. unfold failing_step. cbn. auto. }
    rewrite He1 in Hk1. apply is_err_false in He1. subst e1.
    destruct (call_LoadFile_step _ _ _ _ H2) as (Ht2 & _ & Hk2 & _).
    destruct M as [(_ & -> & -> & _)|(_ & w3 & last_addr & e3 & H3 & M)].
    { exists [ENewPageMap (p, kSuccess); ELoadFile (entry_addr f)].
      split; [rewrite Ht2, Ht1, <- app_assoc; reflexivity|].
      split; [rewrite Hk2, Hk1; reflexivity|].
      intros _ command first_arg. unfold failing_step. cbn. auto. }
    pose proof (LoadElf_frame (snd (LoadFile (machine wa) f)) w2) as F3.
    cbv zeta in F3. rewrite H3 in F3. cbn [fst] in F3.
    destruct F3 as (_ & Hk3 & _).
    destruct (LoadElf_steps _ _ _ _ _ H3) as (evs3 & Ht3 & Hl3 & Hs3).
    destruct M as [(He3 & -> & -> & _)|(-> & w5 & p2 & e5 & H5 & M)].
    { exists ([ENewPageMap (p, kSuccess); ELoadFile (entry_addr f)] ++ evs3).
      split; [rewrite Ht3, Ht2, Ht1, <- !app_assoc; reflexivity|].
      split; [rewrite Hk3, Hk2, Hk1, last_page_map_app, Hl3; reflexivity|].
      intros _ command first_arg. unfold failing_step.
      destruct (Hs3 He3) as [[-> ->]|(pre & a & n & ->)].
      - cbn. auto.
      - rewrite app_assoc, last_snoc. rewrite He3. reflexivity. }
    pose proof (SetupPML4_task _ _ _ _ H5) as Hk5.
    destruct (SetupPML4_step _ _ _ _ H5) as (Ht5 & _).
    cbn [task trace set_app_loads] in Hk5, Ht5.
    destruct M as [(He5 & -> & -> & _)|(-> & Hcp & _)].
    { exists ([ENewPageMap (p, kSuccess); ELoadFile (entry_addr f)] ++ evs3
              ++ [ENewPageMap (p2, e5)]).
      split; [rewrite Ht5, Ht3, Ht2, Ht1, <- !app_assoc; reflexivity|].
      split.
      - rewrite Hk5, He5, Hk3, Hk2, Hk1, !last_page_map_app, Hl3.
        cbn [last_page_map]. rewrite He5. reflexivity.
      - intros _ command first_arg. unfold failing_step.
        rewrite !app_assoc, last_snoc. auto. }
    apply call_CopyPageMaps_step in Hcp. destruct Hcp as (Ht6 & _ & Hk6 & _).
    exists ([ENewPageMap (p, kSuccess); ELoadFile (entry_addr f)] ++ evs3
            ++ [ENewPageMap (p2, kSuccess); ECopyPageMaps p2 p 4 256 err]).
    split; [rewrite Ht6, Ht5, Ht3, Ht2, Ht1, <- !app_assoc; reflexivity|].
    split.
    + rewrite Hk6, Hk5, Hk3, Hk2, Hk1, !last_page_map_app, Hl3.
      cbn [last_page_map is_err context_cr3 set_context_cr3].
      destruct (task w); reflexivity.
    + intros He command first_arg. unfold failing_step.
      replace (([ENewPageMap (p, kSuccess); ELoadFile (entry_addr f)] ++ evs3
                ++ [ENewPageMap (p2, kSuccess); ECopyPageMaps p2 p 4 256 err]))
        with (([ENewPageMap (p, kSuccess); ELoadFile (entry_addr f)] ++ evs3
               ++ [ENewPageMap (p2, kSuccess)])
              ++ [ECopyPageMaps p2 p 4 256 err])
        by (rewrite <- !app_assoc; reflexivity).
      rewrite last_snoc. auto.
Qed.

(** [ExecuteFile] either stops at a step before the application is called,
    or calls it. *)
Lemma ExecuteFile_stops_or_calls (f : DirectoryEntry) (command : string)
  (first_arg : option string) (w w' : World) (err : Error) :
  ExecuteFile f command first_arg w = (w', err) ->
  (exists evs,
     trace w' = trace w ++ evs
     /\ is_err err = true
     /\ failing_step command first_arg evs err
     /\ task w' = set_context_cr3 (last_page_map evs (context_cr3 (task w)))
                    (task w))
  \/ (exists evs, trace w' = trace w ++ evs /\ existsb is_CallApp evs = true).
Proof.
  intros H. unfold ExecuteFile in H.
  destruct (LoadApp f w) as [w1 [info e1]] eqn:HL.
  destruct (LoadApp_steps _ _ _ _ _ HL) as (evs1 & Hx1 & Hk1 & Hs1).
  destruct (is_err e1) eqn:E1.
  { injection H as <- <-. left. exists evs1. auto. }
  unfold call_SetupPageMaps at 1 in H.
  destruct (SetupPageMaps (machine w1) _ _ _) as [m2 e2].
  destruct (is_err e2) eqn:E2.
  { injection H as <- <-. left.
    exists (evs1 ++ [ESetupPageMaps 0xfffffffffffff000 1 true e2]).
    world_simpl. rewrite Hx1, <- app_assoc.
    split; [reflexivity|]. split; [exact E2|]. split.
    - unfold failing_step. rewrite last_snoc, E2. reflexivity.
    - rewrite last_page_map_app. exact Hk1. }
  destruct (ArgVector.MakeArgVector command first_arg 32 (4096 - 8 * 32))
    as [args e3] eqn:HM.
  destruct (is_err e3) eqn:E3.
  { injection H as <- <-. left.
    exists (evs1 ++ [ESetupPageMaps 0xfffffffffffff000 1 true e2]).
    world_simpl. rewrite Hx1, <- app_assoc.
    split; [reflexivity|]. split; [exact E3|]. split.
    - unfold failing_step. rewrite last_snoc, E2.
      assert (Hne : ArgVector.argument_list command first_arg <> [])
        by (unfold ArgVector.argument_list; discriminate).
      destruct (ArgVectorLayout.push_all_result 32 (4096 - 8 * 32) _
                  ArgVector.init Hne) as (_ & Hor & _).
      rewrite <- ArgVectorLayout.MakeArgVector_push_all, HM in Hor.
      cbn [snd] in Hor.
      destruct Hor as [->| ->]; [discriminate E3|].
      rewrite HM. auto.
    - rewrite last_page_map_app. exact Hk1. }
  unfold call_SetupPageMaps in H.
  destruct (SetupPageMaps _ _ _ _) as [m4 e4].
  destruct (is_err e4) eqn:E4.
  { injection H as <- <-. left.
    exists (evs1 ++ [ESetupPageMaps 0xfffffffffffff000 1 true e2;
                     ESetupPageMaps 0xffffffffffffe000 1 true e4]).
    world_simpl. rewrite Hx1, <- !app_assoc.
    split; [reflexivity|]. split; [exact E4|]. split.
    - unfold failing_step.
      replace (evs1 ++ [ESetupPageMaps 0xfffffffffffff000 1 true e2;
                        ESetupPageMaps 0xffffffffffffe000 1 true e4])
        with ((evs1 ++ [ESetupPageMaps 0xfffffffffffff000 1 true e2])
              ++ [ESetupPageMaps 0xffffffffffffe000 1 true e4])
        by (rewrite <- app_assoc; reflexivity).
      rewrite last_snoc, E4. reflexivity.
    - rewrite last_page_map_app. exact Hk1. }
  right. unfold call_CleanPageMaps in H. world_simpl.
  destruct (CleanPageMaps _ _) as [m10 e10].
  destruct (is_err e10).
  - injection H as <- <-. world_simpl. rewrite Hx1, <- !app_assoc.
    eexists. split; [reflexivity|].
    rewrite !existsb_app. cbn [existsb is_CallApp].
    rewrite !orb_true_r. reflexivity.
  - unfold FreePML4, call_FreePageMap in H. world_simpl.
    destruct (FreePageMap _ _) as [m11 e11].
    injection H as <- <-. world_simpl. rewrite Hx1, <- !app_assoc.
    eexists. split; [reflexivity|].
    rewrite !existsb_app. cbn [existsb is_CallApp].
    rewrite !orb_true_r. reflexivity.
Qed.

(** C3 as amended.  A launch that ends before [CallApp] is reached returns
    to its caller the error of the step at which it stopped: the error of
    the paging call that failed, [kInvalidFile] or [kInvalidFormat] for the
    file just read, or [kFull] from [MakeArgVector].  It has called neither
    [CleanPageMaps] nor [FreePageMap]: the page maps it created and the
    pages it mapped are left as they are.  The terminal is as before, and
    so is the task but for the page map of its context, which is the last
    page map the launch created, and the one it was before when the launch
    created none. *)
Theorem ExecuteFile_failure_returns_error_without_teardown
  (f : DirectoryEntry) (command : string) (first_arg : option string)
  (w w' : World) (err : Error) (evs : list Event) :
  ExecuteFile f command first_arg w = (w', err) ->
  trace w' = trace w ++ evs ->
  existsb is_CallApp evs = false ->
  is_err err = true
  /\ failing_step command first_arg evs err
  /\ existsb is_teardown evs = false
  /\ term w' = term w
  /\ task w' = set_context_cr3 (last_page_map evs (context_cr3 (task w)))
                 (task w).
Proof.
  intros Hrun Hevs Hnocall.
  destruct (ExecuteFile_stops_or_calls _ _ _ _ _ _ Hrun)
    as [(evs' & Hx & He & Hs & Hk)|(evs' & Hx & Hc)];
    rewrite Hx in Hevs; apply app_inv_head in Hevs; subst evs';
    [|congruence].
  split; [exact He|]. split; [exact Hs|].
  destruct (ExecuteFile_cases _ _ _ _ _ _ Hrun) as [_ [Hfail|Hexit]].
  - destruct Hfail as (_ & Ht & evs' & Hx' & Hf).
    rewrite Hx in Hx'. apply app_inv_head in Hx'. subst evs'.
    split; [apply before_transfer_all, Hf|]. split; [exact Ht|exact Hk].
  - destruct Hexit as (pre & a & r & t & out & tail & Hx' & _).
    rewrite Hx in Hx'. apply app_inv_head in Hx'. subst evs.
    rewrite existsb_CallApp_mid in Hnocall. discriminate.
Qed.

End FailedLaunch.

(** ** The launcher, up to the call of the application *)

Section LauncherMore.
Context `{K : Kernel}.

Lemma In_before_transfer_not_CallApp (l : list Event) (a r t : Z) :
  forallb before_transfer l = true -> ~ In (ECallApp a r t) l.
Proof.
  intros Hf Hin. apply before_transfer_all in Hf. destruct Hf as [Hf _].
  assert (existsb is_CallApp l = true)
    by (apply existsb_exists; eexists; split; [exact Hin|reflexivity]).
  congruence.
Qed.

(** What has happened when [ExecuteFile] has called the application. *)
Lemma ExecuteFile_launched (f : DirectoryEntry) (command : string)
  (first_arg : option string) (w w' : World) (err : Error)
  (evs : list Event) (argc rip ret : Z) :
  ExecuteFile f command first_arg w = (w', err) ->
  trace w' = trace w ++ evs ->
  In (ECallApp argc rip ret) evs ->
  let args := ArgVector.MakeArgVector command first_arg 32 (4096 - 8 * 32) in
  exists w1 info m4 run m10 e10,
    LoadApp f w = (w1, (info, kSuccess))
    /\ snd args = kSuccess
    /\ argc = ArgVector.argc (fst args)
    /\ rip = entry info
    /\ ret = run_ret run
    /\ run = CallApp m4 (launch_task (vaddr_end info) (task_id_ (term w1))
                           (task w1))
               argc 0xfffffffffffff000 27 rip 0xffffffffffffeff8
    /\ CleanPageMaps (run_machine run) 0xffff800000000000 = (m10, e10)
    /\ (if is_err e10
        then err = e10
             /\ task w' = set_FileMaps [] (set_Files [] (run_task run))
        else task w' = set_context_cr3 0
                         (set_FileMaps [] (set_Files [] (run_task run)))
             /\ last (trace w')
                = Some (EFreePageMap (context_cr3 (run_task run)) err))
    /\ term w' = Print (exit_message (run_ret run))
                   (Print (run_output run) (term w)).
Proof.
  unfold ExecuteFile. intros H Hevs Hin. cbv zeta.
  pose proof (LoadApp_frame f w) as HL.
  destruct (LoadApp f w) as [w1 [info e1]]. cbn [fst] in HL.
  destruct HL as (Ht1 & _ & evs1 & Hx1 & Hf1).
  assert (Hnot : forall l, forallb before_transfer l = true ->
                   trace w' = trace w ++ evs1 ++ l -> False).
  { intros l Hl Hx. rewrite Hevs in Hx. apply app_inv_head in Hx. subst evs.
    apply (In_before_transfer_not_CallApp (evs1 ++ l) argc rip ret);
      [rewrite forallb_app, Hf1, Hl; reflexivity|exact Hin]. }
  destruct (is_err e1) eqn:E1.
  { exfalso. injection H as <- <-. apply (Hnot []); [reflexivity|].
    rewrite app_nil_r. exact Hx1. }
  apply is_err_false in E1. subst e1.
  unfold call_SetupPageMaps at 1 in H.
  destruct (SetupPageMaps (machine w1) _ _ _) as [m2 e2].
  destruct (is_err e2) eqn:E2.
  { exfalso. injection H as <- <-. eapply Hnot; [|world_simpl; rewrite Hx1,
      <- app_assoc; reflexivity]. reflexivity. }
  destruct (ArgVector.MakeArgVector _ _ _ _) as [args e3].
  destruct (is_err e3) eqn:E3.
  { exfalso. injection H as <- <-. eapply Hnot; [|world_simpl; rewrite Hx1,
      <- app_assoc; reflexivity]. reflexivity. }
  apply is_err_false in E3. subst e3.
  unfold call_SetupPageMaps in H.
  destruct (SetupPageMaps _ _ _ _) as [m4 e4].
  destruct (is_err e4) eqn:E4.
  { exfalso. injection H as <- <-. eapply Hnot; [|world_simpl; rewrite Hx1,
      <- !app_assoc; reflexivity]. reflexivity. }
  world_simpl.
  match type of H with context [CallApp ?a ?b ?c ?d ?e ?g ?h] =>
    set (run := CallApp a b c d e g h) in *
  end.
  unfold call_CleanPageMaps in H. world_simpl.
  destruct (CleanPageMaps (run_machine run) _) as [m10 e10] eqn:Hclean.
  assert (Hev : forall tail,
            trace w1 ++ [ESetupPageMaps 0xfffffffffffff000 1 true e2]
              ++ [ESetupPageMaps 0xffffffffffffe000 1 true e4]
              ++ ECallApp (ArgVector.argc args) (entry info) (run_ret run)
                 :: tail
            = trace w ++ evs ->
            existsb is_CallApp tail = false ->
            argc = ArgVector.argc args /\ rip = entry info
            /\ ret = run_ret run).
  { intros tail Hx Htail. rewrite Hx1, <- !app_assoc in Hx.
    apply app_inv_head in Hx. subst evs.
    apply in_app_or in Hin. destruct Hin as [Hin|Hin];
      [exfalso; eapply In_before_transfer_not_CallApp; eassumption|].
    cbn [app In] in Hin. destruct Hin as [Hin|[Hin|[Hin|Hin]]];
      try discriminate Hin.
    - injection Hin as <- <- <-. auto.
    - exfalso.
      assert (existsb is_CallApp tail = true)
        by (apply existsb_exists; eexists; split; [exact Hin|reflexivity]).
      congruence. }
  exists w1, info, m4, run, m10, e10.
  destruct (is_err e10) eqn:E10.
  - injection H as <- <-. world_simpl. rewrite <- !app_assoc in Hevs.
    destruct (Hev [ECleanPageMaps 0xffff800000000000 e10] Hevs eq_refl)
      as (-> & -> & ->).
    rewrite <- Ht1.
    repeat split; try reflexivity; exact Hclean.
  - unfold FreePML4, call_FreePageMap in H. world_simpl.
    destruct (FreePageMap _ _) as [m11 e11].
    injection H as <- <-. world_simpl.
    pose proof Hevs as Hevs'. rewrite <- !app_assoc in Hevs'.
    destruct (Hev [ECleanPageMaps 0xffff800000000000 e10;
                   EFreePageMap (context_cr3 (run_task run)) e11]
                Hevs' eq_refl)
      as (-> & -> & ->).
    rewrite <- Ht1.
    repeat split; try reflexivity; try exact Hclean.
    rewrite last_snoc. reflexivity.
Qed.

Lemma LoadApp_task (f : DirectoryEntry) (w w1 : World) (info : AppLoadInfo) :
  LoadApp f w = (w1, (info, kSuccess)) ->
  context_cr3 (task w1) = pml4 info /\ Files (task w1) = Files (task w).
Proof.
  intros H. destruct (g_app_loads w !! entry_addr f) as [it|] eqn:Hc.
  - pose proof (LoadApp_hit_steps _ _ _ _ _ _ Hc H) as M. cbv zeta in M.
    destruct (SetupPML4 w) as [w0 [p e]] eqn:H1. cbn [fst snd] in *.
    destruct M as [(He & _ & <- & _)|(He & Hcp & ->)]; [discriminate He|].
    subst e.
    destruct (SetupPML4_step _ _ _ _ H1) as (_ & _ & _ & _ & _ & Hok).
    destruct (Hok eq_refl) as (Hcr & _ & Hfl).
    apply call_CopyPageMaps_step in Hcp. destruct Hcp as (_ & _ & -> & _).
    cbn [pml4]. auto.
  - pose proof (LoadApp_miss _ _ _ _ _ Hc H) as M. cbv zeta in M.
    destruct (SetupPML4 w) as [w0 [temp e1]] eqn:H1. cbn [fst snd] in *.
    destruct (SetupPML4_step _ _ _ _ H1) as (_ & _ & _ & _ & _ & Hok1).
    destruct M as [(He & _ & <- & _)|(He1 & w2 & H2 & M)]; [discriminate He|].
    destruct (Hok1 He1) as (_ & _ & Hfl1).
    destruct (call_LoadFile_step _ _ _ _ H2) as (_ & _ & Hk2 & _).
    destruct M as [(_ & _ & Hk & _)|(_ & w3 & last & e3 & H3 & M)];
      [discriminate Hk|].
    destruct M as [(He & _ & <- & _)|(-> & w5 & p2 & e5 & H5 & M)];
      [discriminate He|].
    pose proof (LoadElf_frame (snd (LoadFile (machine w0) f)) w2) as F3.
    cbv zeta in F3. rewrite H3 in F3. cbn [fst] in F3.
    destruct F3 as (_ & Hk3 & _).
    destruct (SetupPML4_step _ _ _ _ H5) as (_ & _ & _ & _ & _ & Hok5).
    destruct M as [(He & _ & <- & _)|(-> & Hcp & ->)]; [discriminate He|].
    destruct (Hok5 eq_refl) as (Hcr & _ & Hfl5).
    cbn [task set_app_loads] in Hfl5.
    apply call_CopyPageMaps_step in Hcp. destruct Hcp as (_ & _ & -> & _).
    cbn [pml4]. split; [exact Hcr|]. congruence.
Qed.

(** [x & 0xfffffffffffff000] on a 64-bit [x]: the start of its 4 KiB page. *)
Lemma land_page (x : Z) :
  0 <= x < 2 ^ 64 -> Z.land x 0xfffffffffffff000 = x - x mod 4096.
Proof.
  intros Hx.
  replace (x - x mod 4096) with (Z.shiftl (Z.shiftr x 12) 12).
  2:{ rewrite Z.shiftl_mul_pow2, Z.shiftr_div_pow2 by lia.
      change (2 ^ 12) with 4096. pose proof (Z.div_mod x 4096). lia. }
  change 0xfffffffffffff000 with (Z.shiftl (Z.ones 52) 12).
  apply Z.bits_inj'. intros n Hn.
  rewrite Z.land_spec, !Z.shiftl_spec by lia.
  destruct (Z_lt_dec n 12) as [Hlo|Hhi].
  - rewrite !(Z.testbit_neg_r _ (n - 12)) by lia. apply andb_false_r.
  - rewrite Z.shiftr_spec by lia. replace (n - 12 + 12) with n by lia.
    destruct (Z_lt_dec n 64) as [Hin|Hout].
    + rewrite Z.ones_spec_low by lia. apply andb_true_r.
    + rewrite Z.ones_spec_high by lia. rewrite andb_false_r.
      destruct (Z.eq_dec x 0) as [->|Hnz]; [symmetry; apply Z.bits_0|].
      symmetry. apply Z.bits_above_log2; [lia|].
      apply Z.lt_le_trans with 64; [|lia].
      apply Z.log2_lt_pow2; lia.
Qed.

(** With more than 32 strings [MakeArgVector] answers [kFull], and
    [ExecuteFile] returns before the application is called. *)
Lemma ExecuteFile_over_32_strings (f : DirectoryEntry)
  (command : string) (first_arg : option string) (w w' : World) (err : Error) :
  32 < Z.of_nat (length (ArgVector.argument_list command first_arg)) ->
  ExecuteFile f command first_arg w = (w', err) ->
  is_err err = true
  /\ term w' = term w
  /\ (exists evs, trace w' = trace w ++ evs /\ existsb is_CallApp evs = false)
  /\ (snd (snd (LoadApp f w)) = kSuccess ->
      snd (SetupPageMaps (machine (fst (LoadApp f w))) 0xfffffffffffff000 1 true)
      = kSuccess ->
      err = kFull).
Proof.
  intros Hmany H.
  pose proof (ArgVectorFacts.MakeArgVector_too_many_tokens command first_arg
                32 (4096 - 8 * 32) ltac:(lia) Hmany) as Hfull.
  assert (Hfirst : is_err err = true /\ term w' = term w
                   /\ exists evs, trace w' = trace w ++ evs
                        /\ existsb is_CallApp evs = false).
  { destruct (ExecuteFile_cases _ _ _ _ _ _ H) as [_ [Hfail|Hexit]].
    - destruct Hfail as (He & Ht & evs & Hx & Hf).
      split; [exact He|]. split; [exact Ht|]. exists evs.
      split; [exact Hx|]. apply before_transfer_all, Hf.
    - exfalso. destruct Hexit as (pre & a & r & t & out & tail & Hx & _).
      destruct (ExecuteFile_launched f command first_arg w w' err
                  (pre ++ ECallApp a r t :: tail) a r t H Hx
                  ltac:(apply in_or_app; right; left; reflexivity))
        as (w1 & info & m4 & run & m10 & e10 & _ & Hok & _).
      cbv zeta in Hok. congruence. }
  destruct Hfirst as (He & Ht & Hevs). repeat split; try assumption.
  intros HL HS. unfold ExecuteFile in H.
  destruct (LoadApp f w) as [w1 [info e1]]. cbn [fst snd] in HL, HS. subst e1.
  cbn [is_err] in H. unfold call_SetupPageMaps at 1 in H.
  destruct (SetupPageMaps (machine w1) _ _ _) as [m2 e2]. cbn [snd] in HS.
  subst e2. cbn [is_err] in H.
  destruct (ArgVector.MakeArgVector _ _ _ _) as [args e3]. cbn [snd] in Hfull.
  subst e3. cbn [is_err] in H. injection H as _ <-. reflexivity.
Qed.

(** X12.  An argument list of more than 32 strings never reaches the
    application: [ExecuteFile] returns an error without calling [CallApp],
    and the terminal is as before.  If the file was loaded and the argument
    page mapped, the error is [kFull]. *)
Theorem ExecuteFile_refuses_more_than_32_arguments (f : DirectoryEntry)
  (command : string) (first_arg : option string) (w w' : World) (err : Error) :
  32 < Z.of_nat (length (ArgVector.argument_list command first_arg)) ->
  ExecuteFile f command first_arg w = (w', err) ->
  is_err err = true
  /\ term w' = term w
  /\ (exists evs, trace w' = trace w ++ evs /\ existsb is_CallApp evs = false)
  /\ (snd (snd (LoadApp f w)) = kSuccess ->
      snd (SetupPageMaps (machine (fst (LoadApp f w))) 0xfffffffffffff000 1 true)
      = kSuccess ->
      err = kFull).
Proof. apply ExecuteFile_over_32_strings. Qed.

(** X13.  When [ExecuteFile] calls the application, [MakeArgVector] has
    succeeded and the first argument of [CallApp] is the number of strings
    of the argument list, between 1 and 32.  The other arguments are the
    address of the argument page, the stack segment selector [3 << 3 | 3],
    the entry point that [LoadApp] returned, and the stack pointer 8 bytes
    below the end of the stack page.  What the terminal has printed since
    is the output of the application and the exit message, and the value in
    the exit message is what this call returned. *)
Theorem ExecuteFile_calls_the_application_with_the_argument_list
  (f : DirectoryEntry) (command : string) (first_arg : option string)
  (w w' : World) (err : Error) (evs : list Event) (argc rip ret : Z) :
  ExecuteFile f command first_arg w = (w', err) ->
  trace w' = trace w ++ evs ->
  In (ECallApp argc rip ret) evs ->
  argc = Z.of_nat (length (ArgVector.argument_list command first_arg))
  /\ 1 <= argc <= 32
  /\ exists w1 info m t,
       LoadApp f w = (w1, (info, kSuccess))
       /\ rip = entry info
       /\ let run := CallApp m t argc 0xfffffffffffff000
                       (Z.lor (Z.shiftl 3 3) 3) rip
                       (0xffffffffffffe000 + 4096 - 8) in
          ret = run_ret run
          /\ printed_ (term w')
             = printed_ (term w) +++ run_output run
               +++ "app exited. ret = " +++ fmt_d (run_ret run) +++ endl.
Proof.
  intros H Hx Hin.
  destruct (ExecuteFile_launched _ _ _ _ _ _ _ _ _ _ H Hx Hin)
    as (w1 & info & m4 & run & m10 & e10 & HL & Hok & Hc & Hr & Hret & Hrun
        & _ & _ & Hterm).
  cbv zeta in Hok, Hc.
  rewrite ArgVectorLayout.MakeArgVector_push_all in Hok, Hc.
  assert (Hne : ArgVector.argument_list command first_arg <> [])
    by (unfold ArgVector.argument_list; discriminate).
  destruct (ArgVectorLayout.push_all_result 32 (4096 - 8 * 32) _
              ArgVector.init Hne) as (Hiff & _ & Hres).
  cbn [ArgVector.argc ArgVector.argbuf_index ArgVector.init] in Hiff, Hres.
  destruct (Hres Hok) as [Ha _]. apply Hiff in Hok. rewrite Ha in Hc.
  split; [lia|]. split.
  - subst argc. destruct (ArgVector.argument_list command first_arg);
      [congruence|cbn [length] in *; lia].
  - exists w1, info, m4. eexists. split; [exact HL|]. split; [exact Hr|].
    cbv zeta. change (Z.lor (Z.shiftl 3 3) 3) with 27.
    change (0xffffffffffffe000 + 4096 - 8) with 0xffffffffffffeff8.
    rewrite <- Hrun. split; [exact Hret|].
    rewrite Hterm.
    destruct (Print_editor (run_output run) (term w)) as [_ Hp1].
    destruct (Print_editor (exit_message (run_ret run))
                (Print (run_output run) (term w))) as [_ Hp2].
    rewrite Hp2, Hp1, append_assoc. reflexivity.
Qed.

(** X14.  The task the application is called on has three terminal
    descriptors pushed behind the descriptors the task had, an empty
    demand-paging range and the end of the file-map range at the stack page.
    The demand-paging range starts on a 4 KiB boundary, strictly above the
    end address of the image and at most 4096 bytes above it: an image that
    ends on a page boundary leaves one whole page unused. *)
Theorem ExecuteFile_prepares_the_task_of_the_application
  (f : DirectoryEntry) (command : string) (first_arg : option string)
  (w w' : World) (err : Error) (evs : list Event) (argc rip ret : Z) :
  ExecuteFile f command first_arg w = (w', err) ->
  trace w' = trace w ++ evs ->
  In (ECallApp argc rip ret) evs ->
  exists w1 info m t,
    LoadApp f w = (w1, (info, kSuccess))
    /\ ret = run_ret (CallApp m t argc 0xfffffffffffff000 27 rip
                        0xffffffffffffeff8)
    /\ Files t = Files (task w)
                 ++ repeat (TerminalFileDescriptor (task_id_ (term w))) 3
    /\ context_cr3 t = pml4 info
    /\ DPagingEnd t = DPagingBegin t
    /\ FileMapEnd t = 0xffffffffffffe000
    /\ (0 <= vaddr_end info < 2 ^ 64 - 4096 ->
        DPagingBegin t mod 4096 = 0
        /\ vaddr_end info < DPagingBegin t <= vaddr_end info + 4096).
Proof.
  intros H Hx Hin.
  destruct (ExecuteFile_launched _ _ _ _ _ _ _ _ _ _ H Hx Hin)
    as (w1 & info & m4 & run & m10 & e10 & HL & _ & _ & _ & Hret & Hrun & _).
  destruct (LoadApp_task _ _ _ _ HL) as [Hcr Hfl].
  pose proof (LoadApp_frame f w) as F. rewrite HL in F. cbn [fst] in F.
  destruct F as (Ht & _).
  exists w1, info, m4. eexists. split; [exact HL|].
  split; [rewrite Hret, Hrun; reflexivity|].
  unfold launch_task. cbn [Files context_cr3 DPagingBegin DPagingEnd FileMapEnd
                           SetFileMapEnd SetDPagingEnd SetDPagingBegin
                           set_Files].
  rewrite Hfl, Ht. split; [reflexivity|]. split; [exact Hcr|].
  split; [reflexivity|]. split; [reflexivity|].
  intros Hv. unfold wrap64. rewrite (Z.mod_small (vaddr_end info + 4096)) by lia.
  rewrite land_page by lia.
  pose proof (Z.mod_pos_bound (vaddr_end info + 4096) 4096 ltac:(lia)) as Hm.
  split; [|lia].
  pose proof (Z.div_mod (vaddr_end info + 4096) 4096 ltac:(lia)) as Hd.
  replace (vaddr_end info + 4096 - (vaddr_end info + 4096) mod 4096)
    with (4096 * ((vaddr_end info + 4096) / 4096)) by lia.
  rewrite Z.mul_comm. apply Z.mod_mul. lia.
Qed.

(** X15.  A launch that returns [kSuccess] has called the application
    once, its own calls before that being those of loading and mapping,
    then [CleanPageMaps] and [FreePageMap], both with success; it has
    cleared the descriptors and the file maps of the task and has set the
    page map of the task's context to 0.  With an application that leaves
    the context's page map alone, the page map freed is the one [LoadApp]
    returned for this launch. *)
Theorem ExecuteFile_frees_the_page_map_of_the_launch (f : DirectoryEntry)
  (command : string) (first_arg : option string) (w w' : World) :
  ExecuteFile f command first_arg w = (w', kSuccess) ->
  exists w1 info pre argc ret p,
    LoadApp f w = (w1, (info, kSuccess))
    /\ trace w'
       = trace w ++ pre ++ [ECallApp argc (entry info) ret;
                            ECleanPageMaps 0xffff800000000000 kSuccess;
                            EFreePageMap p kSuccess]
    /\ forallb before_transfer pre = true
    /\ context_cr3 (task w') = 0
    /\ Files (task w') = [] /\ FileMaps (task w') = []
    /\ (app_keeps_context -> p = pml4 info).
Proof.
  intros H.
  destruct (ExecuteFile_cases _ _ _ _ _ _ H) as [_ [Hfail|Hexit]];
    [destruct Hfail as (He & _); discriminate He|].
  destruct Hexit as (pre & a & r & t & out & tail & Hx & Hpre & HF & HM & _
                     & _ & Htail).
  destruct Htail as [(e & _ & He & <-)|(p & ->)]; [discriminate He|].
  destruct (ExecuteFile_launched f command first_arg w w' kSuccess _ a r t H Hx
              ltac:(apply in_or_app; right; left; reflexivity))
    as (w1 & info & m4 & run & m10 & e10 & HL & _ & _ & Hr & _ & Hrun & _
        & Hend & _).
  destruct (LoadApp_task _ _ _ _ HL) as [Hcr _].
  exists w1, info, pre, a, t, p. subst r.
  split; [exact HL|]. split; [exact Hx|]. split; [exact Hpre|].
  destruct (is_err e10) eqn:E10.
  { destruct Hend as [<- _]. discriminate E10. }
  destruct Hend as [Htask Hlast].
  split; [rewrite Htask; reflexivity|]. split; [exact HF|]. split; [exact HM|].
  intros Hkeep.
  replace (trace w) with (trace w ++ []) in Hx by apply app_nil_r.
  rewrite Hx in Hlast.
  replace ((trace w ++ []) ++ pre
           ++ [ECallApp a (entry info) t;
               ECleanPageMaps 0xffff800000000000 kSuccess;
               EFreePageMap p kSuccess])
    with ((trace w ++ pre ++ [ECallApp a (entry info) t;
                              ECleanPageMaps 0xffff800000000000 kSuccess])
          ++ [EFreePageMap p kSuccess]) in Hlast
    by (rewrite app_nil_r, <- !app_assoc; reflexivity).
  rewrite last_snoc in Hlast. injection Hlast as ->.
  rewrite Hrun, Hkeep. unfold launch_task.
  cbn [context_cr3 SetFileMapEnd SetDPagingEnd SetDPagingBegin set_Files].
  exact Hcr.
Qed.

End LauncherMore.

(** ** The cursor *)

Section CursorMore.
Context `{K : Kernel}.

Lemma newline_grid (t : Terminal) :
  cursor_in_grid t ->
  cursor_x (newline t) = 0
  /\ cursor_y (newline t) = Z.min (kRows - 1) (cursor_y t + 1).
Proof.
  intros [Hx Hy]. unfold newline. term_simpl.
  destruct (cursor_y t <? kRows - 1) eqn:E; term_simpl;
    [apply Z.ltb_lt in E|apply Z.ltb_ge in E]; split; try reflexivity; lia.
Qed.

Lemma Print_char_cursor (c : ascii) (t : Terminal) :
  cursor_in_grid t ->
  Ascii.eqb c LF = false ->
  cursor_x (Print_char c t) = (cursor_x t + 1) mod kColumns
  /\ cursor_y (Print_char c t)
     = Z.min (kRows - 1) (cursor_y t + (cursor_x t + 1) / kColumns).
Proof.
  intros G Hc. pose proof G as [Hx Hy]. unfold Print_char. rewrite Hc.
  change (cursor_x (add_printed c t)) with (cursor_x t).
  destruct (cursor_x t =? kColumns - 1) eqn:E.
  - apply Z.eqb_eq in E.
    destruct (newline_grid (add_printed c t) G) as [H1 H2].
    rewrite H1, H2. change (cursor_y (add_printed c t)) with (cursor_y t).
    replace (cursor_x t + 1) with kColumns by lia.
    rewrite Z.mod_same, Z.div_same by lia. split; [reflexivity|lia].
  - apply Z.eqb_neq in E. term_simpl.
    rewrite Z.mod_small, Z.div_small by lia. split; [reflexivity|lia].
Qed.

Lemma Print_char_grid (c : ascii) (t : Terminal) :
  cursor_in_grid t -> cursor_in_grid (Print_char c t).
Proof.
  intros G. pose proof G as [Hx Hy]. unfold cursor_in_grid.
  destruct (Ascii.eqb c LF) eqn:Hc.
  - unfold Print_char. rewrite Hc.
    destruct (newline_grid (add_printed c t) G) as [-> ->].
    change (cursor_y (add_printed c t)) with (cursor_y t). lia.
  - destruct (Print_char_cursor c t G Hc) as [-> ->].
    assert (HC : 0 < kColumns) by lia.
    pose proof (Z.mod_pos_bound (cursor_x t + 1) kColumns HC).
    assert (0 <= (cursor_x t + 1) / kColumns) by (apply Z.div_pos; lia).
    lia.
Qed.

Lemma Print_grid (s : string) :
  forall t, cursor_in_grid t -> cursor_in_grid (Print s t).
Proof.
  induction s as [|c s IH]; intros t G; cbn [Print]; [exact G|].
  apply IH, Print_char_grid, G.
Qed.

(** X16.  [Print] keeps the cursor on the grid: from a cursor with
    [0 <= x < kColumns] and [0 <= y < kRows] every string, of any length and
    with any bytes, leaves a cursor within the same bounds.  It changes
    neither the line buffer nor the command history. *)
Theorem Print_keeps_the_cursor_on_the_grid (s : string) (t : Terminal) :
  cursor_in_grid t ->
  cursor_in_grid (Print s t) /\ same_editor t (Print s t).
Proof.
  intros G. split; [apply Print_grid, G|apply Print_editor].
Qed.

(** X17.  A string without a newline, printed from the cursor [(x, y)],
    moves the cursor as on a grid of [kColumns] columns whose last row
    scrolls: the column becomes [(x + n) mod kColumns] for the [n] bytes of
    the string, and the row advances by [(x + n) / kColumns] but stops at
    [kRows - 1]. *)
Theorem Print_wraps_at_the_last_column (s : string) (t : Terminal) :
  cursor_in_grid t ->
  no_newline s = true ->
  cursor_x (Print s t) = (cursor_x t + strlen s) mod kColumns
  /\ cursor_y (Print s t)
     = Z.min (kRows - 1) (cursor_y t + (cursor_x t + strlen s) / kColumns).
Proof.
  revert t; induction s as [|c s IH]; intros t G Hs; pose proof G as [Hx Hy].
  - cbn [Print]. unfold strlen. cbn [String.length Z.of_nat].
    rewrite Z.add_0_r, Z.mod_small, Z.div_small by lia. split; lia.
  - cbn [Print no_newline] in *. apply andb_prop in Hs. destruct Hs as [Hc Hs].
    apply negb_true_iff in Hc.
    destruct (IH _ (Print_char_grid c t G) Hs) as [-> ->].
    destruct (Print_char_cursor c t G Hc) as [-> ->].
    assert (Hn : strlen (String c s) = 1 + strlen s)
      by (unfold strlen; cbn [String.length]; lia).
    rewrite Hn. assert (0 <= strlen s) by (unfold strlen; lia).
    replace (cursor_x t + (1 + strlen s)) with (cursor_x t + 1 + strlen s)
      by lia.
    set (a := cursor_x t + 1) in *. set (n := strlen s) in *.
    assert (Ha : 0 <= a) by (unfold a; lia).
    assert (HC : 0 < kColumns) by lia.
    assert (HC' : kColumns <> 0) by lia.
    pose proof (Z.div_mod a kColumns HC') as Hd.
    pose proof (Z.mod_pos_bound a kColumns HC) as Hm.
    assert (Hq : 0 <= a / kColumns) by (apply Z.div_pos; lia).
    assert (Hq2 : 0 <= (a mod kColumns + n) / kColumns)
      by (apply Z.div_pos; lia).
    assert (Hsplit : (a + n) / kColumns
                     = a / kColumns + (a mod kColumns + n) / kColumns).
    { replace (a + n) with (a / kColumns * kColumns + (a mod kColumns + n))
        by lia.
      rewrite Z.div_add_l by lia. reflexivity. }
    split.
    + rewrite Z.add_mod_idemp_l by lia. reflexivity.
    + rewrite Hsplit. lia.
Qed.

End CursorMore.

(** ** The line editor *)

Lemma set_term_same (w : World) : set_term (term w) w = w.
Proof. destruct w; reflexivity. Qed.

Lemma substring_whole (n : nat) :
  forall s, (String.length s <= n)%nat -> substring 0 n s = s.
Proof.
  induction n as [|n IH]; intros [|c s] H; cbn [substring String.length] in *;
    try reflexivity; [lia|].
  rewrite IH by lia. reflexivity.
Qed.

Lemma substring_length (n : nat) :
  forall s, String.length (substring 0 n s) = Nat.min n (String.length s).
Proof.
  induction n as [|n IH]; intros [|c s]; cbn [substring String.length];
    try reflexivity.
  rewrite IH. reflexivity.
Qed.

Lemma append_length (a b : string) :
  String.length (a +++ b) = (String.length a + String.length b)%nat.
Proof.
  induction a as [|c a IH]; [reflexivity|].
  rewrite append_cons. cbn [String.length]. rewrite IH. reflexivity.
Qed.

Section EditorFrame.
Context `{K : Kernel}.

Lemma same_editor_Print (s : string) (t : Terminal) :
  same_editor t (Print s t).
Proof. apply Print_editor. Qed.

Lemma ListAllEntries_cluster_editor (dir : list DirectoryEntry) :
  forall t, same_editor t (fst (ListAllEntries_cluster dir t)).
Proof.
  induction dir as [|e dir IH]; intros t; cbn [ListAllEntries_cluster fst];
    [apply same_editor_refl|].
  destruct (name0 e =? 0); [apply same_editor_refl|].
  destruct (name0 e =? 0xe5); [apply IH|].
  destruct (attr e =? kLongName); [apply IH|].
  eapply same_editor_trans; [|apply IH].
  eapply same_editor_trans; apply same_editor_Print.
Qed.

Lemma ListAllEntries_chain_editor (chain : list (list DirectoryEntry)) :
  forall t, same_editor t (ListAllEntries_chain chain t).
Proof.
  induction chain as [|dir chain IH]; intros t; cbn [ListAllEntries_chain];
    [apply same_editor_refl|].
  pose proof (ListAllEntries_cluster_editor dir t) as H.
  destruct (ListAllEntries_cluster dir t) as [t1 r]. cbn [fst] in H.
  destruct r; [exact H|]. eapply same_editor_trans; [exact H|apply IH].
Qed.

Lemma cat_clusters_editor (chain : list string) :
  forall n t, same_editor t (cat_clusters chain n t).
Proof.
  induction chain as [|p chain IH]; intros n t; cbn [cat_clusters];
    [apply same_editor_refl|].
  eapply same_editor_trans; [|apply IH]. apply same_editor_Print.
Qed.

Lemma lspci_lines_editor (m : Machine) (devs : list PciDevice) :
  forall w w', lspci_lines m devs w = Ok w' -> same_editor (term w) (term w').
Proof.
  induction devs as [|d devs IH]; intros w w' H; cbn [lspci_lines] in H.
  - injection H as <-. apply same_editor_refl.
  - destruct (sprintf64 _) as [s|]; [|discriminate].
    apply IH in H. eapply same_editor_trans; [|exact H].
    apply same_editor_Print.
Qed.

Lemma ExecuteFile_editor (f : DirectoryEntry) (command : string)
  (first_arg : option string) (w w' : World) (err : Error) :
  ExecuteFile f command first_arg w = (w', err) ->
  same_editor (term w) (term w').
Proof.
  intros H. destruct (ExecuteFile_cases _ _ _ _ _ _ H) as [_ [Hf|Hx]].
  - destruct Hf as (_ & -> & _). apply same_editor_refl.
  - destruct Hx as (pre & a & r & t & out & tail & _ & _ & _ & _ & He & _).
    exact He.
Qed.

Ltac editor_step :=
  first
    [ apply same_editor_refl
    | eapply same_editor_trans; [|apply same_editor_Print] ].

(** Of the editor's fields [ExecuteLine] writes [linebuf_] only, where it
    cuts the line after the command. *)
Lemma ExecuteLine_editor (w w' : World) :
  ExecuteLine w = Ok w' ->
  same_editor
    (set_linebuf (fst (split_command (linebuf_ (term w)))) (term w)) (term w').
Proof.
  unfold ExecuteLine.
  destruct (split_command (linebuf_ (term w))) as [command first_arg].
  cbn [fst].
  set (w0 := set_term (set_linebuf command (term w)) w).
  change (set_linebuf command (term w)) with (term w0).
  clearbody w0.
  destruct (String.eqb command "echo").
  { intros H. injection H as <-. destruct first_arg; world_simpl;
      repeat editor_step. }
  destruct (String.eqb command "clear").
  { intros H. injection H as <-. repeat split. }
  destruct (String.eqb command "lspci"); [apply lspci_lines_editor|].
  destruct (String.eqb command "ls").
  { destruct first_arg as [[|c a]|]; [| |discriminate].
    - intros H. injection H as <-. apply ListAllEntries_chain_editor.
    - unfold call_FindFile.
      destruct (FindFile (machine w0) _) as [[d|] post_slash].
      + destruct (attr d =? kDirectory); [|destruct post_slash];
          intros H; injection H as <-; world_simpl;
          [apply ListAllEntries_chain_editor|repeat editor_step..].
      + intros H; injection H as <-. world_simpl. repeat editor_step. }
  destruct (String.eqb command "cat").
  { unfold call_FindFile.
    destruct (FindFile (machine w0) _) as [[e|] post_slash].
    - destruct (negb (attr e =? kDirectory) && post_slash);
        intros H; injection H as <-; world_simpl;
        [repeat editor_step|apply cat_clusters_editor].
    - destruct first_arg as [a|]; [|discriminate].
      destruct (sprintf64 _) as [s|]; [|discriminate].
      intros H; injection H as <-. world_simpl. repeat editor_step. }
  destruct (String.eqb command "noterm").
  { intros H. injection H as <-. apply same_editor_refl. }
  destruct (String.eqb command "memstat").
  { destruct (Stat (machine w0)) as [a t].
    destruct (sprintf64 _) as [s1|]; [|discriminate].
    destruct (sprintf64 _) as [s2|]; [|discriminate].
    intros H. injection H as <-. world_simpl. repeat editor_step. }
  destruct command as [|c command].
  { intros H. injection H as <-. apply same_editor_refl. }
  unfold call_FindFile.
  destruct (FindFile (machine w0) _) as [[e|] post_slash].
  - destruct (negb (attr e =? kDirectory) && post_slash).
    + intros H; injection H as <-. world_simpl. repeat editor_step.
    + destruct (ExecuteFile e _ first_arg _) as [w2 err] eqn:HE.
      apply ExecuteFile_editor in HE. world_simpl.
      destruct (is_err err); intros H; injection H as <-; world_simpl;
        [|exact HE].
      eapply same_editor_trans; [exact HE|]. repeat editor_step.
  - intros H; injection H as <-. world_simpl. repeat editor_step.
Qed.

End EditorFrame.

Section EditorMore.
Context `{K : Kernel}.

Lemma plain_key_cases (c : ascii) :
  plain_key c = true ->
  Ascii.eqb c LF = false /\ Ascii.eqb c BS = false /\ Ascii.eqb c NUL = false.
Proof.
  unfold plain_key. intros H. apply andb_prop in H. destruct H as [H H3].
  apply andb_prop in H. destruct H as [H1 H2].
  apply negb_true_iff in H1, H2, H3. auto.
Qed.

(** A character key, as [InputKey] takes it. *)
Lemma InputKey_plain (modifier keycode : Z) (c : ascii) (w : World) :
  plain_key c = true ->
  InputKey modifier keycode c w
  = if (cursor_x (term w) <? kColumns - 1)
       && (linebuf_index_ (term w) <? kLineMax - 1)
    then Ok (set_term
               (set_cursor_x (cursor_x (term w) + 1)
                  (set_linebuf_index (linebuf_index_ (term w) + 1)
                     (set_linebuf (typed_line (term w) +++ String c "")
                        (term w)))) w)
    else Ok w.
Proof.
  intros H. destruct (plain_key_cases c H) as (H1 & H2 & H3).
  unfold InputKey. rewrite H1, H2, H3. reflexivity.
Qed.

Lemma typed_line_length (t : Terminal) :
  0 <= linebuf_index_ t <= strlen (linebuf_ t) ->
  strlen (typed_line t) = linebuf_index_ t.
Proof.
  intros H. unfold typed_line, strlen in *. rewrite substring_length. lia.
Qed.

Lemma typed_line_after_key (t : Terminal) (c : ascii) :
  0 <= linebuf_index_ t <= strlen (linebuf_ t) ->
  typed_line (set_cursor_x (cursor_x t + 1)
                (set_linebuf_index (linebuf_index_ t + 1)
                   (set_linebuf (typed_line t +++ String c "") t)))
  = typed_line t +++ String c "".
Proof.
  intros H. pose proof (typed_line_length t H) as Hl.
  unfold typed_line at 1. term_simpl. apply substring_whole.
  rewrite append_length. unfold strlen in Hl. cbn [String.length]. lia.
Qed.

(** What a string of character keys does to the line. *)
Lemma type_keys_spec (s : string) :
  forall (w : World),
  plain s = true ->
  0 <= linebuf_index_ (term w) <= strlen (linebuf_ (term w)) ->
  let n := Z.to_nat (Z.min (strlen s) (room (term w))) in
  exists t',
    type_keys s w = Ok (set_term t' w)
    /\ typed_line t' = typed_line (term w) +++ substring 0 n s
    /\ linebuf_index_ t' = linebuf_index_ (term w) + Z.of_nat n
    /\ cursor_x t' = cursor_x (term w) + Z.of_nat n
    /\ cursor_y t' = cursor_y (term w)
    /\ cmd_history_ t' = cmd_history_ (term w)
    /\ cmd_history_index_ t' = cmd_history_index_ (term w)
    /\ printed_ t' = printed_ (term w).
Proof.
  induction s as [|c s IH]; intros w Hp Hi; cbv zeta.
  - exists (term w). cbn [type_keys]. rewrite set_term_same.
    assert (Hn : Z.to_nat (Z.min (strlen "") (room (term w))) = 0%nat)
      by (unfold strlen, room; cbn [String.length]; lia).
    rewrite Hn. cbn [substring Z.of_nat]. rewrite append_empty_r, !Z.add_0_r.
    repeat split; reflexivity.
  - cbn [plain] in Hp. apply andb_prop in Hp. destruct Hp as [Hc Hs].
    cbn [type_keys]. rewrite (InputKey_plain _ _ _ _ Hc).
    assert (Hlen : strlen (String c s) = 1 + strlen s)
      by (unfold strlen; cbn [String.length]; lia).
    assert (Hs0 : 0 <= strlen s) by (unfold strlen; lia).
    destruct ((cursor_x (term w) <? kColumns - 1)
              && (linebuf_index_ (term w) <? kLineMax - 1)) eqn:E.
    + apply andb_prop in E. destruct E as [E1 E2].
      apply Z.ltb_lt in E1, E2.
      set (t1 := set_cursor_x (cursor_x (term w) + 1)
                   (set_linebuf_index (linebuf_index_ (term w) + 1)
                      (set_linebuf (typed_line (term w) +++ String c "")
                         (term w)))).
      pose proof (typed_line_after_key (term w) c Hi) as Ht1. fold t1 in Ht1.
      pose proof (typed_line_length (term w) Hi) as Hl.
      assert (Hi1 : 0 <= linebuf_index_ (term (set_term t1 w))
                    <= strlen (linebuf_ (term (set_term t1 w)))).
      { unfold t1. world_simpl. term_simpl. unfold strlen in *.
        rewrite append_length. cbn [String.length]. lia. }
      destruct (IH (set_term t1 w) Hs Hi1) as (t' & Hr & H1 & H2 & H3 & H4
                                               & H5 & H6 & H7).
      exists t'. split; [exact Hr|].
      assert (Hroom : room (term (set_term t1 w)) = room (term w) - 1)
        by (unfold room, t1; world_simpl; term_simpl; lia).
      assert (Hr0 : 1 <= room (term w)) by (unfold room; lia).
      rewrite Hroom in *.
      assert (Hn : Z.to_nat (Z.min (strlen (String c s)) (room (term w)))
                   = S (Z.to_nat (Z.min (strlen s) (room (term w) - 1))))
        by (rewrite Hlen; lia).
      rewrite Hn. cbn [substring].
      change (term (set_term t1 w)) with t1 in *.
      rewrite H1, H2, H3, H4, H5, H6, H7, Ht1, append_assoc, append_cons.
      unfold t1. term_simpl.
      repeat split; try reflexivity; lia.
    + assert (Hr0 : room (term w) = 0).
      { unfold room. apply andb_false_iff in E.
        destruct E as [E|E]; apply Z.ltb_ge in E; lia. }
      destruct (IH w Hs Hi) as (t' & Hr & H1 & H2 & H3 & H4 & H5 & H6 & H7).
      exists t'. split; [exact Hr|]. rewrite Hr0 in *.
      assert (Hn : Z.to_nat (Z.min (strlen (String c s)) 0) = 0%nat) by lia.
      assert (Hn' : Z.to_nat (Z.min (strlen s) 0) = 0%nat) by lia.
      rewrite Hn. rewrite Hn' in *. cbn [substring] in *.
      repeat split; try assumption.
      rewrite H1. destruct s; reflexivity.
Qed.

(** X18.  Character keys are appended to the line until it is full.  Typed
    on a line that can take [room] further characters, a string of keys that
    are neither newline, backspace nor 0 adds its first [room] characters to
    the line and moves the index and the cursor by as many; the characters
    beyond are dropped without notice.  Nothing is printed, nothing is
    executed and the history is not changed. *)
Theorem type_keys_fills_the_line (s : string) :
  forall (w : World),
  plain s = true ->
  0 <= linebuf_index_ (term w) <= strlen (linebuf_ (term w)) ->
  let n := Z.to_nat (Z.min (strlen s) (room (term w))) in
  exists t',
    type_keys s w = Ok (set_term t' w)
    /\ typed_line t' = typed_line (term w) +++ substring 0 n s
    /\ linebuf_index_ t' = linebuf_index_ (term w) + Z.of_nat n
    /\ cursor_x t' = cursor_x (term w) + Z.of_nat n
    /\ cursor_y t' = cursor_y (term w)
    /\ cmd_history_ t' = cmd_history_ (term w)
    /\ cmd_history_index_ t' = cmd_history_index_ (term w)
    /\ printed_ t' = printed_ (term w).
Proof. exact (type_keys_spec s). Qed.

Lemma Forall_removelast {A : Type} (P : A -> Prop) (l : list A) :
  Forall P l -> Forall P (removelast l).
Proof.
  induction 1 as [|x l Hx Hl IH]; cbn [removelast]; [constructor|].
  destruct l; [constructor|]. constructor; assumption.
Qed.

Lemma removelast_length_cons {A : Type} (x : A) (l : list A) :
  l <> [] -> length (x :: removelast l) = length l.
Proof.
  intros Hne. cbn [length]. induction l as [|y l IH]; [congruence|].
  cbn [removelast]. destruct l; [reflexivity|].
  cbn [length] in *. rewrite IH by discriminate. reflexivity.
Qed.

Lemma Forall_nth_default {A : Type} (P : A -> Prop) (l : list A) (d : A) :
  Forall P l -> P d -> forall n, P (nth n l d).
Proof.
  intros Hl Hd n. revert l Hl. induction n as [|n IH]; intros l Hl;
    destruct Hl; cbn [nth]; auto.
Qed.

Lemma HistoryUpDown_in_bounds (direction : Z) (t : Terminal) :
  1 <= kLineMax ->
  editor_in_bounds t -> editor_in_bounds (HistoryUpDown direction t).
Proof.
  intros HL (Hi & Hs & Hf & Hn). unfold HistoryUpDown.
  set (t1 := if (direction =? -1) && (0 <=? cmd_history_index_ t)
             then set_cmd_history_index (cmd_history_index_ t - 1) t
             else if (direction =? 1)
                     && (wrap64 (cmd_history_index_ t + 1)
                         <? Z.of_nat (length (cmd_history_ t)))
                  then set_cmd_history_index (cmd_history_index_ t + 1) t
                  else t).
  assert (Hh : cmd_history_ t1 = cmd_history_ t).
  { unfold t1. destruct (_ && _); [reflexivity|].
    destruct (_ && _); reflexivity. }
  cbv zeta. term_simpl. rewrite Hh.
  set (h := if 0 <=? cmd_history_index_ t1
            then nth (Z.to_nat (cmd_history_index_ t1)) (cmd_history_ t) ""
            else "").
  assert (Hb : strlen h <= kLineMax - 1).
  { unfold h. destruct (0 <=? cmd_history_index_ t1);
      [|unfold strlen; cbn [String.length Z.of_nat]; lia].
    apply (Forall_nth_default (fun h => strlen h <= kLineMax - 1));
      [exact Hf|unfold strlen; cbn [String.length Z.of_nat]; lia]. }
  unfold editor_in_bounds. term_simpl. rewrite Hh.
  assert (0 <= strlen h) by (unfold strlen; lia).
  repeat split; try assumption; lia.
Qed.

(** Every key keeps the editor in bounds. *)
Lemma InputKey_in_bounds (modifier keycode : Z) (c : ascii)
  (w w' : World) :
  1 <= kLineMax ->
  editor_in_bounds (term w) ->
  InputKey modifier keycode c w = Ok w' ->
  editor_in_bounds (term w').
Proof.
  intros HL Hb H. pose proof Hb as (Hi & Hs & Hf & Hn).
  pose proof (typed_line_length (term w) ltac:(lia)) as Hlen.
  unfold InputKey in H. destruct (Ascii.eqb c LF) eqn:E1.
  { match type of H with context [ExecuteLine ?x] =>
      destruct (ExecuteLine x) as [w1|] eqn:HE; [|discriminate H]
    end.
    injection H as <-. apply ExecuteLine_editor in HE.
    world_simpl. term_simpl. fold (typed_line (term w)) in HE.
    destruct (same_editor_Print ">" (term w1)) as (P1 & _ & P3 & P4).
    assert (0 <= strlen (linebuf_ (Print ">" (term w1))))
      by (unfold strlen; lia).
    unfold editor_in_bounds. rewrite P1, P4. clear P1 P3 P4.
    destruct (0 <? linebuf_index_ (term w)); term_simpl;
      destruct (cursor_y (term w) <? kRows - 1); term_simpl;
      destruct HE as (E1' & _ & _ & E4); term_simpl; rewrite E1', E4;
      (split; [lia|]); (split; [assumption|]).
    1,2: split; [constructor; [lia|apply Forall_removelast, Hf]|];
         rewrite removelast_length_cons; [exact Hn|];
         destruct (cmd_history_ (term w)); [discriminate Hn|discriminate].
    all: split; assumption. }
  destruct (Ascii.eqb c BS) eqn:E2.
  { destruct (0 <? cursor_x (term w)); injection H as <-; [|exact Hb].
    world_simpl. term_simpl.
    destruct (0 <? linebuf_index_ (term w)) eqn:E; unfold editor_in_bounds;
      term_simpl; [apply Z.ltb_lt in E|]; repeat split; try assumption; lia. }
  destruct (Ascii.eqb c NUL) eqn:E3; cbn [negb] in H.
  2:{ destruct ((cursor_x (term w) <? kColumns - 1)
                && (linebuf_index_ (term w) <? kLineMax - 1)) eqn:E;
        injection H as <-; [|exact Hb].
      apply andb_prop in E. destruct E as [_ E]. apply Z.ltb_lt in E.
      world_simpl. unfold editor_in_bounds. term_simpl.
      fold (typed_line (term w)). unfold strlen in *. rewrite append_length.
      cbn [String.length]. repeat split; try assumption; lia. }
  destruct (keycode =? 0x51);
    [injection H as <-; apply HistoryUpDown_in_bounds; assumption|].
  destruct (keycode =? 0x52);
    [injection H as <-; apply HistoryUpDown_in_bounds; assumption|].
  injection H as <-. exact Hb.
Qed.

(** X19.  The stores of the line editor stay inside their arrays.  A new
    terminal has the index at 0, an empty line and a history of 8 empty
    entries; and if the index is a position of [linebuf_] that leaves room
    for the NUL, every entry of the history fits [linebuf_], and the history
    has its 8 slots, the same holds after any key that [InputKey] handles to
    the end: a character is stored below [kLineMax - 1], Enter stores its
    NUL at the index, an arrow copies an entry that fits, and the history
    keeps its 8 slots. *)
Theorem the_editor_stays_in_bounds :
  1 <= kLineMax ->
  (forall task_id show_window,
     editor_in_bounds (Terminal_new task_id show_window))
  /\ (forall modifier keycode c w w',
       editor_in_bounds (term w) ->
       InputKey modifier keycode c w = Ok w' ->
       editor_in_bounds (term w')).
Proof.
  intros HL. split.
  - intros task_id show_window. unfold Terminal_new, editor_in_bounds.
    term_simpl.
    assert (Hs : forall t : Terminal,
              linebuf_index_ (if show_window then Print ">" t else t)
              = linebuf_index_ t
              /\ linebuf_ (if show_window then Print ">" t else t)
                 = linebuf_ t).
    { intros t. destruct show_window; [|auto].
      destruct (same_editor_Print ">" t) as (_ & _ & H3 & H4). auto. }
    destruct (Hs (mkTerminal task_id show_window 0 0 "" 0 [] (-1) ""))
      as [-> ->].
    term_simpl. unfold strlen. cbn [String.length Z.of_nat].
    split; [lia|]. split; [lia|]. split; [|reflexivity].
    repeat constructor; cbn [String.length Z.of_nat]; lia.
  - intros modifier keycode c w w' Hb H.
    exact (InputKey_in_bounds modifier keycode c w w' HL Hb H).
Qed.

(** The backspace key, as [InputKey] takes it. *)
Lemma InputKey_backspace (modifier keycode : Z) (w : World) :
  InputKey modifier keycode BS w
  = if 0 <? cursor_x (term w)
    then Ok (set_term
               (if 0 <? linebuf_index_ (term w)
                then set_linebuf_index (linebuf_index_ (term w) - 1)
                       (set_cursor_x (cursor_x (term w) - 1) (term w))
                else set_cursor_x (cursor_x (term w) - 1) (term w)) w)
    else Ok w.
Proof. reflexivity. Qed.

(** X20.  Backspace undoes a character.  On a line with room for a
    character, a character key followed by the backspace leaves the typed
    line, the index and the cursor column as they were, and nothing else has
    changed.  On a line that is full the character is dropped, and the
    backspace then removes the last character that was typed before it. *)
Theorem backspace_undoes_a_character (m1 k1 m2 k2 : Z) (c : ascii) (w : World) :
  plain_key c = true ->
  0 <= cursor_x (term w) ->
  0 <= linebuf_index_ (term w) <= strlen (linebuf_ (term w)) ->
  exists w1 t2,
    InputKey m1 k1 c w = Ok w1
    /\ InputKey m2 k2 BS w1 = Ok (set_term t2 w)
    /\ cursor_y t2 = cursor_y (term w)
    /\ cmd_history_ t2 = cmd_history_ (term w)
    /\ cmd_history_index_ t2 = cmd_history_index_ (term w)
    /\ printed_ t2 = printed_ (term w)
    /\ (1 <= room (term w) ->
        typed_line t2 = typed_line (term w)
        /\ linebuf_index_ t2 = linebuf_index_ (term w)
        /\ cursor_x t2 = cursor_x (term w))
    /\ (room (term w) = 0 -> 0 < cursor_x (term w) ->
        0 < linebuf_index_ (term w) ->
        linebuf_index_ t2 = linebuf_index_ (term w) - 1
        /\ cursor_x t2 = cursor_x (term w) - 1
        /\ typed_line (term w)
           = typed_line t2
             +++ substring (Z.to_nat (linebuf_index_ (term w) - 1)) 1
                   (linebuf_ (term w))).
Proof.
  intros Hc Hx Hi. rewrite (InputKey_plain _ _ _ _ Hc).
  destruct ((cursor_x (term w) <? kColumns - 1)
            && (linebuf_index_ (term w) <? kLineMax - 1)) eqn:E.
  - apply andb_prop in E. destruct E as [E1 E2]. apply Z.ltb_lt in E1, E2.
    eexists. eexists. split; [reflexivity|].
    rewrite InputKey_backspace. world_simpl. term_simpl.
    replace (0 <? cursor_x (term w) + 1) with true
      by (symmetry; apply Z.ltb_lt; lia).
    replace (0 <? linebuf_index_ (term w) + 1) with true
      by (symmetry; apply Z.ltb_lt; lia).
    split; [reflexivity|]. term_simpl.
    do 4 (split; [reflexivity|]).
    split; [intros _|intros Hr; exfalso; unfold room in Hr; lia].
    split; [|split; lia].
    + unfold typed_line. term_simpl.
      replace (linebuf_index_ (term w) + 1 - 1) with (linebuf_index_ (term w))
        by lia.
      fold (typed_line (term w)).
      pose proof (typed_line_length (term w) Hi) as Hl. unfold strlen in Hl.
      rewrite <- Hl at 1. rewrite Nat2Z.id.
      generalize (typed_line (term w)). intros l. clear.
      induction l as [|a l IH]; [reflexivity|].
      rewrite append_cons. cbn [String.length substring]. rewrite IH.
      reflexivity.
  - assert (Hr0 : room (term w) = 0).
    { unfold room. apply andb_false_iff in E.
      destruct E as [E|E]; apply Z.ltb_ge in E; lia. }
    exists w. rewrite InputKey_backspace.
    destruct (0 <? cursor_x (term w)) eqn:Ex.
    + destruct (0 <? linebuf_index_ (term w)) eqn:Ei.
      * eexists. split; [reflexivity|]. split; [reflexivity|]. term_simpl.
        do 4 (split; [reflexivity|]).
        split; [intros Hr; lia|]. intros _ _ _.
        split; [reflexivity|]. split; [reflexivity|].
        unfold typed_line. term_simpl.
        apply Z.ltb_lt in Ei.
        replace (Z.to_nat (linebuf_index_ (term w)))
          with (S (Z.to_nat (linebuf_index_ (term w) - 1))) by lia.
        assert (Hlt : (Z.to_nat (linebuf_index_ (term w) - 1)
                       < String.length (linebuf_ (term w)))%nat)
          by (unfold strlen in Hi; lia).
        revert Hlt. generalize (Z.to_nat (linebuf_index_ (term w) - 1)).
        generalize (linebuf_ (term w)). clear.
        intros l n. revert l. induction n as [|n IH]; intros [|a l] H;
          cbn [String.length] in H; try lia.
        -- cbn [substring]. destruct l; reflexivity.
        -- change (substring 0 (S (S n)) (String a l))
             with (String a (substring 0 (S n) l)).
           change (substring 0 (S n) (String a l))
             with (String a (substring 0 n l)).
           change (substring (S n) 1 (String a l)) with (substring n 1 l).
           rewrite append_cons. f_equal. apply IH. lia.
      * eexists. split; [reflexivity|]. split; [reflexivity|]. term_simpl.
        apply Z.ltb_ge in Ei.
        do 4 (split; [reflexivity|]).
        split; [intros Hr|intros _ _ Hp]; lia.
    + exists (term w). rewrite set_term_same. split; [reflexivity|].
      split; [reflexivity|]. apply Z.ltb_ge in Ex.
      do 4 (split; [reflexivity|]).
      split; [intros Hr|intros _ Hp _]; lia.
Qed.

Lemma substring_0_0 (s : string) : substring 0 0 s = "".
Proof. destruct s; reflexivity. Qed.

(** X21.  Enter on an empty line runs nothing.  With the index at 0 the
    line is empty whatever [linebuf_] still holds: no entry goes to the
    history, no collaborator is called, and the prompt is printed.  The
    index of the history is reset to -1. *)
Theorem InputKey_enter_on_an_empty_line (modifier keycode : Z) (w : World) :
  linebuf_index_ (term w) = 0 ->
  exists t',
    InputKey modifier keycode LF w = Ok (set_term t' w)
    /\ cmd_history_ t' = cmd_history_ (term w)
    /\ cmd_history_index_ t' = -1
    /\ linebuf_index_ t' = 0
    /\ linebuf_ t' = ""
    /\ printed_ t' = printed_ (term w) +++ ">".
Proof.
  intros Hi. unfold InputKey.
  cbn [Ascii.eqb LF ascii_of_nat ascii_of_pos Bool.eqb].
  cbv zeta. term_simpl. rewrite Hi. cbn [Z.to_nat Z.ltb Z.compare].
  rewrite substring_0_0. term_simpl.
  match goal with |- context [ExecuteLine ?x] =>
    assert (HE : ExecuteLine x = Ok x)
  end.
  { unfold ExecuteLine. world_simpl.
    destruct (cursor_y (term w) <? kRows - 1); term_simpl;
      cbn [split_command String.eqb]; clear Hi;
      destruct w as [m tk [a b x y l i h hi p] c tr]; reflexivity. }
  rewrite HE. eexists. split; [reflexivity|].
  destruct (Print_editor ">"
              (if cursor_y (term w) <? kRows - 1
               then set_cursor_y (cursor_y (term w) + 1)
                      (set_cursor_x 0
                         (set_cmd_history_index (-1)
                            (set_linebuf_index 0 (set_linebuf "" (term w)))))
               else set_cursor_x 0
                      (set_cmd_history_index (-1)
                         (set_linebuf_index 0 (set_linebuf "" (term w))))))
    as ((P1 & P2 & P3 & P4) & P5).
  world_simpl. rewrite P1, P2, P3, P4, P5.
  destruct (cursor_y (term w) <? kRows - 1); term_simpl;
    repeat split; reflexivity.
Qed.

Lemma HistoryUpDown_down (t : Terminal) (j : Z) :
  cmd_history_index_ t = j ->
  0 <= j ->
  cmd_history_ (HistoryUpDown (-1) t) = cmd_history_ t
  /\ cmd_history_index_ (HistoryUpDown (-1) t) = j - 1
  /\ linebuf_ (HistoryUpDown (-1) t)
     = (if 0 <=? j - 1 then nth (Z.to_nat (j - 1)) (cmd_history_ t) "" else "")
  /\ linebuf_index_ (HistoryUpDown (-1) t)
     = strlen (linebuf_ (HistoryUpDown (-1) t))
  /\ cursor_x (HistoryUpDown (-1) t)
     = strlen (linebuf_ (HistoryUpDown (-1) t)) + 1.
Proof.
  intros Hj H0. unfold HistoryUpDown. rewrite Hj.
  cbn [Z.eqb andb Pos.eqb].
  replace (0 <=? j) with true by (symmetry; apply Z.leb_le; lia).
  term_simpl. repeat split; reflexivity.
Qed.

(** X22.  The arrows do not keep the line that was being typed.  From an
    index [i] that has an older entry behind it, the up arrow followed by
    the down arrow comes back to [i], and the line is then entry [i] of the
    history, or empty when [i] is -1, whatever the line held before: what
    had been typed is not restored.  The history is not changed. *)
Theorem arrow_up_then_down_shows_the_entry_of_the_index (m1 m2 : Z)
  (w : World) (i : Z) :
  cmd_history_index_ (term w) = i ->
  -1 <= i ->
  i + 1 < Z.of_nat (length (cmd_history_ (term w))) ->
  Z.of_nat (length (cmd_history_ (term w))) <= 2 ^ 64 ->
  exists w1 t2,
    InputKey m1 0x52 NUL w = Ok w1
    /\ InputKey m2 0x51 NUL w1 = Ok (set_term t2 w)
    /\ cmd_history_ t2 = cmd_history_ (term w)
    /\ cmd_history_index_ t2 = i
    /\ linebuf_ t2
       = (if i =? -1 then "" else nth (Z.to_nat i) (cmd_history_ (term w)) "")
    /\ linebuf_index_ t2 = strlen (linebuf_ t2)
    /\ cursor_x t2 = strlen (linebuf_ t2) + 1.
Proof.
  intros Hi Hlo Hhi Hlen.
  destruct (InputKey_arrows m1 w) as [Hup _].
  destruct (InputKey_arrows m2 (set_term (HistoryUpDown 1 (term w)) w))
    as [_ Hdown].
  eexists. eexists. split; [exact Hup|]. split; [exact Hdown|].
  destruct (HistoryUpDown_up (term w) i Hi Hlo Hhi Hlen) as (H1 & H2 & _).
  world_simpl.
  destruct (HistoryUpDown_down (HistoryUpDown 1 (term w)) (i + 1) H2
              ltac:(lia)) as (D1 & D2 & D3 & D4 & D5).
  rewrite D4, D5, D1, D2, !D3, H1.
  replace (i + 1 - 1) with i by lia.
  split; [reflexivity|]. split; [reflexivity|].
  split; [|split; reflexivity].
  destruct (i =? -1) eqn:E.
  - apply Z.eqb_eq in E. rewrite E. reflexivity.
  - apply Z.eqb_neq in E.
    replace (0 <=? i) with true by (symmetry; apply Z.leb_le; lia).
    reflexivity.
Qed.

End EditorMore.

(** ** The argument page of a launch from the line *)




Section LineLaunch.
Context `{K : Kernel}.

(** Enter hands to [ExecuteLine] the line typed so far. *)
Lemma InputKey_enter_runs_the_typed_line (modifier keycode : Z) (w : World) :
  exists w1,
    linebuf_ (term w1) = typed_line (term w)
    /\ InputKey modifier keycode LF w
       = match ExecuteLine w1 with
         | Crash f => Crash f
         | Ok w2 => Ok (term_Print ">" w2)
         end.
Proof.
  unfold InputKey. cbn [Ascii.eqb LF ascii_of_nat ascii_of_pos Bool.eqb].
  eexists. split; [|reflexivity]. world_simpl. term_simpl.
  destruct (0 <? linebuf_index_ (term w)); term_simpl;
    destruct (cursor_y (term w) <? kRows - 1); reflexivity.
Qed.

(** A command that is no built-in and names a file: [ExecuteLine] hands the
    command and [first_arg], as it has split them, to [ExecuteFile]. *)
Lemma ExecuteLine_runs_the_file (w : World) (command : string)
  (first_arg : option string) (e : DirectoryEntry) (post_slash : bool) :
  split_command (linebuf_ (term w)) = (command, first_arg) ->
  builtin command = false ->
  command <> "" ->
  FindFile (machine w) (Some command) = (Some e, post_slash) ->
  negb (attr e =? kDirectory) && post_slash = false ->
  ExecuteLine w
  = let (w2, err) :=
      ExecuteFile e command first_arg
        (log (EFindFile (Some command))
           (set_term (set_linebuf command (term w)) w)) in
    if is_err err
    then Ok (term_Print endl
               (term_Print (Name err) (term_Print "failed to exec file: " w2)))
    else Ok w2.
Proof.
  intros Hs Hb Hne Hf Hd. unfold ExecuteLine. rewrite Hs.
  unfold builtin in Hb. cbn [existsb] in Hb.
  repeat (apply orb_false_elim in Hb; destruct Hb as [?E Hb]).
  rewrite E, E0, E1, E2, E3, E4, E5.
  destruct command as [|c command]; [congruence|].
  unfold call_FindFile. world_simpl. rewrite Hf, Hd. reflexivity.
Qed.


End LineLaunch.

(** ** The built-in commands *)

Lemma substring_0_empty (n : nat) : substring 0 n "" = "".
Proof. destruct n; reflexivity. Qed.

Lemma substring_app (a : string) :
  forall (n : nat) (b : string),
  substring 0 n (a +++ b)
  = substring 0 n a +++ substring 0 (n - String.length a) b.
Proof.
  induction a as [|c a IH]; intros n b.
  - rewrite substring_0_empty, Nat.sub_0_r. reflexivity.
  - rewrite append_cons. destruct n as [|n];
      [rewrite Nat.sub_0_l, (substring_0_0 b); reflexivity|].
    cbn [substring String.length Nat.sub]. rewrite IH, append_cons.
    reflexivity.
Qed.

Lemma substring_min (n : nat) :
  forall s, substring 0 n s = substring 0 (Nat.min n (String.length s)) s.
Proof.
  induction n as [|n IH]; intros [|c s]; try reflexivity.
  cbn [substring String.length Nat.min]. rewrite <- IH. reflexivity.
Qed.

Section DispatchMore.
Context `{K : Kernel}.

Lemma Print_printed (s : string) (t : Terminal) :
  printed_ (Print s t) = printed_ t +++ s.
Proof. apply Print_editor. Qed.

Lemma cat_clusters_printed (chain : list string) :
  forall (n : Z) (t : Terminal),
  printed_ (cat_clusters chain n t)
  = printed_ t +++ substring 0 (Z.to_nat n) (file_bytes chain).
Proof.
  induction chain as [|p chain IH]; intros n t;
    cbn [cat_clusters file_bytes fold_right].
  - rewrite substring_0_empty, append_empty_r. reflexivity.
  - fold (file_bytes chain). rewrite IH, Print_printed, append_assoc.
    f_equal. rewrite substring_app, (substring_min (Z.to_nat n) p).
    unfold strlen.
    replace (Z.to_nat (Z.min (Z.of_nat (String.length p)) (Z.max 0 n)))
      with (Nat.min (Z.to_nat n) (String.length p)) by lia.
    f_equal. f_equal. lia.
Qed.

Lemma live_entries_app (a b : list DirectoryEntry) :
  live_entries (a ++ b)
  = if existsb (fun e => name0 e =? 0) a then live_entries a
    else live_entries a ++ live_entries b.
Proof.
  induction a as [|e a IH]; cbn [app live_entries existsb]; [reflexivity|].
  destruct (name0 e =? 0); cbn [orb]; [reflexivity|].
  destruct ((name0 e =? 0xe5) || (attr e =? kLongName)); [exact IH|].
  rewrite IH. destruct (existsb _ a); reflexivity.
Qed.

Lemma listing_app (a b : list DirectoryEntry) :
  listing (a ++ b) = listing a +++ listing b.
Proof.
  induction a as [|e a IH]; [reflexivity|].
  cbn [app listing fold_right]. fold (listing (a ++ b)). fold (listing a).
  rewrite IH, !append_assoc. reflexivity.
Qed.

Lemma ListAllEntries_cluster_printed (dir : list DirectoryEntry) :
  forall t,
  printed_ (fst (ListAllEntries_cluster dir t))
  = printed_ t +++ listing (live_entries dir)
  /\ snd (ListAllEntries_cluster dir t) = existsb (fun e => name0 e =? 0) dir.
Proof.
  induction dir as [|e dir IH]; intros t;
    cbn [ListAllEntries_cluster live_entries existsb fst snd].
  - rewrite append_empty_r. auto.
  - destruct (name0 e =? 0); cbn [orb fst snd].
    { cbn [listing fold_right]. rewrite append_empty_r. auto. }
    destruct (name0 e =? 0xe5); cbn [orb]; [apply IH|].
    destruct (attr e =? kLongName); [apply IH|].
    destruct (IH (Print endl (Print (formatted_name e) t))) as [H1 H2].
    rewrite H1, H2, !Print_printed. cbn [listing fold_right].
    fold (listing (live_entries dir)). rewrite !append_assoc. auto.
Qed.

Lemma ListAllEntries_chain_printed (chain : list (list DirectoryEntry)) :
  forall t,
  printed_ (ListAllEntries_chain chain t)
  = printed_ t +++ listing (live_entries (concat chain)).
Proof.
  induction chain as [|dir chain IH]; intros t;
    cbn [ListAllEntries_chain concat].
  - cbn [live_entries listing fold_right]. rewrite append_empty_r. reflexivity.
  - destruct (ListAllEntries_cluster_printed dir t) as [H1 H2].
    destruct (ListAllEntries_cluster dir t) as [t1 r]. cbn [fst snd] in *.
    rewrite live_entries_app, <- H2.
    destruct r; [exact H1|].
    rewrite IH, H1, listing_app, append_assoc. reflexivity.
Qed.

(** X23.  [ls] lists a directory up to its end mark.  The lines printed are
    the formatted names, each with a newline, of the entries of the cluster
    chain that come before the first entry whose name begins with 0, the
    deleted entries and the long-name entries left out; nothing of a later
    cluster is shown once the mark was met.  With an empty argument ("ls "
    with its space) the directory is the root and no file is looked up;
    with the name of a directory it is that directory. *)
Theorem ls_lists_the_entries_before_the_end_mark (w : World) :
  (exists t',
     ExecuteLine (with_line "ls " w) = Ok (set_term t' w)
     /\ printed_ t'
        = printed_ (term w)
          +++ listing (live_entries
                         (concat (directory_clusters (machine w)
                                    (root_cluster (machine w))))))
  /\ (forall (c : ascii) (name : string) (d : DirectoryEntry)
             (post_slash : bool),
      FindFile (machine w) (Some (String c name)) = (Some d, post_slash) ->
      attr d = kDirectory ->
      exists t',
        ExecuteLine (with_line ("ls " +++ String c name) w)
        = Ok (log (EFindFile (Some (String c name))) (set_term t' w))
        /\ printed_ t'
           = printed_ (term w)
             +++ listing (live_entries
                            (concat (directory_clusters (machine w)
                                       (first_cluster d))))).
Proof.
  split.
  - eexists. split; [reflexivity|].
    etransitivity; [apply ListAllEntries_chain_printed|reflexivity].
  - intros c name d ps HF Hd.
    unfold ExecuteLine, with_line, call_FindFile. world_simpl. term_simpl.
    replace (split_command ("ls " +++ String c name))
      with ("ls", Some (String c name)) by reflexivity.
    cbn [Ascii.eqb Bool.eqb String.eqb]. world_simpl. rewrite HF, Hd.
    rewrite Z.eqb_refl. unfold ListAllEntries. world_simpl.
    eexists. split; [reflexivity|].
    etransitivity; [apply ListAllEntries_chain_printed|reflexivity].
Qed.

(** X24.  [cat] prints the first [file_size] bytes of the cluster chain of
    the file, and all of the chain if it is shorter; it prints nothing for
    a size of 0.  The file is looked up once, under the text that follows
    "cat " on the line. *)
Theorem cat_prints_the_first_file_size_bytes (w : World) (name : string)
  (e : DirectoryEntry) (post_slash : bool) :
  FindFile (machine w) (Some name) = (Some e, post_slash) ->
  negb (attr e =? kDirectory) && post_slash = false ->
  exists t',
    ExecuteLine (with_line ("cat " +++ name) w)
    = Ok (log (EFindFile (Some name)) (set_term t' w))
    /\ printed_ t'
       = printed_ (term w)
         +++ substring 0 (Z.to_nat (file_size e))
               (file_bytes (file_clusters (machine w) (first_cluster e)))
    /\ cmd_history_ t' = cmd_history_ (term w).
Proof.
  intros HF Hd.
  unfold ExecuteLine, with_line, call_FindFile. world_simpl. term_simpl.
  replace (split_command ("cat " +++ name)) with ("cat", Some name)
    by reflexivity.
  cbn [Ascii.eqb Bool.eqb String.eqb]. world_simpl. rewrite HF, Hd.
  eexists. split; [reflexivity|]. split.
  - etransitivity; [apply cat_clusters_printed|reflexivity].
  - etransitivity; [apply cat_clusters_history|reflexivity].
Qed.

Lemma strlen_append (a b : string) : strlen (a +++ b) = strlen a + strlen b.
Proof. unfold strlen. rewrite append_length. lia. Qed.

(** X25.  [cat] of a file that does not exist formats its message
    "no such file: <name>" and a newline into a buffer of 64 bytes.  With a
    name of at most 48 bytes the message is printed; with a longer name the
    [sprintf] writes past the end of the buffer. *)
Theorem cat_of_a_missing_file_overruns_with_a_long_name (w : World)
  (name : string) (post_slash : bool) :
  FindFile (machine w) (Some name) = (None, post_slash) ->
  (strlen name <= 48 ->
   exists t',
     ExecuteLine (with_line ("cat " +++ name) w)
     = Ok (log (EFindFile (Some name)) (set_term t' w))
     /\ printed_ t' = printed_ (term w) +++ "no such file: " +++ name +++ endl)
  /\ (48 < strlen name ->
      ExecuteLine (with_line ("cat " +++ name) w) = Crash BufferOverflow).
Proof.
  intros HF.
  assert (Hrun : ExecuteLine (with_line ("cat " +++ name) w)
                 = match sprintf64 ("no such file: " +++ name +++ endl) with
                   | Crash f => Crash f
                   | Ok s =>
                       Ok (term_Print s
                             (log (EFindFile (Some name))
                                (set_term
                                   (set_linebuf "cat"
                                      (term (with_line ("cat " +++ name) w)))
                                   (with_line ("cat " +++ name) w))))
                   end).
  { unfold ExecuteLine, with_line, call_FindFile. world_simpl. term_simpl.
    replace (split_command ("cat " +++ name)) with ("cat", Some name)
      by reflexivity.
    cbn [Ascii.eqb Bool.eqb String.eqb]. world_simpl. rewrite HF.
    reflexivity. }
  rewrite Hrun. unfold sprintf64. rewrite !strlen_append.
  change (strlen "no such file: ") with 14. change (strlen endl) with 1.
  split; intros Hn.
  - replace (14 + (strlen name + 1) + 1 <=? 64) with true
      by (symmetry; apply Z.leb_le; lia).
    exists (Print ("no such file: " +++ name +++ endl)
              (set_linebuf "cat" (term (with_line ("cat " +++ name) w)))).
    split; [reflexivity|]. rewrite Print_printed. reflexivity.
  - replace (14 + (strlen name + 1) + 1 <=? 64) with false
      by (symmetry; apply Z.leb_gt; lia).
    reflexivity.
Qed.

(** X26.  [echo] prints what follows the first space of the line byte for
    byte, further spaces included, and a newline; no collaborator is
    called.  It does not cut its argument into words. *)
Theorem echo_prints_the_rest_of_the_line (w : World) (text : string) :
  exists t',
    ExecuteLine (with_line ("echo " +++ text) w) = Ok (set_term t' w)
    /\ printed_ t' = printed_ (term w) +++ text +++ endl
    /\ cmd_history_ t' = cmd_history_ (term w).
Proof.
  unfold ExecuteLine, with_line. world_simpl. term_simpl.
  replace (split_command ("echo " +++ text)) with ("echo", Some text)
    by reflexivity.
  cbn [Ascii.eqb Bool.eqb String.eqb]. world_simpl.
  exists (Print endl
            (Print text
               (set_linebuf "echo"
                  (set_linebuf_index (strlen ("echo " +++ text))
                     (set_linebuf ("echo " +++ text) (term w)))))).
  split; [reflexivity|]. split.
  - rewrite !Print_printed, append_assoc. reflexivity.
  - rewrite !Print_cmd_history. reflexivity.
Qed.

(** The decimal digits of a number below [10 ^ k] are at most [k]. *)
Lemma digits_length (fuel : nat) :
  forall (k : nat) (n : Z) (acc : string),
  (1 <= k <= fuel)%nat ->
  0 <= n < 10 ^ Z.of_nat k ->
  (String.length (digits fuel 10 n acc) <= k + String.length acc)%nat.
Proof.
  induction fuel as [|fuel IH]; intros k n acc Hk Hn; [lia|].
  cbn [digits]. destruct (n / 10 =? 0) eqn:E; [cbn [String.length]; lia|].
  apply Z.eqb_neq in E.
  destruct k as [|[|k]]; [lia| |].
  - exfalso. apply E. apply Z.div_small. change (10 ^ Z.of_nat 1) with 10 in Hn.
    lia.
  - specialize (IH (S k) (n / 10)
                  (String (digit_char (n mod 10)) acc) ltac:(lia)).
    cbn [String.length] in IH.
    assert (Hp : 10 ^ Z.of_nat (S (S k)) = 10 * 10 ^ Z.of_nat (S k)).
    { rewrite (Nat2Z.inj_succ (S k)), Z.pow_succ_r by lia. reflexivity. }
    assert (Hd : 0 <= n / 10 < 10 ^ Z.of_nat (S k)).
    { split; [apply Z.div_pos; lia|].
      apply Z.div_lt_upper_bound; lia. }
    specialize (IH Hd). lia.
Qed.

Lemma fmt_d_length (k : nat) (n : Z) :
  (1 <= k <= 64)%nat -> 0 <= n < 10 ^ Z.of_nat k ->
  strlen (fmt_d n) <= Z.of_nat k.
Proof.
  intros Hk Hn. unfold fmt_d, strlen.
  replace (n <? 0) with false by (symmetry; apply Z.ltb_ge; lia).
  pose proof (digits_length 64 k n "" Hk Hn) as H.
  cbn [String.length] in H. lia.
Qed.

(** X27.  [memstat] never overruns its buffer.  With frame counts that are
    64-bit values, each of its two lines fits the 64 bytes it is formatted
    into, the second with one byte to spare; both are printed and no
    collaborator other than [Stat] is called.  The MiB figure is computed
    from the product of the count and the frame size as it wraps at 64
    bits. *)
Theorem memstat_fits_its_buffer (w : World) :
  0 <= fst (Stat (machine w)) < 2 ^ 64 ->
  0 <= snd (Stat (machine w)) < 2 ^ 64 ->
  let used := memstat_line "Phys used : " (fst (Stat (machine w))) in
  let total := memstat_line "Phys total : " (snd (Stat (machine w))) in
  strlen used + 1 <= 62
  /\ strlen total + 1 <= 63
  /\ exists t',
       ExecuteLine (with_line "memstat" w) = Ok (set_term t' w)
       /\ printed_ t' = printed_ (term w) +++ used +++ total.
Proof.
  intros Ha Ht. cbv zeta.
  assert (Hline : forall label n, 0 <= n < 2 ^ 64 ->
            strlen (memstat_line label n) <= strlen label + 49).
  { intros label n Hn. unfold memstat_line. rewrite !strlen_append.
    change (strlen " frames (") with 9. change (strlen " MiB)") with 5.
    change (strlen endl) with 1.
    assert (H1 : strlen (fmt_d n) <= 20).
    { apply (fmt_d_length 20); [lia|].
      change (10 ^ Z.of_nat 20) with 100000000000000000000.
      change (2 ^ 64) with 18446744073709551616 in Hn. lia. }
    assert (H2 : strlen (fmt_d (wrap64 (n * kBytesPerFrame) / 1024 / 1024))
                 <= 14).
    { apply (fmt_d_length 14); [lia|].
      change (10 ^ Z.of_nat 14) with 100000000000000.
      unfold wrap64.
      assert (Hm : 0 <= (n * kBytesPerFrame) mod 2 ^ 64 < 2 ^ 64)
        by (apply Z.mod_pos_bound; reflexivity).
      change (2 ^ 64) with 18446744073709551616 in *.
      rewrite Z.div_div by lia. split; [apply Z.div_pos; lia|].
      apply Z.div_lt_upper_bound; lia. }
    lia. }
  pose proof (Hline "Phys used : " _ Ha) as H1.
  pose proof (Hline "Phys total : " _ Ht) as H2.
  change (strlen "Phys used : ") with 12 in H1.
  change (strlen "Phys total : ") with 13 in H2.
  split; [lia|]. split; [lia|].
  unfold ExecuteLine, with_line. world_simpl. term_simpl.
  cbn [split_command Ascii.eqb Bool.eqb String.eqb].
  destruct (Stat (machine w)) as [a t] eqn:HS. cbn [fst snd] in *.
  fold (memstat_line "Phys used : " a). fold (memstat_line "Phys total : " t).
  unfold sprintf64.
  replace (strlen (memstat_line "Phys used : " a) + 1 <=? 64) with true
    by (symmetry; apply Z.leb_le; lia).
  replace (strlen (memstat_line "Phys total : " t) + 1 <=? 64) with true
    by (symmetry; apply Z.leb_le; lia).
  exists (Print (memstat_line "Phys total : " t)
            (Print (memstat_line "Phys used : " a)
               (set_linebuf "memstat"
                  (set_linebuf_index (strlen "memstat")
                     (set_linebuf "memstat" (term w)))))).
  split; [reflexivity|]. rewrite !Print_printed, append_assoc. reflexivity.
Qed.

End DispatchMore.

(** ** The terminal file descriptor and the length of its buffer *)

Section ReadMore.
Context `{K : Kernel}.

(** X28.  [Read] does not look at [len].  Whatever the length of the
    buffer, 0 included, it ends in the same way: asleep on an empty queue,
    or returning 0 with nothing stored, or returning 1 with one byte stored
    in [bufc[0]].  The messages left are those behind the key that ended the
    call, and the call has only printed: the line buffer and the history are
    as before. *)
Theorem Read_ignores_the_length_of_the_buffer (len len' : Z)
  (msgs : list Message) (t : Terminal) :
  Read len msgs t = Read len' msgs t
  /\ match Read len msgs t with
     | Returned n bufc0 rest t' =>
         ((n = 0 /\ bufc0 = None) \/ (n = 1 /\ exists c, bufc0 = Some c))
         /\ (exists used, msgs = used ++ rest /\ used <> [])
         /\ same_editor t t'
     | Asleep t' => same_editor t t'
     end.
Proof.
  revert t. induction msgs as [|m msgs IH]; intros t; cbn [Read].
  - split; [reflexivity|apply same_editor_refl].
  - assert (Hskip : forall t1, same_editor t t1 ->
              Read len msgs t1 = Read len' msgs t1
              /\ match Read len msgs t1 with
                 | Returned n bufc0 rest t' =>
                     ((n = 0 /\ bufc0 = None)
                      \/ (n = 1 /\ exists c, bufc0 = Some c))
                     /\ (exists used, m :: msgs = used ++ rest /\ used <> [])
                     /\ same_editor t t'
                 | Asleep t' => same_editor t t'
                 end).
    { intros t1 Ht1. destruct (IH t1) as [H1 H2]. split; [exact H1|].
      destruct (Read len msgs t1) as [n b rest t'|t'].
      - destruct H2 as (Hn & (used & -> & _) & He).
        split; [exact Hn|]. split.
        + exists (m :: used). split; [reflexivity|discriminate].
        + eapply same_editor_trans; eassumption.
      - eapply same_editor_trans; eassumption. }
    destruct m as [modifier keycode ascii press|ty];
      [|apply Hskip, same_editor_refl].
    destruct press; cbn [negb]; [|apply Hskip, same_editor_refl].
    destruct (negb (Z.land modifier (Z.lor kLControlBitMask kRControlBitMask)
                    =? 0)).
    + destruct (keycode =? 7); [|apply Hskip, same_editor_Print].
      split; [reflexivity|]. split; [left; auto|].
      split; [|apply same_editor_Print].
      exists [kKeyPush modifier keycode ascii true].
      split; [reflexivity|discriminate].
    + split; [reflexivity|]. split; [right; eauto|].
      split; [|apply same_editor_Print].
      exists [kKeyPush modifier keycode ascii true].
      split; [reflexivity|discriminate].
Qed.

End ReadMore.

Section BuiltinMore.
Context `{K : Kernel}.

Lemma lspci_lines_quiet (m : Machine) (devs : list PciDevice) :
  forall w w', lspci_lines m devs w = Ok w' ->
  task w' = task w /\ g_app_loads w' = g_app_loads w /\ trace w' = trace w.
Proof.
  induction devs as [|d devs IH]; intros w w' H; cbn [lspci_lines] in H.
  - injection H as <-. auto.
  - destruct (sprintf64 _) as [s|]; [|discriminate].
    apply IH in H. exact H.
Qed.

(** X30.  The built-in commands load nothing and launch nothing.  When the
    command of the line is [echo], [clear], [lspci], [ls], [cat], [noterm]
    or [memstat], [ExecuteLine] makes no call of the paging functions, of
    [fat::LoadFile] or of [CallApp], and leaves the task and the launch
    cache as they are: a file that bears the name of a built-in command is
    never run. *)
Theorem builtin_commands_launch_nothing (w w' : World) :
  builtin (fst (split_command (linebuf_ (term w)))) = true ->
  ExecuteLine w = Ok w' ->
  task w' = task w
  /\ g_app_loads w' = g_app_loads w
  /\ exists evs, trace w' = trace w ++ evs
       /\ existsb is_launch_step evs = false.
Proof.
  unfold ExecuteLine, builtin.
  destruct (split_command (linebuf_ (term w))) as [command first_arg].
  cbn [fst existsb].
  set (w0 := set_term (set_linebuf command (term w)) w).
  assert (Hnil : forall x : World,
            task x = task w ->
            g_app_loads x = g_app_loads w -> trace x = trace w ->
            task x = task w
            /\ g_app_loads x = g_app_loads w
            /\ exists evs, trace x = trace w ++ evs
                 /\ existsb is_launch_step evs = false).
  { intros x H2 H3 H4. repeat split; try assumption.
    exists []. rewrite app_nil_r. auto. }
  assert (Hone : forall (x : World) (e : Event),
            is_launch_step e = false ->
            task x = task w ->
            g_app_loads x = g_app_loads w -> trace x = trace w ++ [e] ->
            task x = task w
            /\ g_app_loads x = g_app_loads w
            /\ exists evs, trace x = trace w ++ evs
                 /\ existsb is_launch_step evs = false).
  { intros x e He H2 H3 H4. repeat split; try assumption.
    exists [e]. cbn [existsb]. rewrite He. auto. }
  destruct (String.eqb command "echo") eqn:E1.
  { intros _ H. injection H as <-. destruct first_arg; apply Hnil; reflexivity. }
  destruct (String.eqb command "clear") eqn:E2.
  { intros _ H. injection H as <-. apply Hnil; reflexivity. }
  destruct (String.eqb command "lspci") eqn:E3.
  { intros _ H. apply lspci_lines_quiet in H. destruct H as (H2 & H3 & H4).
    apply Hnil; assumption. }
  destruct (String.eqb command "ls") eqn:E4.
  { intros _. destruct first_arg as [[|c a]|]; [| |discriminate].
    - intros H. injection H as <-. apply Hnil; reflexivity.
    - unfold call_FindFile.
      destruct (FindFile (machine w0) _) as [[d|] post_slash].
      + destruct (attr d =? kDirectory); [|destruct post_slash];
          intros H; injection H as <-;
          apply (Hone _ (EFindFile (Some (String c a)))); reflexivity.
      + intros H; injection H as <-.
        apply (Hone _ (EFindFile (Some (String c a)))); reflexivity. }
  destruct (String.eqb command "cat") eqn:E5.
  { intros _. unfold call_FindFile.
    destruct (FindFile (machine w0) _) as [[e|] post_slash].
    - destruct (negb (attr e =? kDirectory) && post_slash);
        intros H; injection H as <-;
        apply (Hone _ (EFindFile first_arg)); reflexivity.
    - destruct first_arg as [a|]; [|discriminate].
      destruct (sprintf64 _) as [s|]; [|discriminate].
      intros H; injection H as <-.
      apply (Hone _ (EFindFile (Some a))); reflexivity. }
  destruct (String.eqb command "noterm") eqn:E6.
  { intros _ H. injection H as <-.
    apply (Hone _ (ENewTask first_arg)); reflexivity. }
  destruct (String.eqb command "memstat") eqn:E7.
  { intros _. destruct (Stat (machine w0)) as [a t].
    destruct (sprintf64 _) as [s1|]; [|discriminate].
    destruct (sprintf64 _) as [s2|]; [|discriminate].
    intros H. injection H as <-. apply Hnil; reflexivity. }
  cbn [orb]. discriminate.
Qed.

End BuiltinMore.

(* ================================================================= *)
(** * The claims on the small kernel *)

Module Runs.
Import Demo.

Lemma with_error_eta {A B : Type} (x : A * (B * Error)) (e : Error) :
  snd (snd x) = e -> x = (fst x, (fst (snd x), e)).
Proof. destruct x as [a [b e']]. cbn. intros ->. reflexivity. Qed.

Lemma error_eta {A : Type} (x : A * Error) (e : Error) :
  snd x = e -> x = (fst x, e).
Proof. destruct x as [a e']. cbn. intros ->. reflexivity. Qed.

(** The first launch of the demo application: the segment's two file bytes
    arrive, and its two further bytes are the 0xAA, 0xBB of addresses 0, 1. *)
Example LoadElf_demo_bytes :
  let r := @LoadElf K0 app_ehdr (@world0 K0) in
  let m := mem (machine (fst r)) in
  snd r = (0xffff800000000004, kSuccess)
  /\ [m 0xffff800000000000; m 0xffff800000000001;
      m 0xffff800000000002; m 0xffff800000000003] = [0x11; 0x22; 0xAA; 0xBB].
Proof. vm_compute. split; reflexivity. Qed.

Lemma CopyLoadSegments_tail_witness :
  mem (machine (fst (@CopyLoadSegments K0 app_ehdr (@world0 K0))))
    (p_vaddr app_phdr + p_filesz app_phdr + 1)
  = mem (fst (@SetupPageMaps K0 (machine (@world0 K0)) (p_vaddr app_phdr)
                (wrap64 (p_memsz app_phdr + 4095) / 4096) false)) 1.
Proof.
  refine (proj2 (@CopyLoadSegments_tail_copied_from_address_zero K0
                   app_ehdr app_phdr (@world0 K0) _ _ _ _ _ _ _) 1 _).
  - reflexivity.
  - reflexivity.
  - reflexivity.
  - vm_compute. split; discriminate.
  - vm_compute. discriminate.
  - vm_compute. reflexivity.
  - vm_compute. split; discriminate.
  - vm_compute. split; [discriminate|reflexivity].
Defined.

Lemma LoadElf_invalid_format_witness :
  @LoadElf K0 shared_object_ehdr (@world0 K0) = (@world0 K0, (0, kInvalidFormat))
  /\ @LoadElf K0 low_ehdr (@world0 K0) = (@world0 K0, (0, kInvalidFormat)).
Proof.
  split; apply LoadElf_invalid_format.
  - left. vm_compute. discriminate.
  - right. vm_compute. reflexivity.
Defined.

Lemma LoadApp_second_launch_witness :
  (exists evs,
     trace (fst (@LoadApp K0 app_entry after_first_launch))
     = trace after_first_launch ++ evs
     /\ existsb is_LoadFile evs = false)
  /\ (snd (snd (@LoadApp K0 app_entry after_first_launch)) = kSuccess ->
      entry (fst (snd (@LoadApp K0 app_entry after_first_launch)))
      = entry (fst (snd (@LoadApp K0 app_entry (@world0 K0))))
      /\ vaddr_end (fst (snd (@LoadApp K0 app_entry after_first_launch)))
         = vaddr_end (fst (snd (@LoadApp K0 app_entry (@world0 K0))))).
Proof.
  apply (@LoadApp_second_launch_hits_cache K0 app_entry (@world0 K0)
           (fst (@LoadApp K0 app_entry (@world0 K0))) after_first_launch
           (fst (@LoadApp K0 app_entry after_first_launch))
           (fst (snd (@LoadApp K0 app_entry (@world0 K0))))
           (fst (snd (@LoadApp K0 app_entry after_first_launch)))
           (snd (snd (@LoadApp K0 app_entry after_first_launch)))).
  - assert (H : snd (snd (@LoadApp K0 app_entry (@world0 K0))) = kSuccess)
      by (vm_compute; reflexivity).
    destruct (@LoadApp K0 app_entry (@world0 K0)) as [w1 [i1 e1]].
    cbn [fst snd] in *. rewrite H. reflexivity.
  - intros v. vm_compute. intros H. exact H.
  - destruct (@LoadApp K0 app_entry after_first_launch) as [w3 [i2 e2]].
    reflexivity.
Defined.

(** C6, the claim as stated.  After the first launch of the demo
    application its page map and the kernel's agree on the entries 0 and
    255 of the lower half, and differ on entry 256, the first of the upper
    half: the application is mapped there, the kernel has nothing.  And the
    shared half itself does not stay as it was copied: an image that
    [LoadElf] accepts, its first loadable segment being at
    0xffff800000000000, has a second one at 0x400000; after its launch entry
    0 of the new page map is 0x400003, while the kernel's is 0x2003. *)
Lemma page_map_halves_diverge :
  (let r := @LoadApp K0 app_entry (@world0 K0) in
   let m := machine (fst r) in
   let p := pml4 (fst (snd r)) in
   snd (snd r) = kSuccess
   /\ [pagemap m p 0; pagemap m p 255]
      = [pagemap m 0x1000 0; pagemap m 0x1000 255]
   /\ pagemap m p 256 = 0xffff800000000003
   /\ pagemap m 0x1000 256 = 0)
  /\ (let r := @LoadApp K_low_segment app_entry (@world0 K_low_segment) in
      let m := machine (fst r) in
      let p := pml4 (fst (snd r)) in
      snd (snd r) = kSuccess
      /\ @GetFirstLoadAddress K_low_segment low_segment_ehdr
         = 0xffff800000000000
      /\ map p_vaddr
           (@load_segments K_low_segment (GetProgramHeader low_segment_ehdr))
         = [0xffff800000000000; 0x400000]
      /\ pagemap m p 0 = 0x400003
      /\ pagemap m 0x1000 0 = 0x2003
      /\ pagemap (machine (@world0 K_low_segment)) 0x1000 0 = 0x2003).
Proof. vm_compute. repeat split. Qed.

(** The top-level entry of an address of the upper half is one of the
    entries 256 to 511. *)
Lemma pml4_index_upper (a : Z) : upper_half a -> 256 <= pml4_index a < 512.
Proof.
  unfold upper_half, pml4_index. intros [Hlo Hhi].
  assert (Hq : 2 ^ 25 - 256 <= a / 2 ^ 39 < 2 ^ 25).
  { split.
    - apply Z.div_le_lower_bound; lia.
    - apply Z.div_lt_upper_bound; lia. }
  pose proof (Z.div_mod (a / 2 ^ 39) 512 ltac:(lia)) as Hd.
  pose proof (Z.mod_pos_bound (a / 2 ^ 39) 512 ltac:(lia)) as Hm.
  change (2 ^ 25) with 33554432 in Hq. lia.
Qed.

(** The small kernel is one whose paging calls write only the entries of
    the addresses they are given. *)
Lemma kernel_keeps_lower_half (setup_err : Z -> Error) (clean_err : Error)
  (ret : Z) :
  @paging_keeps_lower_half (kernel setup_err clean_err ret).
Proof.
  unfold paging_keeps_lower_half, lower_half_kept.
  cbn [SetupPageMaps CopyPageMaps LoadFile NewPageMap kernel fst snd].
  split; [|split; [|split]].
  - intros m a n b Ha. destruct (setup_err a); cbn [fst]; try (split; reflexivity).
    split; [reflexivity|]. intros q i Hi. cbn [pagemap set_pagemap].
    pose proof (pml4_index_upper a Ha) as Hidx.
    replace (i =? pml4_index a) with false by (symmetry; apply Z.eqb_neq; lia).
    rewrite andb_false_r. reflexivity.
  - intros m d s. split; [reflexivity|]. intros q i Hi.
    cbn [pagemap set_pagemap].
    replace (256 <=? i) with false by (symmetry; apply Z.leb_gt; lia).
    rewrite andb_false_r. reflexivity.
  - intros m f. split; reflexivity.
  - intros m. split; [reflexivity|]. intros i Hi. cbn [pagemap].
    replace (cr3 m =? fresh_page_map m) with false; [reflexivity|].
    symmetry. apply Z.eqb_neq. unfold fresh_page_map.
    destruct (0x10000 + 0x1000 * aux m 0 =? cr3 m) eqn:E.
    + apply Z.eqb_eq in E. lia.
    + apply Z.eqb_neq in E. congruence.
Qed.

Lemma lower_half_kept_witness :
  pagemap (machine (fst (@LoadApp K0 app_entry (@world0 K0))))
    (pml4 (fst (snd (@LoadApp K0 app_entry (@world0 K0))))) 255
  = pagemap (machine (@world0 K0)) (cr3 (machine (@world0 K0))) 255
  /\ (0xffff800000000000 <= @GetFirstLoadAddress K_low_segment low_segment_ehdr
      /\ trace (fst (@LoadElf K_low_segment low_segment_ehdr
                       (@world0 K_low_segment)))
         = trace (@world0 K_low_segment)
           ++ [ESetupPageMaps 0xffff800000000000 1 false kSuccess;
               ESetupPageMaps 0x400000 1 false kSuccess])
  /\ (pml4 (fst (snd (@LoadApp K0 app_entry after_first_launch))) = 0x12000
      /\ trace (fst (@LoadApp K0 app_entry after_first_launch))
         = trace after_first_launch
           ++ [ENewPageMap (0x12000, kSuccess);
               ECopyPageMaps 0x12000 0x10000 4 256 kSuccess]).
Proof.
  split; [|split].
  - refine (proj1 (proj2 (@lower_half_copied_at_creation_and_kept K0))
              (kernel_keeps_lower_half all_ok kSuccess 5) app_entry (@world0 K0)
              (fst (@LoadApp K0 app_entry (@world0 K0)))
              (fst (snd (@LoadApp K0 app_entry (@world0 K0)))) _ _ 255 _).
    + intros m. repeat constructor; vm_compute; discriminate.
    + apply with_error_eta. vm_compute. reflexivity.
    + lia.
  - refine (proj1 (proj2 (proj2 (@lower_half_copied_at_creation_and_kept
                                   K_low_segment)))
              low_segment_ehdr (@world0 K_low_segment)
              (fst (@LoadElf K_low_segment low_segment_ehdr
                      (@world0 K_low_segment)))
              (fst (snd (@LoadElf K_low_segment low_segment_ehdr
                           (@world0 K_low_segment)))) _).
    apply with_error_eta. vm_compute. reflexivity.
  - refine (proj2 (proj2 (proj2 (@lower_half_copied_at_creation_and_kept K0)))
              app_entry after_first_launch
              (fst (@LoadApp K0 app_entry after_first_launch))
              (mkAppLoad 0xffff800000000004 0xffff800000000120 0x10000)
              (fst (snd (@LoadApp K0 app_entry after_first_launch)))
              kSuccess 0x12000 _ _ _).
    + vm_compute. reflexivity.
    + apply with_error_eta. vm_compute. reflexivity.
    + vm_compute. reflexivity.
Defined.

(** C3, the claim as stated.  Mapping the stack page fails: the launch
    returns the error, having created two page maps and mapped the segment
    and the argument page, and it calls neither [CleanPageMaps] nor
    [FreePageMap]; the task is left on the page map of the launch. *)
Lemma failed_launch_is_not_torn_down :
  let r := @ExecuteFile K_stack app_entry "app" None (@world0 K_stack) in
  snd r = kOther 7
  /\ trace (fst r)
     = [ENewPageMap (0x10000, kSuccess); ELoadFile 0x7000;
        ESetupPageMaps 0xffff800000000000 1 false kSuccess;
        ENewPageMap (0x11000, kSuccess);
        ECopyPageMaps 0x11000 0x10000 4 256 kSuccess;
        ESetupPageMaps 0xfffffffffffff000 1 true kSuccess;
        ESetupPageMaps 0xffffffffffffe000 1 true (kOther 7)]
  /\ existsb is_teardown (trace (fst r)) = false
  /\ context_cr3 (task (fst r)) = 0x11000
  /\ cr3 (machine (fst r)) = 0x11000.
Proof. vm_compute. repeat split. Qed.

(** Two launches that fail: the one above, which stops at the mapping of
    the stack page with the task on the second page map it created; and one
    that stops at its first step, no page map being left, with the task as
    it was. *)
Lemma ExecuteFile_failure_witness :
  (let r := @ExecuteFile K_stack app_entry "app" None (@world0 K_stack) in
   let evs := [ENewPageMap (0x10000, kSuccess); ELoadFile 0x7000;
               ESetupPageMaps 0xffff800000000000 1 false kSuccess;
               ENewPageMap (0x11000, kSuccess);
               ECopyPageMaps 0x11000 0x10000 4 256 kSuccess;
               ESetupPageMaps 0xfffffffffffff000 1 true kSuccess;
               ESetupPageMaps 0xffffffffffffe000 1 true (kOther 7)] in
   is_err (snd r) = true
   /\ failing_step "app" None evs (snd r)
   /\ existsb is_teardown evs = false
   /\ term (fst r) = term (@world0 K_stack)
   /\ task (fst r)
      = set_context_cr3 (last_page_map evs (context_cr3 (task (@world0 K_stack))))
          (task (@world0 K_stack)))
  /\ (let r := @ExecuteFile K_no_page_map app_entry "app" None
                 (@world0 K_no_page_map) in
      let evs := [ENewPageMap (0, kOther 1)] in
      is_err (snd r) = true
      /\ failing_step "app" None evs (snd r)
      /\ existsb is_teardown evs = false
      /\ term (fst r) = term (@world0 K_no_page_map)
      /\ task (fst r)
         = set_context_cr3
             (last_page_map evs (context_cr3 (task (@world0 K_no_page_map))))
             (task (@world0 K_no_page_map))).
Proof.
  cbv zeta. split.
  - apply (@ExecuteFile_failure_returns_error_without_teardown K_stack
             app_entry "app" None (@world0 K_stack)
             (fst (@ExecuteFile K_stack app_entry "app" None (@world0 K_stack)))).
    + apply surjective_pairing.
    + vm_compute. reflexivity.
    + vm_compute. reflexivity.
  - apply (@ExecuteFile_failure_returns_error_without_teardown K_no_page_map
             app_entry "app" None (@world0 K_no_page_map)
             (fst (@ExecuteFile K_no_page_map app_entry "app" None
                     (@world0 K_no_page_map)))).
    + apply surjective_pairing.
    + vm_compute. reflexivity.
    + vm_compute. reflexivity.
Defined.

(** What these two launches return, and where they leave the task. *)
Example failed_launches :
  (let r := @ExecuteFile K_stack app_entry "app" None (@world0 K_stack) in
   snd r = kOther 7 /\ context_cr3 (task (fst r)) = 0x11000)
  /\ (let r := @ExecuteFile K_no_page_map app_entry "app" None
                 (@world0 K_no_page_map) in
      snd r = kOther 1
      /\ trace (fst r) = [ENewPageMap (0, kOther 1)]
      /\ context_cr3 (task (fst r)) = 0
      /\ task (fst r) = task (@world0 K_no_page_map)).
Proof. vm_compute. repeat split. Qed.

(** C8, the claim as stated.  The application returns 5 and
    [CleanPageMaps] fails: the descriptors are cleared and the message is
    printed, but [FreePageMap] is not called, and the task's context still
    names the page map of the launch. *)
Lemma failed_clean_skips_FreePML4 :
  let r := @ExecuteFile K_clean app_entry "app" None (@world0 K_clean) in
  snd r = kOther 9
  /\ existsb is_CallApp (trace (fst r)) = true
  /\ last (trace (fst r))
     = Some (ECleanPageMaps 0xffff800000000000 (kOther 9))
  /\ existsb is_FreePageMap (trace (fst r)) = false
  /\ context_cr3 (task (fst r)) = 0x11000
  /\ Files (task (fst r)) = []
  /\ printed_ (term (fst r)) = ">hi" +++ exit_message 5.
Proof. vm_compute. repeat split. Qed.

Lemma ExecuteFile_after_child_witness :
  let r := @ExecuteFile K0 app_entry "app" (Some "x y") (@world0 K0) in
  let pre := [ENewPageMap (0x10000, kSuccess); ELoadFile 0x7000;
              ESetupPageMaps 0xffff800000000000 1 false kSuccess;
              ENewPageMap (0x11000, kSuccess);
              ECopyPageMaps 0x11000 0x10000 4 256 kSuccess;
              ESetupPageMaps 0xfffffffffffff000 1 true kSuccess;
              ESetupPageMaps 0xffffffffffffe000 1 true kSuccess] in
  let evs := pre ++ [ECallApp 3 0xffff800000000120 5;
                     ECleanPageMaps 0xffff800000000000 kSuccess;
                     EFreePageMap 0x11000 kSuccess] in
  Files (task (fst r)) = []
  /\ FileMaps (task (fst r)) = []
  /\ (exists before, printed_ (term (fst r)) = before +++ exit_message 5)
  /\ exists pre',
       (exists e, evs = pre' ++ [ECallApp 3 0xffff800000000120 5;
                                 ECleanPageMaps 0xffff800000000000 e]
                  /\ is_err e = true /\ snd r = e)
       \/ (exists p, evs = pre' ++ [ECallApp 3 0xffff800000000120 5;
                                    ECleanPageMaps 0xffff800000000000 kSuccess;
                                    EFreePageMap p (snd r)]).
Proof.
  cbv zeta.
  apply (@ExecuteFile_after_child_returns K0 app_entry "app" (Some "x y")
           (@world0 K0)).
  - apply surjective_pairing.
  - vm_compute. reflexivity.
  - vm_compute. tauto.
Defined.

(** C7, the claim as stated.  After "echo a", "echo b" and "echo c" three
    presses of the up arrow show them, the newest first; the fourth press
    empties the line and moves the index on to 3. *)
Lemma fourth_press_changes_the_line :
  cmd_history_ (term entered3)
  = ["echo c"; "echo b"; "echo a"; ""; ""; ""; ""; ""]
  /\ [linebuf_ (term (press_up entered3));
      linebuf_ (term (press_up (press_up entered3)));
      linebuf_ (term (press_up (press_up (press_up entered3))));
      linebuf_ (term (press_up (press_up (press_up (press_up entered3)))))]
     = ["echo c"; "echo b"; "echo a"; ""]
  /\ [cmd_history_index_ (term (press_up (press_up (press_up entered3))));
      cmd_history_index_
        (term (press_up (press_up (press_up (press_up entered3)))))]
     = [2; 3].
Proof. vm_compute. repeat split. Qed.

Lemma run_or_Ok (d : World) (r : Result World) :
  is_Ok r = true -> r = Ok (run_or d r).
Proof. destruct r; [reflexivity|discriminate]. Qed.

Lemma history_navigation_witness :
  (linebuf_ (presses_up 1 (term entered3)) = "echo c"
   /\ linebuf_ (presses_up 2 (term entered3)) = "echo b"
   /\ linebuf_ (presses_up 3 (term entered3)) = "echo a")
  /\ (linebuf_ (presses_up 4 (term entered3))
      = nth 0 (cmd_history_ (term typed1)) ""
      /\ cmd_history_index_ (presses_up 4 (term entered3)) = 3)
  /\ (forall n, (8 <= n)%nat ->
        cmd_history_index_ (presses_up n (term entered3)) = 7
        /\ linebuf_ (presses_up n (term entered3))
           = nth 4 (cmd_history_ (term typed1)) "")
  /\ (cmd_history_index_ (HistoryUpDown (-1) (term entered3)) = -1
      /\ linebuf_ (HistoryUpDown (-1) (term entered3)) = "").
Proof.
  apply (@history_navigation_walks_eight_slots K0
           typed1 typed2 typed3 entered1 entered2 entered3
           "echo a" "echo b" "echo c" 0 0).
  - vm_compute. reflexivity.
  - vm_compute. repeat split.
  - apply run_or_Ok. vm_compute. reflexivity.
  - vm_compute. repeat split.
  - vm_compute. reflexivity.
  - apply run_or_Ok. vm_compute. reflexivity.
  - vm_compute. repeat split.
  - vm_compute. reflexivity.
  - apply run_or_Ok. vm_compute. reflexivity.
Defined.

(** [Read] on a new terminal, which has printed its prompt: Ctrl-D behind
    two messages that are passed over; Ctrl-C, which is echoed and passed,
    before a plain key; a plain key; and [Write] of five bytes. *)
Lemma TerminalFileDescriptor_witness :
  let t := @Terminal_new K0 1 true in
  (@Read K0 5 ([kOtherMessage 3; kKeyPush 0 4 "a" false]
               ++ kKeyPush 1 7 "d" true :: [kKeyPush 0 4 "a" true]) t
   = Returned 0 None [kKeyPush 0 4 "a" true] (@Print K0 "^D" t)
   /\ printed_ (@Print K0 "^D" t) = ">^D")
  /\ (@Read K0 5 ([] ++ kKeyPush 16 6 "c" true :: [kKeyPush 0 4 "a" true]) t
      = @Read K0 5 [kKeyPush 0 4 "a" true] (@Print K0 "^C" t)
      /\ printed_ (@Print K0 "^C" t) = ">^C")
  /\ (@Read K0 5 ([kKeyPush 0 4 "b" false] ++ kKeyPush 0 4 "a" true :: []) t
      = Returned 1 (Some "a"%char) [] (@Print K0 "a" t)
      /\ printed_ (@Print K0 "a" t) = ">a")
  /\ (snd (@Write K0 "hello world" 5 t) = 5
      /\ printed_ (fst (@Write K0 "hello world" 5 t)) = ">hello").
Proof.
  cbv zeta. split; [|split; [|split]].
  - refine (proj1 (@TerminalFileDescriptor_contract K0) 5 1 "d"%char
              [kOtherMessage 3; kKeyPush 0 4 "a" false]
              [kKeyPush 0 4 "a" true] (@Terminal_new K0 1 true) _ _);
      vm_compute; reflexivity.
  - refine (proj1 (proj2 (@TerminalFileDescriptor_contract K0)) 5 16 6 "c"%char
              [] [kKeyPush 0 4 "a" true] (@Terminal_new K0 1 true) _ _ _);
      vm_compute; [reflexivity|reflexivity|discriminate].
  - refine (proj1 (proj2 (proj2 (@TerminalFileDescriptor_contract K0)))
              5 0 4 "a"%char [kKeyPush 0 4 "b" false] []
              (@Terminal_new K0 1 true) _ _);
      vm_compute; reflexivity.
  - exact (proj1 (proj2 (proj2 (proj2 (@TerminalFileDescriptor_contract K0))))
             "hello world" 5 (@Terminal_new K0 1 true)).
Defined.

(** [Read] on the demo kernel: Ctrl-C is echoed and passed, Ctrl-D is echoed
    and ends the input; a plain key is echoed and returned. *)
Example Read_demo :
  let t := @Terminal_new K0 1 true in
  @Read K0 1 [kKeyPush 1 6 "c" true; kKeyPush 16 7 "d" true] t
  = Returned 0 None [] (@Print K0 "^C^D" t)
  /\ @Read K0 1 [kOtherMessage 2; kKeyPush 0 4 "a" true] t
     = Returned 1 (Some "a"%char) [] (@Print K0 "a" t).
Proof. vm_compute. split; reflexivity. Qed.


(** C10, the claim as stated.  The [cat] branch is a built-in branch that
    does not test [first_arg] either: the line "cat" with no argument, the
    look-up finding no file for the null path, ends in the read through the
    null pointer as "ls" does.  "echo" alone prints its empty line, and
    "noterm" alone hands the null pointer to the new task. *)
Lemma cat_reads_null_first_arg :
  @ExecuteLine K0 (with_line "cat" (@world0 K0)) = Crash NullDereference
  /\ @ExecuteLine K0 (with_line "ls" (@world0 K0)) = Crash NullDereference
  /\ printed_ (term (run_or (@world0 K0)
                       (@ExecuteLine K0 (with_line "echo" (@world0 K0)))))
     = ">" +++ endl
  /\ trace (run_or (@world0 K0)
              (@ExecuteLine K0 (with_line "noterm" (@world0 K0))))
     = [ENewTask None].
Proof. vm_compute. repeat split. Qed.

Lemma ExecuteLine_null_first_arg_witness :
  @ExecuteLine K0 (with_line "cat" (@world0 K0)) = Crash NullDereference
  /\ @ExecuteLine K0 (with_line "clear all" (@world0 K0))
     = @ExecuteLine K0
         (set_term (set_linebuf "clear" (term (with_line "clear all" (@world0 K0))))
            (with_line "clear all" (@world0 K0))).
Proof.
  pose proof (@ExecuteLine_ls_reads_null_first_arg K0 (@world0 K0) 0 0)
    as (_ & _ & _ & Hcat & _).
  pose proof (@ExecuteLine_ls_reads_null_first_arg K0
                (with_line "clear all" (@world0 K0)) 0 0)
    as (_ & _ & _ & _ & _ & _ & Hclear).
  split.
  - apply Hcat. vm_compute. reflexivity.
  - apply (Hclear "clear" (Some "all")).
    + left. reflexivity.
    + vm_compute. reflexivity.
Defined.

(** ** The further properties on the small kernel *)

Lemma MakeArgVector_layout_witness :
  let l := ArgVector.argument_list "app" (Some "x  y") in
  let r := ArgVector.MakeArgVector "app" (Some "x  y") 32 3840 in
  ArgVector.argv (fst r) !! Z.of_nat 2 = Some (ArgSpec.offset_of l 2)
  /\ ArgSpec.cstring_at (ArgVector.argbuf (fst r)) (ArgSpec.offset_of l 2) "y"
     = true.
Proof.
  cbv zeta.
  apply (ArgVectorLayout.MakeArgVector_lays_out_the_argument_list
           "app" (Some "x  y") 32 3840 2 "y").
  - vm_compute. reflexivity.
  - vm_compute. reflexivity.
Defined.

(** "app" with the line "  x   yz " behind it: three strings, the words "x"
    and "yz" behind the command; and with a line of spaces only, the command
    alone. *)
Lemma MakeArgVector_words_witness :
  let r := ArgVector.MakeArgVector "app" (Some "  x   yz ") 32 3840 in
  (ArgVector.argc (fst r) = 1 + Z.of_nat (length (ArgSpec.words "  x   yz "))
   /\ (exists off, ArgVector.argv (fst r) !! 0 = Some off
                   /\ ArgSpec.cstring_at (ArgVector.argbuf (fst r)) off "app"
                      = true)
   /\ forall i t, nth_error (ArgSpec.words "  x   yz ") i = Some t ->
        exists off, ArgVector.argv (fst r) !! (Z.of_nat i + 1) = Some off
                    /\ ArgSpec.cstring_at (ArgVector.argbuf (fst r)) off t
                       = true)
  /\ ArgSpec.words "  x   yz " = ["x"; "yz"]
  /\ ArgVector.MakeArgVector "app" (Some "   ") 32 3840
     = ArgVector.MakeArgVector "app" None 32 3840.
Proof.
  cbv zeta. split; [|split].
  - apply (proj1 (ArgVectorLayout.MakeArgVector_arguments_are_the_words
                    "app" "  x   yz " 32 3840)).
    vm_compute. reflexivity.
  - reflexivity.
  - apply (proj2 (proj2 (proj2
             (ArgVectorLayout.MakeArgVector_arguments_are_the_words
                "app" "   " 32 3840)))).
    reflexivity.
Defined.

Lemma MakeArgVector_stored_range_witness :
  let l := ArgVector.argument_list "app" (Some "x  y") in
  let r := ArgVector.MakeArgVector "app" (Some "x  y") 32 3840 in
  (forall i, is_Some (ArgVector.argv (fst r) !! i)
             <-> 0 <= i < ArgVector.argc (fst r))
  /\ ArgVector.argc (fst r) <= 32
  /\ (forall k, is_Some (ArgVector.argbuf (fst r) !! k)
                <-> 0 <= k < ArgVector.packed_size l)
  /\ ((forall k, is_Some (ArgVector.argbuf (fst r) !! k) -> 0 <= k < 3840)
      <-> ArgVector.packed_size l <= 3840).
Proof.
  cbv zeta.
  apply (ArgVectorLayout.MakeArgVector_stores_exactly_the_packed_size
           "app" (Some "x  y") 32 3840).
  vm_compute. reflexivity.
Defined.

Lemma LoadElf_maps_witness :
  let r := @LoadElf K0 app_ehdr (@world0 K0) in
  let loads := @load_segments K0 (GetProgramHeader app_ehdr) in
  trace (fst r)
  = trace (@world0 K0) ++ map (fun ph => mapping_call ph kSuccess) loads
  /\ fst (snd r) = fold_left Z.max (map segment_end loads) 0
  /\ term (fst r) = term (@world0 K0)
  /\ task (fst r) = task (@world0 K0)
  /\ g_app_loads (fst r) = g_app_loads (@world0 K0).
Proof.
  cbv zeta.
  apply (@LoadElf_maps_each_load_segment_read_only K0 app_ehdr (@world0 K0)).
  apply with_error_eta. vm_compute. reflexivity.
Defined.

Lemma LoadElf_failed_mapping_witness :
  let r := @LoadElf K_segment app_ehdr (@world0 K_segment) in
  (fst r = @world0 K_segment /\ fst (snd r) = 0 /\ kOther 3 = kInvalidFormat)
  \/ (exists pre ph post,
        @load_segments K_segment (GetProgramHeader app_ehdr)
        = pre ++ ph :: post
        /\ trace (fst r)
           = trace (@world0 K_segment)
             ++ map (fun ph => mapping_call ph kSuccess) pre
             ++ [mapping_call ph (kOther 3)]
        /\ fst (snd r) = fold_left Z.max (map segment_end (pre ++ [ph])) 0).
Proof.
  cbv zeta.
  apply (@LoadElf_stops_at_the_first_failed_mapping K_segment app_ehdr
           (@world0 K_segment)).
  - apply with_error_eta. vm_compute. reflexivity.
  - reflexivity.
Defined.

Lemma LoadElf_without_load_segment_witness :
  @GetFirstLoadAddress K0 empty_ehdr = 0
  /\ @LoadElf K0 empty_ehdr (@world0 K0) = (@world0 K0, (0, kInvalidFormat)).
Proof.
  apply (@LoadElf_without_load_segment K0 empty_ehdr (@world0 K0)).
  reflexivity.
Defined.

Lemma FreePML4_witness :
  let r := @SetupPML4 K0 (@world0 K0) in
  (is_err kSuccess = true ->
   task (fst r) = task (@world0 K0)
   /\ machine (fst r) = fst (@NewPageMap K0 (machine (@world0 K0))))
  /\ (is_err kSuccess = false ->
      forall w2 err, @FreePML4 K0 (fst r) = (w2, err) ->
      trace w2 = trace (@world0 K0)
                 ++ [ENewPageMap (fst (snd r), kSuccess);
                     EFreePageMap (fst (snd r)) err]
      /\ context_cr3 (task w2) = 0
      /\ @FreePageMap K0 (@ResetCR3 K0 (machine (fst r))) (fst (snd r))
         = (machine w2, err)).
Proof.
  cbv zeta.
  apply (@FreePML4_frees_the_map_of_SetupPML4 K0 (@world0 K0)).
  apply with_error_eta. vm_compute. reflexivity.
Defined.

Lemma LoadApp_cache_witness :
  let r := @LoadApp K0 app_entry (@world0 K0) in
  let w' := fst r in
  (forall k, k <> entry_addr app_entry ->
     g_app_loads w' !! k = g_app_loads (@world0 K0) !! k)
  /\ (is_Some (g_app_loads (@world0 K0) !! entry_addr app_entry) ->
      g_app_loads w' = g_app_loads (@world0 K0))
  /\ (g_app_loads (@world0 K0) !! entry_addr app_entry = None ->
      forall v, g_app_loads w' !! entry_addr app_entry = Some v ->
      pml4 v = fst (snd (@SetupPML4 K0 (@world0 K0)))
      /\ entry v
         = e_entry (snd (@LoadFile K0
                           (machine (fst (@SetupPML4 K0 (@world0 K0))))
                           app_entry))
      /\ exists w3,
           @LoadElf K0
             (snd (@LoadFile K0 (machine (fst (@SetupPML4 K0 (@world0 K0))))
                     app_entry))
             (fst (@call_LoadFile K0 app_entry
                     (fst (@SetupPML4 K0 (@world0 K0)))))
           = (w3, (vaddr_end v, kSuccess))).
Proof.
  cbv zeta.
  apply (@LoadApp_caches_only_a_loaded_image K0 app_entry (@world0 K0)
           (fst (@LoadApp K0 app_entry (@world0 K0)))
           (fst (snd (@LoadApp K0 app_entry (@world0 K0))))
           (snd (snd (@LoadApp K0 app_entry (@world0 K0))))).
  apply with_error_eta. reflexivity.
Defined.

Lemma LoadApp_miss_witness :
  let r := @LoadApp K0 app_entry (@world0 K0) in
  let info := fst (snd r) in
  let temp := fst (snd (@SetupPML4 K0 (@world0 K0))) in
  let hdr := snd (@LoadFile K0 (machine (fst (@SetupPML4 K0 (@world0 K0))))
                    app_entry) in
  let loads := @load_segments K0 (GetProgramHeader hdr) in
  trace (fst r)
  = trace (@world0 K0)
    ++ [ENewPageMap (temp, kSuccess); ELoadFile (entry_addr app_entry)]
    ++ map (fun ph => mapping_call ph kSuccess) loads
    ++ [ENewPageMap (pml4 info, kSuccess);
        ECopyPageMaps (pml4 info) temp 4 256 kSuccess]
  /\ g_app_loads (fst r)
     = <[entry_addr app_entry := mkAppLoad (vaddr_end info) (entry info) temp]>
         (g_app_loads (@world0 K0))
  /\ entry info = e_entry hdr
  /\ vaddr_end info = fold_left Z.max (map segment_end loads) 0.
Proof.
  cbv zeta.
  apply (@LoadApp_miss_keeps_the_loaded_map_for_the_cache K0 app_entry
           (@world0 K0)).
  - reflexivity.
  - apply with_error_eta. vm_compute. reflexivity.
Defined.

Lemma LoadApp_text_file_witness :
  let r := @LoadApp K_disk note_entry (@world0 K_disk) in
  snd r = (AppLoadInfo_zero, kInvalidFile)
  /\ g_app_loads (fst r) = g_app_loads (@world0 K_disk)
  /\ trace (fst r)
     = trace (@world0 K_disk)
       ++ [ENewPageMap (0x10000, kSuccess); ELoadFile (entry_addr note_entry)]
  /\ context_cr3 (task (fst r)) = 0x10000.
Proof.
  cbv zeta.
  apply (@LoadApp_refuses_a_file_without_the_ELF_magic K_disk note_entry
           (@world0 K_disk) 0x10000).
  - reflexivity.
  - vm_compute. reflexivity.
  - vm_compute. reflexivity.
Defined.

Lemma ExecuteFile_too_many_arguments_witness :
  let r := @ExecuteFile K0 app_entry "app" (Some (letters 32)) (@world0 K0) in
  is_err (snd r) = true
  /\ term (fst r) = term (@world0 K0)
  /\ (exists evs, trace (fst r) = trace (@world0 K0) ++ evs
        /\ existsb is_CallApp evs = false)
  /\ (snd (snd (@LoadApp K0 app_entry (@world0 K0))) = kSuccess ->
      snd (@SetupPageMaps K0
             (machine (fst (@LoadApp K0 app_entry (@world0 K0))))
             0xfffffffffffff000 1 true) = kSuccess ->
      snd r = kFull).
Proof.
  cbv zeta.
  apply (@ExecuteFile_refuses_more_than_32_arguments K0 app_entry "app"
           (Some (letters 32)) (@world0 K0)).
  - vm_compute. reflexivity.
  - apply surjective_pairing.
Defined.

Lemma ExecuteFile_argument_count_witness :
  let r := @ExecuteFile K0 app_entry "app" (Some "x y") (@world0 K0) in
  3 = Z.of_nat (length (ArgVector.argument_list "app" (Some "x y")))
  /\ 1 <= 3 <= 32
  /\ exists w1 info m t,
       @LoadApp K0 app_entry (@world0 K0) = (w1, (info, kSuccess))
       /\ 0xffff800000000120 = entry info
       /\ let run := @CallApp K0 m t 3 0xfffffffffffff000
                       (Z.lor (Z.shiftl 3 3) 3) 0xffff800000000120
                       (0xffffffffffffe000 + 4096 - 8) in
          5 = run_ret run
          /\ printed_ (term (fst r))
             = printed_ (term (@world0 K0)) +++ run_output run
               +++ "app exited. ret = " +++ fmt_d (run_ret run) +++ endl.
Proof.
  cbv zeta.
  apply (@ExecuteFile_calls_the_application_with_the_argument_list K0
           app_entry "app" (Some "x y") (@world0 K0)
           (fst (@ExecuteFile K0 app_entry "app" (Some "x y") (@world0 K0)))
           (snd (@ExecuteFile K0 app_entry "app" (Some "x y") (@world0 K0)))
           [ENewPageMap (0x10000, kSuccess); ELoadFile 0x7000;
            ESetupPageMaps 0xffff800000000000 1 false kSuccess;
            ENewPageMap (0x11000, kSuccess);
            ECopyPageMaps 0x11000 0x10000 4 256 kSuccess;
            ESetupPageMaps 0xfffffffffffff000 1 true kSuccess;
            ESetupPageMaps 0xffffffffffffe000 1 true kSuccess;
            ECallApp 3 0xffff800000000120 5;
            ECleanPageMaps 0xffff800000000000 kSuccess;
            EFreePageMap 0x11000 kSuccess]).
  - apply surjective_pairing.
  - vm_compute. reflexivity.
  - vm_compute. tauto.
Defined.

(** What the terminal shows after this launch: the prompt it had, the "hi"
    of the application, and the exit message with the 5 it returned. *)
Example ExecuteFile_screen :
  printed_ (term (fst (@ExecuteFile K0 app_entry "app" (Some "x y")
                         (@world0 K0))))
  = ">hi" +++ "app exited. ret = 5" +++ endl.
Proof. vm_compute. reflexivity. Qed.

Lemma ExecuteFile_task_witness :
  exists w1 info m t,
    @LoadApp K0 app_entry (@world0 K0) = (w1, (info, kSuccess))
    /\ 5 = run_ret (@CallApp K0 m t 3 0xfffffffffffff000 27
                      0xffff800000000120 0xffffffffffffeff8)
    /\ Files t = Files (task (@world0 K0))
                 ++ repeat (TerminalFileDescriptor
                              (task_id_ (term (@world0 K0)))) 3
    /\ context_cr3 t = pml4 info
    /\ DPagingEnd t = DPagingBegin t
    /\ FileMapEnd t = 0xffffffffffffe000
    /\ (0 <= vaddr_end info < 2 ^ 64 - 4096 ->
        DPagingBegin t mod 4096 = 0
        /\ vaddr_end info < DPagingBegin t <= vaddr_end info + 4096).
Proof.
  apply (@ExecuteFile_prepares_the_task_of_the_application K0
           app_entry "app" (Some "x y") (@world0 K0)
           (fst (@ExecuteFile K0 app_entry "app" (Some "x y") (@world0 K0)))
           (snd (@ExecuteFile K0 app_entry "app" (Some "x y") (@world0 K0)))
           [ENewPageMap (0x10000, kSuccess); ELoadFile 0x7000;
            ESetupPageMaps 0xffff800000000000 1 false kSuccess;
            ENewPageMap (0x11000, kSuccess);
            ECopyPageMaps 0x11000 0x10000 4 256 kSuccess;
            ESetupPageMaps 0xfffffffffffff000 1 true kSuccess;
            ESetupPageMaps 0xffffffffffffe000 1 true kSuccess;
            ECallApp 3 0xffff800000000120 5;
            ECleanPageMaps 0xffff800000000000 kSuccess;
            EFreePageMap 0x11000 kSuccess]).
  - apply surjective_pairing.
  - vm_compute. reflexivity.
  - vm_compute. tauto.
Defined.

(** The second launch of the application, which finds it in the cache: the
    page map freed is the one of this launch, 0x12000, and not the cached
    0x10000. *)
Lemma ExecuteFile_frees_its_page_map_witness :
  let r := @ExecuteFile K0 app_entry "app" None after_first_launch in
  exists w1 info pre argc ret,
    @LoadApp K0 app_entry after_first_launch = (w1, (info, kSuccess))
    /\ trace (fst r)
       = trace after_first_launch
         ++ pre ++ [ECallApp argc (entry info) ret;
                    ECleanPageMaps 0xffff800000000000 kSuccess;
                    EFreePageMap (pml4 info) kSuccess]
    /\ forallb before_transfer pre = true
    /\ context_cr3 (task (fst r)) = 0
    /\ Files (task (fst r)) = [] /\ FileMaps (task (fst r)) = []
    /\ pml4 info = 0x12000
    /\ pml4 <$> (g_app_loads (fst r) !! entry_addr app_entry) = Some 0x10000.
Proof.
  cbv zeta.
  destruct (@ExecuteFile_frees_the_page_map_of_the_launch K0 app_entry "app"
              None after_first_launch
              (fst (@ExecuteFile K0 app_entry "app" None after_first_launch)))
    as (w1 & info & pre & argc & ret & p & HL & Ht & Hpre & Hc & HF & HM & Hp).
  - apply error_eta. vm_compute. reflexivity.
  - assert (Hinfo : pml4 info = 0x12000).
    { assert (E : pml4 (fst (snd (@LoadApp K0 app_entry after_first_launch)))
                  = 0x12000) by (vm_compute; reflexivity).
      rewrite HL in E. exact E. }
    rewrite (Hp (fun m t argc argv ss rip rsp => eq_refl)) in Ht.
    exists w1, info, pre, argc, ret.
    repeat split; assumption || (vm_compute; reflexivity).
Defined.

Lemma Print_grid_witness :
  @cursor_in_grid K0 (@Print K0 (replicate_char 1000 "a" +++ endl)
                        (@Terminal_new K0 1 true))
  /\ same_editor (@Terminal_new K0 1 true)
       (@Print K0 (replicate_char 1000 "a" +++ endl) (@Terminal_new K0 1 true)).
Proof.
  apply (@Print_keeps_the_cursor_on_the_grid K0).
  vm_compute. repeat split; discriminate.
Defined.

Lemma Print_wrap_witness :
  cursor_x (@Print K0 (replicate_char 130 "a") (@Terminal_new K0 1 true))
  = (cursor_x (@Terminal_new K0 1 true) + strlen (replicate_char 130 "a"))
    mod @kColumns K0
  /\ cursor_y (@Print K0 (replicate_char 130 "a") (@Terminal_new K0 1 true))
     = Z.min (@kRows K0 - 1)
         (cursor_y (@Terminal_new K0 1 true)
          + (cursor_x (@Terminal_new K0 1 true)
             + strlen (replicate_char 130 "a")) / @kColumns K0).
Proof.
  apply (@Print_wraps_at_the_last_column K0).
  - vm_compute. repeat split; discriminate.
  - vm_compute. reflexivity.
Defined.

Lemma type_keys_witness :
  let w := @world0 K0 in
  let n := Z.to_nat (Z.min (strlen (replicate_char 100 "a"))
                       (@room K0 (term w))) in
  exists t',
    @type_keys K0 (replicate_char 100 "a") w = Ok (set_term t' w)
    /\ typed_line t' = typed_line (term w)
                       +++ substring 0 n (replicate_char 100 "a")
    /\ linebuf_index_ t' = linebuf_index_ (term w) + Z.of_nat n
    /\ cursor_x t' = cursor_x (term w) + Z.of_nat n
    /\ cursor_y t' = cursor_y (term w)
    /\ cmd_history_ t' = cmd_history_ (term w)
    /\ cmd_history_index_ t' = cmd_history_index_ (term w)
    /\ printed_ t' = printed_ (term w).
Proof.
  cbv zeta.
  apply (@type_keys_fills_the_line K0 (replicate_char 100 "a") (@world0 K0)).
  - vm_compute. reflexivity.
  - vm_compute. split; discriminate.
Defined.

Lemma editor_in_bounds_witness :
  (forall task_id show_window,
     @editor_in_bounds K0 (@Terminal_new K0 task_id show_window))
  /\ (forall modifier keycode c w w',
       @editor_in_bounds K0 (term w) ->
       @InputKey K0 modifier keycode c w = Ok w' ->
       @editor_in_bounds K0 (term w')).
Proof.
  apply (@the_editor_stays_in_bounds K0). vm_compute. discriminate.
Defined.

Lemma backspace_witness :
  let w := @world0 K0 in
  exists w1 t2,
    @InputKey K0 0 4 "a" w = Ok w1
    /\ @InputKey K0 0 42 BS w1 = Ok (set_term t2 w)
    /\ cursor_y t2 = cursor_y (term w)
    /\ cmd_history_ t2 = cmd_history_ (term w)
    /\ cmd_history_index_ t2 = cmd_history_index_ (term w)
    /\ printed_ t2 = printed_ (term w)
    /\ (1 <= @room K0 (term w) ->
        typed_line t2 = typed_line (term w)
        /\ linebuf_index_ t2 = linebuf_index_ (term w)
        /\ cursor_x t2 = cursor_x (term w))
    /\ (@room K0 (term w) = 0 -> 0 < cursor_x (term w) ->
        0 < linebuf_index_ (term w) ->
        linebuf_index_ t2 = linebuf_index_ (term w) - 1
        /\ cursor_x t2 = cursor_x (term w) - 1
        /\ typed_line (term w)
           = typed_line t2
             +++ substring (Z.to_nat (linebuf_index_ (term w) - 1)) 1
                   (linebuf_ (term w))).
Proof.
  cbv zeta.
  apply (@backspace_undoes_a_character K0 0 4 0 42 "a" (@world0 K0)).
  - reflexivity.
  - vm_compute. discriminate.
  - vm_compute. split; discriminate.
Defined.

Lemma enter_on_an_empty_line_witness :
  exists t',
    @InputKey K0 0 40 LF (@world0 K0) = Ok (set_term t' (@world0 K0))
    /\ cmd_history_ t' = cmd_history_ (term (@world0 K0))
    /\ cmd_history_index_ t' = -1
    /\ linebuf_index_ t' = 0
    /\ linebuf_ t' = ""
    /\ printed_ t' = printed_ (term (@world0 K0)) +++ ">".
Proof.
  apply (@InputKey_enter_on_an_empty_line K0 0 40 (@world0 K0)).
  reflexivity.
Defined.

Lemma arrow_up_then_down_witness :
  exists w1 t2,
    @InputKey K0 0 0x52 NUL typed1 = Ok w1
    /\ @InputKey K0 0 0x51 NUL w1 = Ok (set_term t2 typed1)
    /\ cmd_history_ t2 = cmd_history_ (term typed1)
    /\ cmd_history_index_ t2 = -1
    /\ linebuf_ t2
       = (if -1 =? -1 then ""
          else nth (Z.to_nat (-1)) (cmd_history_ (term typed1)) "")
    /\ linebuf_index_ t2 = strlen (linebuf_ t2)
    /\ cursor_x t2 = strlen (linebuf_ t2) + 1.
Proof.
  apply (@arrow_up_then_down_shows_the_entry_of_the_index K0 0 0 typed1 (-1)).
  - vm_compute. reflexivity.
  - discriminate.
  - vm_compute. reflexivity.
  - vm_compute. discriminate.
Defined.

Lemma cat_witness :
  let w := @world0 K_disk in
  exists t',
    @ExecuteLine K_disk (with_line ("cat " +++ "note") w)
    = Ok (log (EFindFile (Some "note")) (set_term t' w))
    /\ printed_ t'
       = printed_ (term w)
         +++ substring 0 (Z.to_nat (file_size note_entry))
               (file_bytes (@file_clusters K_disk (machine w)
                              (first_cluster note_entry)))
    /\ cmd_history_ t' = cmd_history_ (term w).
Proof.
  cbv zeta.
  apply (@cat_prints_the_first_file_size_bytes K_disk (@world0 K_disk) "note"
           note_entry false).
  - reflexivity.
  - reflexivity.
Defined.

(** The seven bytes that [cat note] prints. *)
Example cat_note_bytes :
  substring 0 (Z.to_nat (file_size note_entry))
    (file_bytes (@file_clusters K_disk machine0 (first_cluster note_entry)))
  = "hello w".
Proof. reflexivity. Qed.

Lemma cat_missing_file_witness :
  let w := @world0 K0 in
  (strlen "nofile" <= 48 ->
   exists t',
     @ExecuteLine K0 (with_line ("cat " +++ "nofile") w)
     = Ok (log (EFindFile (Some "nofile")) (set_term t' w))
     /\ printed_ t'
        = printed_ (term w) +++ "no such file: " +++ "nofile" +++ endl)
  /\ (48 < strlen "nofile" ->
      @ExecuteLine K0 (with_line ("cat " +++ "nofile") w)
      = Crash BufferOverflow).
Proof.
  cbv zeta.
  apply (@cat_of_a_missing_file_overruns_with_a_long_name K0 (@world0 K0)
           "nofile" false).
  reflexivity.
Defined.

(** A name of 49 bytes: the message does not fit. *)
Example cat_long_name_overruns :
  @ExecuteLine K0 (with_line ("cat " +++ replicate_char 49 "n") (@world0 K0))
  = Crash BufferOverflow.
Proof. vm_compute. reflexivity. Qed.

Lemma memstat_witness :
  let w := @world0 K0 in
  let used := @memstat_line K0 "Phys used : " (fst (@Stat K0 (machine w))) in
  let total := @memstat_line K0 "Phys total : " (snd (@Stat K0 (machine w))) in
  strlen used + 1 <= 62
  /\ strlen total + 1 <= 63
  /\ exists t',
       @ExecuteLine K0 (with_line "memstat" w) = Ok (set_term t' w)
       /\ printed_ t' = printed_ (term w) +++ used +++ total.
Proof.
  cbv zeta. apply (@memstat_fits_its_buffer K0 (@world0 K0)).
  - vm_compute. split; [discriminate|reflexivity].
  - vm_compute. split; [discriminate|reflexivity].
Defined.

(** On the small disk a file is named "cat"; the line "cat note" prints
    the file NOTE all the same, and loads nothing. *)
Lemma builtin_witness :
  let w := with_line "cat note" (@world0 K_cat_file) in
  let w' := run_or w (@ExecuteLine K_cat_file w) in
  task w' = task w
  /\ g_app_loads w' = g_app_loads w
  /\ exists evs, trace w' = trace w ++ evs
       /\ existsb is_launch_step evs = false.
Proof.
  cbv zeta.
  apply (@builtin_commands_launch_nothing K_cat_file).
  - vm_compute. reflexivity.
  - apply run_or_Ok. vm_compute. reflexivity.
Defined.

(** What that line does, and what the same file does under another name. *)
Example cat_is_never_run :
  let w := @world0 K_cat_file in
  fst (@FindFile K_cat_file (machine w) (Some "cat")) = Some app_entry
  /\ trace (run_or w (@ExecuteLine K_cat_file (with_line "cat note" w)))
     = [EFindFile (Some "note")]
  /\ printed_ (term (run_or w (@ExecuteLine K_cat_file (with_line "cat note" w))))
     = ">hello w"
  /\ existsb is_CallApp
       (trace (run_or w (@ExecuteLine K_cat_file (with_line "app" w)))) = true.
Proof. vm_compute. repeat split. Qed.

(** [ls docs] on the small disk: the first cluster holds NOTE and a deleted
    entry, the second APP and the end mark; the third is not read. *)
Example ls_docs_listing :
  let w := @world0 K_disk in
  printed_ (term (run_or w (@ExecuteLine K_disk (with_line "ls docs" w))))
  = printed_ (term w) +++ "NOTE" +++ endl +++ "APP" +++ endl
  /\ @live_entries K_disk
       (concat (@directory_clusters K_disk (machine w) (first_cluster docs_entry)))
     = [note_entry; app_entry].
Proof. vm_compute. split; reflexivity. Qed.

End Runs.
